(** * Bingo generator, simulator and live play: a shallow embedding

    The development follows the Python sources of the repository:
    - [services/generador_service.py]  (validation, generation, Corel layout),
    - [services/simulador_service.py]  (loading a Corel file, one simulated game),
    - [services/bingo_live_service.py] (the interactive game state).

    Python integers are [Z], Python sets of integers are [gset Z], Python
    lists are [list]; exceptions are made explicit through [resultado]. *)

From Stdlib Require Import ZArith Lia Ascii String.
From stdpp Require Import base decidable option list numbers sorting gmap strings fin_sets.

Local Open Scope Z_scope.
Set Warnings "-clear-no-such-hyp".

(** ** Python primitives used by the sources *)

Module Py.

(** The exceptions that the modelled code can raise. *)
Inductive exn : Set :=
| ZeroDivisionError
| IndexError
| KeyError
| ValueError.

Inductive resultado (A : Type) : Type :=
| Ok (a : A)
| Raise (e : exn).
Global Arguments Ok {A} a.
Global Arguments Raise {A} e.

Definition bind {A B} (m : resultado A) (f : A -> resultado B) : resultado B :=
  match m with
  | Ok a => f a
  | Raise e => Raise e
  end.

Global Instance resultado_ret : MRet resultado := fun A a => Ok a.
Global Instance resultado_bind : MBind resultado := fun A B f m => bind m f.

(** [a % b]: floor modulus, [ZeroDivisionError] when [b] is zero. *)
Definition mod_ (a b : Z) : resultado Z :=
  if decide (b = 0) then Raise ZeroDivisionError else Ok (a `mod` b).

(** [a // b]: floor division, [ZeroDivisionError] when [b] is zero. *)
Definition floordiv (a b : Z) : resultado Z :=
  if decide (b = 0) then Raise ZeroDivisionError else Ok (a `div` b).

(** [range(a, b)] *)
Definition range (a b : Z) : list Z :=
  (fun i : nat => a + Z.of_nat i) <$> seq 0 (Z.to_nat (b - a)).

(** [l[i]] for a list: negative indices count from the end, and an index
    outside the list raises [IndexError]. *)
Definition index {A} (l : list A) (i : Z) : resultado A :=
  let j := if decide (i < 0) then Z.of_nat (length l) + i else i in
  if decide (j < 0) then Raise IndexError
  else match l !! Z.to_nat j with
       | Some x => Ok x
       | None => Raise IndexError
       end.

(** [s.iloc[i]] for a constant non-negative position: out of bounds raises. *)
Definition iloc {A} (l : list A) (i : nat) : resultado A :=
  match l !! i with
  | Some x => Ok x
  | None => Raise IndexError
  end.

(** [s.iloc[a:b]] for constant non-negative bounds: slices never raise,
    they are cut at the end of the row. *)
Definition iloc_slice {A} (l : list A) (a b : nat) : list A :=
  take (b - a) (drop a l).

(** Pascal's triangle: the exact binomial coefficient. *)
Fixpoint binomial (n k : nat) : Z :=
  match k, n with
  | O, _ => 1
  | S _, O => 0
  | S k', S n' => binomial n' k' + binomial n' k
  end.

(** [math.comb(n, k)]: [ValueError] on a negative argument. *)
Definition comb (n k : Z) : resultado Z :=
  if decide (n < 0 ∨ k < 0) then Raise ValueError
  else Ok (binomial (Z.to_nat n) (Z.to_nat k)).

(** Decimal digits of a natural number, most significant first. *)
Definition digit (d : Z) : string :=
  String (Ascii.ascii_of_nat (48 + Z.to_nat d)) EmptyString.

Fixpoint digits_fuel (fuel : nat) (z : Z) : string :=
  match fuel with
  | O => EmptyString
  | S f =>
      if decide (z < 10) then digit z
      else String.append (digits_fuel f (z `div` 10)) (digit (z `mod` 10))
  end.

Definition digits (z : Z) : string := digits_fuel (S (Z.to_nat z)) z.

(** [str(z)] for an integer. *)
Definition str (z : Z) : string :=
  if decide (z < 0) then String.append "-" (digits (- z)) else digits z.

Fixpoint zeros (n : nat) : string :=
  match n with
  | O => EmptyString
  | S m => String "0"%char (zeros m)
  end.

(** [s.zfill(w)]: zeros are inserted after a leading sign. *)
Definition zfill (s : string) (w : nat) : string :=
  match s with
  | String "-"%char rest =>
      String "-"%char (String.append (zeros (w - String.length s)) rest)
  | String "+"%char rest =>
      String "+"%char (String.append (zeros (w - String.length s)) rest)
  | _ => String.append (zeros (w - String.length s)) s
  end.

(** [f"{z:04d}"] *)
Definition fmt04d (z : Z) : string := zfill (str z) 4.

(** [l[:n]] for a list: a negative [n] leaves out the last [-n] items. *)
Definition slice_hasta {A} (l : list A) (n : Z) : list A :=
  if decide (n < 0) then take (Z.to_nat (Z.of_nat (length l) + n)) l
  else take (Z.to_nat n) l.

(** [int(s)] for a string of decimal digits. *)
Fixpoint int_desde (acc : Z) (s : string) : Z :=
  match s with
  | EmptyString => acc
  | String a s' => int_desde (10 * acc + (Z.of_nat (nat_of_ascii a) - 48)) s'
  end.

Definition int_ (s : string) : Z := int_desde 0 s.

End Py.

Import Py.

(** ** services/generador_service.py *)

Module Generador.

Record ConfiguracionBingo : Type := {
  seed : Z;
  numero_de_bingos : Z;
  numeros_por_carton : Z;
  numero_maximo : Z;
  cartones_por_bingo : Z;
  bingos_por_fila : Z;
  nombre_base : string;
  carpeta_salida : string
}.

(** The messages appended to [errores]; each constructor stands for one
    message text and carries the numbers the text is formatted with. *)
Inductive error_config : Set :=
| ErrNumeroDeBingos
| ErrNumerosPorCarton
| ErrNumeroMaximo
| ErrCartonMayorQueMaximo (k m : Z)
| ErrNoDivisible (n b : Z)
| ErrImposible (necesarias maximo : Z).

Global Instance error_config_eq_dec : EqDecision error_config.
Proof. solve_decision. Defined.

Definition append_if {A} (b : bool) (l : list A) (x : A) : list A :=
  if b then l ++ [x] else l.

Definition validar_configuracion (config : ConfiguracionBingo)
  : resultado (bool * list error_config) :=
  let errores := [] in
  let errores := append_if (bool_decide (numero_de_bingos config <= 0))
                   errores ErrNumeroDeBingos in
  let errores := append_if (bool_decide (numeros_por_carton config <= 0))
                   errores ErrNumerosPorCarton in
  let errores := append_if (bool_decide (numero_maximo config <= 0))
                   errores ErrNumeroMaximo in
  let errores := append_if (bool_decide (numeros_por_carton config > numero_maximo config))
                   errores
                   (ErrCartonMayorQueMaximo (numeros_por_carton config) (numero_maximo config)) in
  resto ← mod_ (numero_de_bingos config) (bingos_por_fila config);
  let errores := append_if (bool_decide (resto ≠ 0))
                   errores
                   (ErrNoDivisible (numero_de_bingos config) (bingos_por_fila config)) in
  let combinaciones_necesarias := numero_de_bingos config * cartones_por_bingo config in
  max_combinaciones ← comb (numero_maximo config) (numeros_por_carton config);
  let errores := append_if (bool_decide (combinaciones_necesarias > max_combinaciones))
                   errores
                   (ErrImposible combinaciones_necesarias max_combinaciones) in
  Ok (bool_decide (length errores = 0%nat), errores).

(** [sorted(...)] on integers. *)
Definition sorted (l : list Z) : list Z := merge_sort Z.le l.

(** [random.sample(range(1, numero_maximo + 1), numeros_por_carton)].
    The Mersenne Twister behind [random] is not modelled: [muestras i] is
    the list that the [i]-th call returns once [random.seed(config.seed)]
    has run.  What is modelled is the guard of [random.sample], which raises
    [ValueError] for a negative size or a size above the population. *)
Definition random_sample (muestras : nat -> list Z) (i : nat)
    (poblacion : list Z) (k : Z) : resultado (list Z) :=
  if decide (k < 0 ∨ Z.of_nat (length poblacion) < k) then Raise ValueError
  else Ok (muestras i).

(** The [while] loop of [generar_combinaciones]; [None] when [fuel]
    iterations were not enough.  The progress callback only reports and is
    left out. *)
Fixpoint generar_bucle (config : ConfiguracionBingo) (muestras : nat -> list Z)
    (combinaciones_necesarias : Z) (fuel i : nat)
    (cartones_unicos : gset (list Z)) : option (resultado (gset (list Z))) :=
  if decide (Z.of_nat (size cartones_unicos) < combinaciones_necesarias) then
    match fuel with
    | O => None
    | S fuel' =>
        match random_sample muestras i
                (range 1 (numero_maximo config + 1)) (numeros_por_carton config) with
        | Raise e => Some (Raise e)
        | Ok m =>
            let carton := sorted m in
            generar_bucle config muestras combinaciones_necesarias fuel' (S i)
              ({[ carton ]} ∪ cartones_unicos)
        end
    end
  else Some (Ok cartones_unicos).

(** [list(cartones_unicos)] enumerates the set in an order the code does
    not control: [elements]. *)
Definition generar_combinaciones (config : ConfiguracionBingo)
    (muestras : nat -> list Z) (fuel : nat) : option (resultado (list (list Z))) :=
  let combinaciones_necesarias := numero_de_bingos config * cartones_por_bingo config in
  r ← generar_bucle config muestras combinaciones_necesarias fuel 0 ∅;
  Some (cartones_unicos ← r; Ok (elements cartones_unicos)).

(** A cell of the Corel table: a sheet id (text), a number, or the filler
    pandas puts in a row shorter than the widest one. *)
Inductive celda : Set :=
| Texto (s : string)
| Numero (z : Z)
| Vacio.

Record DataFrame : Type := {
  columns : list string;
  filas_df : list (list celda)
}.

(** [pd.DataFrame(filas, columns=columnas)] for a list of rows: rows are
    filled up to the widest one, and a width that differs from the number of
    column names raises [ValueError]. *)
Definition crear_DataFrame (filas : list (list celda)) (columnas : list string)
  : resultado DataFrame :=
  match filas with
  | [] => Ok {| columns := columnas; filas_df := [] |}
  | _ =>
      let ancho := max_list (length <$> filas) in
      if decide (ancho = length columnas) then
        Ok {| columns := columnas;
              filas_df := (fun f => f ++ replicate (ancho - length f) Vacio) <$> filas |}
      else Raise ValueError
  end.

(** [for i in range(cartones_por_bingo): fila_datos.extend(cartones_lista[base + i])] *)
Fixpoint extender_cartones (cartones_lista : list (list Z)) (base : Z)
    (idxs : list Z) (fila_datos : list celda) : resultado (list celda) :=
  match idxs with
  | [] => Ok fila_datos
  | i :: idxs' =>
      carton ← index cartones_lista (base + i);
      extender_cartones cartones_lista base idxs' (fila_datos ++ (Numero <$> carton))
  end.

(** The body of [for fila in range(filas_corel)], threading
    [filas_agrupadas], [idx_carton1] and [idx_carton2]. *)
Fixpoint corel_bucle (cartones_lista : list (list Z)) (config : ConfiguracionBingo)
    (filas_corel : Z) (filas : list Z)
    (filas_agrupadas : list (list celda)) (idx_carton1 idx_carton2 : Z)
  : resultado (list (list celda)) :=
  match filas with
  | [] => Ok filas_agrupadas
  | fila :: filas' =>
      let base_izq := fila * cartones_por_bingo config in
      let base_der := (filas_corel + fila) * cartones_por_bingo config in
      let fila_datos := [] in
      let fila_datos := fila_datos ++ [Texto (fmt04d idx_carton1)] in
      fila_datos ← extender_cartones cartones_lista base_izq
                     (range 0 (cartones_por_bingo config)) fila_datos;
      let fila_datos := fila_datos ++ [Texto (fmt04d idx_carton2)] in
      fila_datos ← extender_cartones cartones_lista base_der
                     (range 0 (cartones_por_bingo config)) fila_datos;
      corel_bucle cartones_lista config filas_corel filas'
        (filas_agrupadas ++ [fila_datos]) (idx_carton1 + 1) (idx_carton2 + 1)
  end.

(** [[f'{letra}{i}' for i in range(1, numeros_por_carton + 1)]] *)
Definition encabezados (letra : string) (config : ConfiguracionBingo) : list string :=
  (fun i => String.append letra (str i)) <$> range 1 (numeros_por_carton config + 1).

Definition crear_dataframe_corel (cartones_lista : list (list Z))
    (config : ConfiguracionBingo) : resultado DataFrame :=
  filas_corel ← floordiv (numero_de_bingos config) (bingos_por_fila config);
  let inicio_carton_2 := numero_de_bingos config `div` 2 + 1 in
  filas_agrupadas ← corel_bucle cartones_lista config filas_corel
                      (range 0 filas_corel) [] 1 inicio_carton_2;
  let columnas :=
    ["CARTON 1"%string]
      ++ mjoin ((fun letra => encabezados letra config) <$> ["A"; "B"; "C"]%string)
      ++ ["CARTON 2"%string]
      ++ mjoin ((fun letra => encabezados letra config) <$> ["D"; "E"; "F"]%string) in
  crear_DataFrame filas_agrupadas columnas.

(** A configuration with the name and folder of the scripts. *)
Definition config_ejemplo (n k m c b : Z) : ConfiguracionBingo :=
  {| seed := 31122025; numero_de_bingos := n; numeros_por_carton := k;
     numero_maximo := m; cartones_por_bingo := c; bingos_por_fila := b;
     nombre_base := "Bingos"; carpeta_salida := "bingos" |}.

(** The sorted tuples of the first [i] samples. *)
Definition vistos (muestras : nat -> list Z) (i : nat) : gset (list Z) :=
  list_to_set (sorted <$> (muestras <$> seq 0 i)).




(** Six samples that cover the six pairs of 1..4, repeated for ever. *)
Definition muestras_ejemplo (i : nat) : list Z :=
  match (i mod 6)%nat with
  | 0%nat => [2; 1]
  | 1%nat => [3; 1]
  | 2%nat => [1; 4]
  | 3%nat => [3; 2]
  | 4%nat => [2; 4]
  | _ => [4; 3]
  end.

(** The cards at the pool positions [inicio .. inicio + cuantos - 1]. *)
Definition cartones_desde (pool : list (list Z)) (inicio cuantos : nat)
  : option (list (list Z)) :=
  mapM (fun i => pool !! (inicio + i)%nat) (seq 0 cuantos).

(** Row [r] of the paired layout as the specification words it: the left
    sheet id [r + 1] with its cards, then the right sheet id
    [numero_de_bingos / 2 + 1 + r] with the cards [filas] sheets further. *)
Definition fila_emparejada (pool : list (list Z)) (numero_de_bingos : Z)
    (cartones_por_bingo filas r : nat) : option (list celda) :=
  izquierda ← cartones_desde pool (r * cartones_por_bingo) cartones_por_bingo;
  derecha ← cartones_desde pool ((filas + r) * cartones_por_bingo) cartones_por_bingo;
  Some ([Texto (fmt04d (Z.of_nat r + 1))] ++ (Numero <$> concat izquierda) ++
        [Texto (fmt04d (numero_de_bingos `div` 2 + 1 + Z.of_nat r))] ++
        (Numero <$> concat derecha)).

(** Eighteen cards of ten numbers: card [i] holds [i + 1 .. i + 10]. *)
Definition pool_ejemplo : list (list Z) :=
  (fun i : nat => range (Z.of_nat i + 1) (Z.of_nat i + 11)) <$> seq 0 18.

(** The pool the generator returns for six tuples of two numbers of 1..4. *)
Definition cartones_ejemplo : list (list Z) :=
  match generar_combinaciones (config_ejemplo 2 2 4 3 2) muestras_ejemplo 6 with
  | Some (Ok l) => l
  | _ => []
  end.

End Generador.

Import Generador.

(** ** services/simulador_service.py *)

Module Simulador.

(** The dictionaries built by [cargar_cartones_corel]. *)
Record carton : Type := {
  bingo_id : string;
  carton_tipo : string;
  numeros : gset Z
}.

(** The working copies of [simular_jugada], with their [aciertos]. *)
Record carton_jugada : Type := {
  j_bingo_id : string;
  j_carton_tipo : string;
  j_numeros : gset Z;
  j_aciertos : gset Z
}.

(** An entry of [ganadores]. *)
Record ganador : Type := {
  g_bingo_id : string;
  g_carton_tipo : string
}.

Record ResultadoJugada : Type := {
  jugada_num : Z;
  bolillas_hasta_ganador : nat;
  cantidad_ganadores : nat;
  ganadores : list ganador;
  orden_bolillas : list Z
}.

Definition tipos_carton : gmap string (nat * nat) :=
  list_to_map [("A", (1, 11)); ("B", (11, 21)); ("C", (21, 31));
               ("D", (32, 42)); ("E", (42, 52)); ("F", (52, 62))]%string%nat.

(** [tipos_carton[tipo]] *)
Definition tipos_carton_get (tipo : string) : resultado (nat * nat) :=
  match tipos_carton !! tipo with
  | Some r => Ok r
  | None => Raise KeyError
  end.

(** The loop [for tipo in [...]] of the loader: one card per type, all with
    the same sheet id.  A row read by [pd.read_csv] holds integers. *)
Fixpoint cartones_de_tipos (fila : list Z) (id : string) (tipos : list string)
    (cartones : list carton) : resultado (list carton) :=
  match tipos with
  | [] => Ok cartones
  | tipo :: tipos' =>
      '(inicio, fin) ← tipos_carton_get tipo;
      let numeros := list_to_set (iloc_slice fila inicio fin) in
      cartones_de_tipos fila id tipos'
        (cartones ++ [{| bingo_id := id; carton_tipo := tipo; numeros := numeros |}])
  end.

Fixpoint cargar_bucle (df : list (list Z)) (cartones : list carton)
  : resultado (list carton) :=
  match df with
  | [] => Ok cartones
  | fila :: df' =>
      c0 ← iloc fila 0;
      let bingo_id_1 := str c0 in
      c31 ← iloc fila 31;
      let bingo_id_2 := str c31 in
      cartones ← cartones_de_tipos fila bingo_id_1 ["A"; "B"; "C"]%string cartones;
      cartones ← cartones_de_tipos fila bingo_id_2 ["D"; "E"; "F"]%string cartones;
      cargar_bucle df' cartones
  end.

(** [cargar_cartones_corel], on the table that [pd.read_csv] returns. *)
Definition cargar_cartones_corel (df : list (list Z)) : resultado (list carton) :=
  cargar_bucle df [].

(** The inner loop [for carton in aciertos] for one ball. *)
Fixpoint marcar_cartones (numeros_por_carton : Z) (bolilla : Z)
    (aciertos : list carton_jugada) (ganadores : list ganador)
  : list carton_jugada * list ganador :=
  match aciertos with
  | [] => ([], ganadores)
  | c :: resto =>
      if decide (bolilla ∈ j_numeros c) then
        let c' := {| j_bingo_id := j_bingo_id c; j_carton_tipo := j_carton_tipo c;
                     j_numeros := j_numeros c;
                     j_aciertos := {[ bolilla ]} ∪ j_aciertos c |} in
        let ganadores :=
          if decide (Z.of_nat (size (j_aciertos c')) = numeros_por_carton)
          then ganadores ++ [{| g_bingo_id := j_bingo_id c';
                                g_carton_tipo := j_carton_tipo c' |}]
          else ganadores in
        let '(resto', ganadores) :=
          marcar_cartones numeros_por_carton bolilla resto ganadores in
        (c' :: resto', ganadores)
      else
        let '(resto', ganadores) :=
          marcar_cartones numeros_por_carton bolilla resto ganadores in
        (c :: resto', ganadores)
  end.

(** The outer loop [for bolilla in orden_bolillas], with its [break]. *)
Fixpoint jugar (numeros_por_carton : Z) (pendientes : list Z)
    (aciertos : list carton_jugada) (ganadores : list ganador)
    (bolillas_cantadas : nat) : nat * list ganador :=
  match pendientes with
  | [] => (bolillas_cantadas, ganadores)
  | bolilla :: pendientes' =>
      let bolillas_cantadas := S bolillas_cantadas in
      let '(aciertos, ganadores) :=
        marcar_cartones numeros_por_carton bolilla aciertos ganadores in
      match ganadores with
      | _ :: _ => (bolillas_cantadas, ganadores)
      | [] => jugar numeros_por_carton pendientes' aciertos ganadores bolillas_cantadas
      end
  end.

(** [simular_jugada].  [orden] is what [random.shuffle] leaves in
    [orden_bolillas]: some arrangement of [range(1, bolillas_totales + 1)]. *)
Definition simular_jugada (orden : list Z) (cartones : list carton)
    (numeros_por_carton : Z) : ResultadoJugada :=
  let aciertos :=
    (fun c => {| j_bingo_id := bingo_id c; j_carton_tipo := carton_tipo c;
                 j_numeros := numeros c; j_aciertos := ∅ |}) <$> cartones in
  let '(bolillas_cantadas, ganadores) := jugar numeros_por_carton orden aciertos [] 0 in
  {| jugada_num := 0;
     bolillas_hasta_ganador := bolillas_cantadas;
     cantidad_ganadores := length ganadores;
     ganadores := ganadores;
     orden_bolillas := take bolillas_cantadas orden |}.

(** The arrangements [random.shuffle] can produce. *)
Definition es_orden_de (bolillas_totales : Z) (orden : list Z) : Prop :=
  orden ≡ₚ range 1 (bolillas_totales + 1).

Definition ganador_de (c : carton) : ganador :=
  {| g_bingo_id := bingo_id c; g_carton_tipo := carton_tipo c |}.

(** The working copy of a card once the balls [pre] have been called. *)
Definition tras (pre : list Z) (c : carton) : carton_jugada :=
  {| j_bingo_id := bingo_id c; j_carton_tipo := carton_tipo c;
     j_numeros := numeros c;
     j_aciertos := numeros c ∩ list_to_set pre |}.

Definition marcada (bolilla : Z) (c : carton_jugada) : carton_jugada :=
  if decide (bolilla ∈ j_numeros c)
  then {| j_bingo_id := j_bingo_id c; j_carton_tipo := j_carton_tipo c;
          j_numeros := j_numeros c;
          j_aciertos := {[ bolilla ]} ∪ j_aciertos c |}
  else c.

Definition completa_con (k : Z) (bolilla : Z) (c : carton_jugada) : Prop :=
  bolilla ∈ j_numeros c /\ Z.of_nat (size ({[ bolilla ]} ∪ j_aciertos c)) = k.

Global Instance completa_con_dec k b c : Decision (completa_con k b c).
Proof. unfold completa_con. apply _. Defined.

Definition ganador_j (c : carton_jugada) : ganador :=
  {| g_bingo_id := j_bingo_id c; g_carton_tipo := j_carton_tipo c |}.

(** A card with the numbers 1, 2 and 3. *)
Definition carton_de_tres : carton :=
  {| bingo_id := "0001"; carton_tipo := "A"; numeros := {[ 1; 2; 3 ]} |}.



(** Whether the ball [bolilla], called after the balls [pre], brings the hits
    of the card [c] to [k]. *)
Definition alcanza (k : Z) (pre : list Z) (bolilla : Z) (c : carton) : Prop :=
  bolilla ∈ numeros c /\
  Z.of_nat (size (numeros c ∩ list_to_set (pre ++ [bolilla]))) = k.

Global Instance alcanza_dec k pre bolilla c : Decision (alcanza k pre bolilla c).
Proof. unfold alcanza. apply _. Defined.

(** [EstadisticasSimulacion], but for the fields that numpy computes as
    floating point numbers (mean, median and deviation). *)
Record EstadisticasSimulacion : Type := {
  bolillas_min : nat;
  bolillas_max : nat;
  ganadores_max : nat;
  distribucion_ganadores : list (nat * nat);
  frecuencia_bingos : list (string * nat);
  frecuencia_cartones : list (string * nat);
  top_bingo : string * nat;
  top_carton : string * nat
}.

(** [min(l)] and [max(l)]: [ValueError] on an empty list. *)
Definition min_lista (l : list nat) : resultado nat :=
  match l with
  | [] => Raise ValueError
  | x :: l' => Ok (foldl Nat.min x l')
  end.

Definition max_lista (l : list nat) : resultado nat :=
  match l with
  | [] => Raise ValueError
  | x :: l' => Ok (foldl Nat.max x l')
  end.

(** One more occurrence of [x] in a counter: the items keep the order in
    which they were first seen. *)
Fixpoint sumar {A} `{EqDecision A} (x : A) (c : list (A * nat)) : list (A * nat) :=
  match c with
  | [] => [(x, 1%nat)]
  | (y, n) :: c' => if decide (x = y) then (y, S n) :: c' else (y, n) :: sumar x c'
  end.

(** [Counter(l)], as the list of its items. *)
Definition Counter {A} `{EqDecision A} (l : list A) : list (A * nat) :=
  foldl (fun c x => sumar x c) [] l.

(** [most_common(1)]: the first of the items with the largest count. *)
Definition most_common_1 {A} (c : list (A * nat)) : option (A * nat) :=
  foldl (fun mejor e =>
           match mejor with
           | None => Some e
           | Some m => if decide (m.2 < e.2)%nat then Some e else Some m
           end) None c.

Definition calcular_estadisticas (resultados : list ResultadoJugada)
  : resultado EstadisticasSimulacion :=
  let bolillas := bolillas_hasta_ganador <$> resultados in
  let cantidades := cantidad_ganadores <$> resultados in
  let bingos_ganadores := resultados ≫= (fun r => g_bingo_id <$> ganadores r) in
  let cartones_ganadores := resultados ≫= (fun r => g_carton_tipo <$> ganadores r) in
  let freq_bingos := Counter bingos_ganadores in
  let freq_cartones := Counter cartones_ganadores in
  let top_bingo := most_common_1 freq_bingos in
  let top_carton := most_common_1 freq_cartones in
  minimo ← min_lista bolillas;
  maximo ← max_lista bolillas;
  mas_ganadores ← max_lista cantidades;
  Ok {| bolillas_min := minimo;
        bolillas_max := maximo;
        ganadores_max := mas_ganadores;
        distribucion_ganadores := Counter cantidades;
        frecuencia_bingos := freq_bingos;
        frecuencia_cartones := freq_cartones;
        top_bingo := default ("N/A"%string, 0%nat) top_bingo;
        top_carton := default ("N/A"%string, 0%nat) top_carton |}.

(** [resultado.jugada_num = i + 1] *)
Definition con_jugada_num (r : ResultadoJugada) (n : Z) : ResultadoJugada :=
  {| jugada_num := n;
     bolillas_hasta_ganador := bolillas_hasta_ganador r;
     cantidad_ganadores := cantidad_ganadores r;
     ganadores := ganadores r;
     orden_bolillas := orden_bolillas r |}.

(** What [ejecutar_simulacion] returns, but for the paths of the files and
    the data of the plots. *)
Inductive ResultadoSimulacion : Type :=
| ErrorAlCargar (e : exn)
| SimulacionCompletada (total_jugadas : Z) (estadisticas : EstadisticasSimulacion)
    (resultados_jugadas : list ResultadoJugada).

(** The loop [for i in range(numero_jugadas)] of [ejecutar_simulacion];
    [ordenes i] is what [random.shuffle] leaves in the game [i]. *)
Fixpoint simular_jugadas (cartones : list carton) (ordenes : nat -> list Z)
    (jugadas : list Z) (i : nat) (resultados : list ResultadoJugada)
  : list ResultadoJugada :=
  match jugadas with
  | [] => resultados
  | j :: jugadas' =>
      let resultado := simular_jugada (ordenes i) cartones 10 in
      let resultado := con_jugada_num resultado (j + 1) in
      simular_jugadas cartones ordenes jugadas' (S i) (resultados ++ [resultado])
  end.

(** [ejecutar_simulacion] on an existing file that holds the table [df]:
    an exception of the loader is turned into a failed result, one of the
    statistics is not caught. *)
Definition ejecutar_simulacion (df : list (list Z)) (ordenes : nat -> list Z)
    (numero_jugadas : Z) : resultado ResultadoSimulacion :=
  match cargar_cartones_corel df with
  | Raise e => Ok (ErrorAlCargar e)
  | Ok cartones =>
      let resultados :=
        simular_jugadas cartones ordenes (range 0 numero_jugadas) 0 [] in
      estadisticas ← calcular_estadisticas resultados;
      Ok (SimulacionCompletada numero_jugadas estadisticas resultados)
  end.

End Simulador.

(** ** services/bingo_live_service.py *)

Module BingoLive.

Record Carton : Type := {
  bingo_id : string;
  carton_tipo : string;
  numeros : gset Z;
  aciertos : gset Z
}.

(** The [__eq__] that [@dataclass] generates compares all fields. *)
Global Instance Carton_eq_dec : EqDecision Carton.
Proof. solve_decision. Defined.

Definition cantidad_aciertos (c : Carton) : nat := size (aciertos c).

Definition es_ganador (c : Carton) : bool :=
  bool_decide (10 <= Z.of_nat (cantidad_aciertos c)).

Definition id_completo (c : Carton) : string :=
  String.append (bingo_id c) (String.append "-" (carton_tipo c)).

Definition con_aciertos (c : Carton) (a : gset Z) : Carton :=
  {| bingo_id := bingo_id c; carton_tipo := carton_tipo c;
     numeros := numeros c; aciertos := a |}.

(** [marcar_numero]: the card after the call and the returned flag. *)
Definition marcar_numero (c : Carton) (numero : Z) : Carton * bool :=
  if decide (numero ∈ numeros c)
  then (con_aciertos c ({[ numero ]} ∪ aciertos c), true)
  else (c, false).

(** [desmarcar_numero] *)
Definition desmarcar_numero (c : Carton) (numero : Z) : Carton * bool :=
  if decide (numero ∈ aciertos c)
  then (con_aciertos c (aciertos c ∖ {[ numero ]}), true)
  else (c, false).

(** The state of a game.  [ganadores] holds references to objects of
    [cartones]: they are kept as positions in [cartones], so that a winner
    read later shows the card as it is then. *)
Record EstadoJugada : Type := {
  cartones : list Carton;
  bolillas_cantadas : list Z;
  bolillas_disponibles : gset Z;
  ganadores : list nat;
  jugada_terminada : bool
}.

Definition tipos_carton : gmap string (nat * nat) :=
  list_to_map [("A", (1, 11)); ("B", (11, 21)); ("C", (21, 31));
               ("D", (32, 42)); ("E", (42, 52)); ("F", (52, 62))]%string%nat.

Definition tipos_carton_get (tipo : string) : resultado (nat * nat) :=
  match tipos_carton !! tipo with
  | Some r => Ok r
  | None => Raise KeyError
  end.

Fixpoint cartones_de_tipos (fila : list Z) (id : string) (tipos : list string)
    (cartones : list Carton) : resultado (list Carton) :=
  match tipos with
  | [] => Ok cartones
  | tipo :: tipos' =>
      '(inicio, fin) ← tipos_carton_get tipo;
      let numeros := list_to_set (iloc_slice fila inicio fin) in
      cartones_de_tipos fila id tipos'
        (cartones ++ [{| bingo_id := id; carton_tipo := tipo;
                         numeros := numeros; aciertos := ∅ |}])
  end.

Fixpoint cargar_bucle (df : list (list Z)) (cartones : list Carton)
  : resultado (list Carton) :=
  match df with
  | [] => Ok cartones
  | fila :: df' =>
      c0 ← iloc fila 0;
      let bingo_id_1 := zfill (str c0) 4 in
      c31 ← iloc fila 31;
      let bingo_id_2 := zfill (str c31) 4 in
      cartones ← cartones_de_tipos fila bingo_id_1 ["A"; "B"; "C"]%string cartones;
      cartones ← cartones_de_tipos fila bingo_id_2 ["D"; "E"; "F"]%string cartones;
      cargar_bucle df' cartones
  end.

(** [_cargar_cartones], on the table that [pd.read_csv] returns. *)
Definition cargar_cartones (df : list (list Z)) : resultado (list Carton) :=
  cargar_bucle df [].

(** [EstadoJugada.__init__] *)
Definition nuevo_estado (df : list (list Z)) : resultado EstadoJugada :=
  cs ← cargar_cartones df;
  Ok {| cartones := cs;
        bolillas_cantadas := [];
        bolillas_disponibles := list_to_set (range 1 61);
        ganadores := [];
        jugada_terminada := false |}.

(** Stable insertion for [sorted(..., reverse=True)]: a card goes after the
    cards with at least as many hits. *)
Fixpoint insertar_por_aciertos (c : Carton) (l : list Carton) : list Carton :=
  match l with
  | [] => [c]
  | d :: l' =>
      if decide (cantidad_aciertos d < cantidad_aciertos c)%nat
      then c :: d :: l'
      else d :: insertar_por_aciertos c l'
  end.

Definition ordenar_por_aciertos (l : list Carton) : list Carton :=
  foldl (fun acc c => insertar_por_aciertos c acc) [] l.

Record entrada_ranking : Type := {
  r_carton : string;
  r_bingo_id : string;
  r_carton_tipo : string;
  r_aciertos : nat;
  r_es_ganador : bool
}.

Definition obtener_ranking (s : EstadoJugada) (top_n : Z) : list entrada_ranking :=
  (fun c => {| r_carton := id_completo c; r_bingo_id := bingo_id c;
               r_carton_tipo := carton_tipo c; r_aciertos := cantidad_aciertos c;
               r_es_ganador := es_ganador c |})
    <$> slice_hasta (ordenar_por_aciertos (cartones s)) top_n.

(** The cards the references in [ganadores] point to. *)
Definition cartones_ganadores (cs : list Carton) (gan : list nat) : list Carton :=
  omap (fun j => cs !! j) gan.

(** What [cantar_bolilla] returns. *)
Inductive respuesta_cantar : Type :=
| JugadaYaTermino
| BolillaYaCantada (numero : Z)
| Cantada (bolilla : Z) (total_cantadas : nat)
    (aciertos_nuevos : list (string * nat))
    (ranking_top20 : list entrada_ranking)
    (hay_ganador : bool) (ganadores : list Carton).

(** [carton in self.ganadores] *)
Definition en_ganadores (cs : list Carton) (c : Carton) (gan : list nat) : bool :=
  bool_decide (c ∈ cartones_ganadores cs gan).

(** The loop [for carton in self.cartones] of [cantar_bolilla], over the
    positions of the cards. *)
Fixpoint cantar_bucle (numero : Z) (posiciones : list nat) (cs : list Carton)
    (gan : list nat) (aciertos_nuevos : list (string * nat))
  : list Carton * list nat * list (string * nat) :=
  match posiciones with
  | [] => (cs, gan, aciertos_nuevos)
  | i :: posiciones' =>
      match cs !! i with
      | None => cantar_bucle numero posiciones' cs gan aciertos_nuevos
      | Some c =>
          let '(c', acierto) := marcar_numero c numero in
          if acierto then
            let cs := <[ i := c' ]> cs in
            let aciertos_nuevos :=
              aciertos_nuevos ++ [(id_completo c', cantidad_aciertos c')] in
            let gan :=
              if es_ganador c' && negb (en_ganadores cs c' gan)
              then gan ++ [i] else gan in
            cantar_bucle numero posiciones' cs gan aciertos_nuevos
          else cantar_bucle numero posiciones' cs gan aciertos_nuevos
      end
  end.

Definition cantar_bolilla (s : EstadoJugada) (numero : Z)
  : EstadoJugada * respuesta_cantar :=
  if jugada_terminada s then (s, JugadaYaTermino)
  else if decide (numero ∉ bolillas_disponibles s) then (s, BolillaYaCantada numero)
  else
    let cantadas := bolillas_cantadas s ++ [numero] in
    let disponibles := bolillas_disponibles s ∖ {[ numero ]} in
    let '(cs, gan, aciertos_nuevos) :=
      cantar_bucle numero (seq 0 (length (cartones s))) (cartones s) (ganadores s) [] in
    let terminada := match gan with [] => jugada_terminada s | _ => true end in
    let s' := {| cartones := cs; bolillas_cantadas := cantadas;
                 bolillas_disponibles := disponibles;
                 ganadores := gan; jugada_terminada := terminada |} in
    (s', Cantada numero (length cantadas) aciertos_nuevos (obtener_ranking s' 20)
           (bool_decide (0 < length gan)%nat) (cartones_ganadores cs gan)).

(** What [deshacer_bolilla] returns. *)
Inductive respuesta_deshacer : Type :=
| NadaQueDeshacer
| Deshecha (bolilla_deshecha : Z) (total_cantadas : nat)
    (ranking_top20 : list entrada_ranking)
    (hay_ganador : bool) (ganadores : list Carton).

(** [[c for c in self.cartones if c.es_ganador]], as positions. *)
Definition gana_en (cs : list Carton) (j : nat) : bool :=
  match cs !! j with
  | Some c => es_ganador c
  | None => false
  end.

Definition posiciones_ganadoras (cs : list Carton) : list nat :=
  filter (fun j => gana_en cs j) (seq 0 (length cs)).

Definition deshacer_bolilla (s : EstadoJugada) : EstadoJugada * respuesta_deshacer :=
  match last (bolillas_cantadas s) with
  | None => (s, NadaQueDeshacer)
  | Some ultima_bolilla =>
      let cantadas := removelast (bolillas_cantadas s) in
      let disponibles := {[ ultima_bolilla ]} ∪ bolillas_disponibles s in
      let cs := (fun c => fst (desmarcar_numero c ultima_bolilla)) <$> cartones s in
      let gan := posiciones_ganadoras cs in
      let s' := {| cartones := cs; bolillas_cantadas := cantadas;
                   bolillas_disponibles := disponibles;
                   ganadores := gan;
                   jugada_terminada := bool_decide (0 < length gan)%nat |} in
      (s', Deshecha ultima_bolilla (length cantadas) (obtener_ranking s' 20)
             (bool_decide (0 < length gan)%nat) (cartones_ganadores cs gan))
  end.

Definition reiniciar (s : EstadoJugada) : EstadoJugada :=
  {| cartones := (fun c => con_aciertos c ∅) <$> cartones s;
     bolillas_cantadas := [];
     bolillas_disponibles := list_to_set (range 1 61);
     ganadores := [];
     jugada_terminada := false |}.

(** The states a game can be in: a loaded game, then any calls, undos and
    resets. *)
Inductive alcanzable : EstadoJugada -> Prop :=
| alcanzable_nuevo df s :
    nuevo_estado df = Ok s -> alcanzable s
| alcanzable_cantar s numero :
    alcanzable s -> alcanzable (fst (cantar_bolilla s numero))
| alcanzable_deshacer s :
    alcanzable s -> alcanzable (fst (deshacer_bolilla s))
| alcanzable_reiniciar s :
    alcanzable s -> alcanzable (reiniciar s).

(** What holds of every state of a game; see [alcanzable]. *)
Record invariante (s : EstadoJugada) : Prop := {
  inv_nodup : NoDup (bolillas_cantadas s);
  inv_disponibles :
    forall x, x ∈ bolillas_disponibles s <-> 1 <= x <= 60 /\ x ∉ bolillas_cantadas s;
  inv_rango : forall x, x ∈ bolillas_cantadas s -> 1 <= x <= 60;
  inv_aciertos :
    forall c, c ∈ cartones s ->
              aciertos c = numeros c ∩ list_to_set (bolillas_cantadas s);
  inv_terminada : jugada_terminada s = true <-> ganadores s ≠ [];
  inv_sin_ganador :
    ganadores s = [] -> forall c, c ∈ cartones s -> es_ganador c = false
}.

(** Marking a list of calls on one card, one after the other. *)
Definition marcar_varias (c : Carton) (llamadas : list Z) : Carton :=
  foldl (fun c n => (marcar_numero c n).1) c llamadas.

(** Playing a list of calls, one after the other. *)
Definition cantar_varias (s : EstadoJugada) (numeros : list Z) : EstadoJugada :=
  foldl (fun s n => (cantar_bolilla s n).1) s numeros.

Definition estado_o_vacio (r : resultado EstadoJugada) : EstadoJugada :=
  match r with
  | Ok s => s
  | Raise _ => {| cartones := []; bolillas_cantadas := []; bolillas_disponibles := ∅;
                  ganadores := []; jugada_terminada := false |}
  end.

(** A Corel row for ten numbers per card: sheets 1 and 2, cards
    1..10, 11..20, ..., 51..60. *)
Definition fila_ejemplo : list Z :=
  [1] ++ range 1 11 ++ range 11 21 ++ range 21 31 ++
  [2] ++ range 31 41 ++ range 41 51 ++ range 51 61.

Definition estado_ejemplo : EstadoJugada := estado_o_vacio (nuevo_estado [fila_ejemplo]).

(** A row whose slot A repeats the numbers 1, 2, 3. *)
Definition fila_repetida : list Z :=
  [1] ++ [1; 2; 3; 1; 2; 3; 1; 2; 3; 1] ++ range 11 21 ++ range 21 31 ++
  [2] ++ range 31 41 ++ range 41 51 ++ range 51 61.

Definition estado_repetido : EstadoJugada := estado_o_vacio (nuevo_estado [fila_repetida]).

(** A card with three numbers. *)
Definition carton_de_tres : Carton :=
  {| bingo_id := "0001"; carton_tipo := "A";
     numeros := {[ 1; 2; 3 ]}; aciertos := ∅ |}.

(** What identifies a card and what it holds, apart from its hits. *)
Definition ficha (c : Carton) : string * string * gset Z :=
  (bingo_id c, carton_tipo c, numeros c).

(** The sheet id and the slot of a card. *)
Definition clave (c : Carton) : string * string := (bingo_id c, carton_tipo c).

(** The states reached from the state [s0] by calls, undos and resets. *)
Inductive alcanzable_desde (s0 : EstadoJugada) : EstadoJugada -> Prop :=
| desde_inicio : alcanzable_desde s0 s0
| desde_cantar s numero :
    alcanzable_desde s0 s -> alcanzable_desde s0 (fst (cantar_bolilla s numero))
| desde_deshacer s :
    alcanzable_desde s0 s -> alcanzable_desde s0 (fst (deshacer_bolilla s))
| desde_reiniciar s :
    alcanzable_desde s0 s -> alcanzable_desde s0 (reiniciar s).

(** Whether the card at position [j] holds [numero] and is complete once it
    is marked. *)
Definition marca_y_gana (cs : list Carton) (numero : Z) (j : nat) : bool :=
  match cs !! j with
  | Some c => bool_decide (numero ∈ numeros c) && es_ganador (marcar_numero c numero).1
  | None => false
  end.

(** The ranking entry of a card. *)
Definition entrada_de (c : Carton) : entrada_ranking :=
  {| r_carton := id_completo c; r_bingo_id := bingo_id c;
     r_carton_tipo := carton_tipo c; r_aciertos := cantidad_aciertos c;
     r_es_ganador := es_ganador c |}.

(** [Carton.to_dict] *)
Record carton_dict : Type := {
  d_bingo_id : string;
  d_carton_tipo : string;
  d_id_completo : string;
  d_numeros : list Z;
  d_aciertos : list Z;
  d_cantidad_aciertos : nat;
  d_es_ganador : bool
}.

Definition to_dict (c : Carton) : carton_dict :=
  {| d_bingo_id := bingo_id c;
     d_carton_tipo := carton_tipo c;
     d_id_completo := id_completo c;
     d_numeros := sorted (elements (numeros c));
     d_aciertos := sorted (elements (aciertos c));
     d_cantidad_aciertos := cantidad_aciertos c;
     d_es_ganador := es_ganador c |}.

Definition obtener_carton_detalle (s : EstadoJugada) (bingo : string)
  : list carton_dict :=
  to_dict <$> filter (fun c => bingo_id c = bingo) (cartones s).

(** What [obtener_estado] returns, but for the name of the file. *)
Record estado_dict : Type := {
  e_total_cartones : nat;
  e_bolillas_cantadas : list Z;
  e_bolillas_disponibles : list Z;
  e_total_cantadas : nat;
  e_ranking_top20 : list entrada_ranking;
  e_jugada_terminada : bool;
  e_hay_ganador : bool;
  e_ganadores : list carton_dict
}.

Definition obtener_estado (s : EstadoJugada) : estado_dict :=
  {| e_total_cartones := length (cartones s);
     e_bolillas_cantadas := bolillas_cantadas s;
     e_bolillas_disponibles := sorted (elements (bolillas_disponibles s));
     e_total_cantadas := length (bolillas_cantadas s);
     e_ranking_top20 := obtener_ranking s 20;
     e_jugada_terminada := jugada_terminada s;
     e_hay_ganador := bool_decide (0 < length (ganadores s))%nat;
     e_ganadores := to_dict <$> cartones_ganadores (cartones s) (ganadores s) |}.

(** [iniciar_jugada] on the store [_jugadas_activas]; [df] is the table read
    from [archivo_corel] and [ahora] the time stamp used when no id is
    given. *)
Definition iniciar_jugada (jugadas : gmap string EstadoJugada) (df : list (list Z))
    (jugada_id : option string) (ahora : string)
  : resultado (gmap string EstadoJugada * (string * estado_dict)) :=
  let jugada_id := match jugada_id with None => ahora | Some j => j end in
  estado ← nuevo_estado df;
  let jugadas := <[ jugada_id := estado ]> jugadas in
  Ok (jugadas, (jugada_id, obtener_estado estado)).

Definition obtener_jugada (jugadas : gmap string EstadoJugada) (jugada_id : string)
  : option EstadoJugada :=
  jugadas !! jugada_id.

Definition eliminar_jugada (jugadas : gmap string EstadoJugada) (jugada_id : string)
  : gmap string EstadoJugada :=
  if decide (is_Some (jugadas !! jugada_id)) then delete jugada_id jugadas
  else jugadas.

(** The sheet ids of a table, as [_cargar_cartones] formats them: columns 0
    and 31 of each row. *)
Definition hojas (df : list (list Z)) : list string :=
  df ≫= (fun fila => (fun z => zfill (str z) 4) <$> omap (fun j => fila !! j) [0; 31]%nat).

(** The order of the ranking: [c] comes before [d]. *)
Definition mas_aciertos (c d : Carton) : Prop :=
  (cantidad_aciertos d <= cantidad_aciertos c)%nat.

(** The card of slot A of sheet 0001 with its ten numbers marked. *)
Definition carton_A_completo : Carton :=
  {| bingo_id := "0001"; carton_tipo := "A";
     numeros := list_to_set (range 1 11); aciertos := list_to_set (range 1 11) |}.

Definition estado_terminado : EstadoJugada := cantar_varias estado_ejemplo (range 1 11).

End BingoLive.

(** ** The loaders against the column layout of the specification *)

Module Carga.

(** The cells of the columns [desde .. hasta] of a row, both included. *)
Definition columnas (fila : list Z) (desde hasta : nat) : list Z :=
  omap (fun j => fila !! j) (seq desde (S hasta - desde)).

(** The six cards of a row as the specification words them, for [k] numbers
    per card: the sheet id cell, the slot and the numbers.  Slot A is columns
    [1 .. k], B the next [k], C the next [k], with the left sheet id in column
    0; the right sheet id is in column [3k + 1] and D, E, F follow it. *)
Definition lectura_spec (k : nat) (fila : list Z) : option (list (Z * string * gset Z)) :=
  id_izq ← fila !! 0%nat;
  id_der ← fila !! (3 * k + 1)%nat;
  Some [ (id_izq, "A"%string, list_to_set (columnas fila 1 k));
         (id_izq, "B"%string, list_to_set (columnas fila (k + 1) (2 * k)));
         (id_izq, "C"%string, list_to_set (columnas fila (2 * k + 1) (3 * k)));
         (id_der, "D"%string, list_to_set (columnas fila (3 * k + 2) (4 * k + 1)));
         (id_der, "E"%string, list_to_set (columnas fila (4 * k + 2) (5 * k + 1)));
         (id_der, "F"%string, list_to_set (columnas fila (5 * k + 2) (6 * k + 1))) ].

(** A table in the paired layout for [k] numbers per card. *)
Definition forma_corel (k : nat) (df : list (list Z)) : Prop :=
  Forall (fun fila => length fila = (2 + 6 * k)%nat) df.

Definition carton_simulador (t : Z * string * gset Z) : Simulador.carton :=
  {| Simulador.bingo_id := str t.1.1;
     Simulador.carton_tipo := t.1.2;
     Simulador.numeros := t.2 |}.

Definition carton_en_vivo (t : Z * string * gset Z) : BingoLive.Carton :=
  {| BingoLive.bingo_id := zfill (str t.1.1) 4;
     BingoLive.carton_tipo := t.1.2;
     BingoLive.numeros := t.2;
     BingoLive.aciertos := ∅ |}.

(** A row in the paired layout for five numbers per card: sheets 1 and 2,
    cards 1..5, 6..10, ..., 26..30. *)
Definition fila_de_cinco : list Z :=
  [1] ++ range 1 6 ++ range 6 11 ++ range 11 16 ++
  [2] ++ range 16 21 ++ range 21 26 ++ range 26 31.

(** Six cards of five numbers: card [i] holds [5i + 1 .. 5i + 5]. *)
Definition pool_de_cinco : list (list Z) :=
  (fun i : nat => range (5 * Z.of_nat i + 1) (5 * Z.of_nat i + 6)) <$> seq 0 6.

(** What [pd.read_csv] makes of a cell that [to_csv] wrote: a number is read
    back as it is, and a sheet id, written as digits, as the integer it
    spells.  Only full rows are written by [crear_dataframe_corel]. *)
Definition celda_leida (c : celda) (z : Z) : Prop :=
  match c with
  | Numero n => z = n
  | Texto s => 0 <= z /\ s = fmt04d z
  | Vacio => False
  end.

Global Instance celda_leida_dec c z : Decision (celda_leida c z).
Proof. destruct c; cbn [celda_leida]; apply _. Defined.

(** The table read from the file that holds [df]. *)
Definition tabla_leida (df : DataFrame) (tabla : list (list Z)) : Prop :=
  Forall2 (Forall2 celda_leida) (filas_df df) tabla.

Global Instance tabla_leida_dec df tabla : Decision (tabla_leida df tabla).
Proof. unfold tabla_leida. apply _. Defined.

(** The card that [_cargar_cartones] builds. *)
Definition carton_cargado (id : string) (tipo : string) (numeros : list Z)
  : BingoLive.Carton :=
  {| BingoLive.bingo_id := id; BingoLive.carton_tipo := tipo;
     BingoLive.numeros := list_to_set numeros; BingoLive.aciertos := ∅ |}.

(** The cards that the simulator loads from the example row. *)
Definition cartones_simulados : list Simulador.carton :=
  match Simulador.cargar_cartones_corel [BingoLive.fila_ejemplo] with
  | Ok cs => cs
  | Raise _ => []
  end.

(** Every game calls the balls in ascending order. *)
Definition ordenes_ejemplo (i : nat) : list Z := range 1 61.

(** The paired table of the example pool, and the table read back from its
    file. *)
Definition df_ejemplo : DataFrame :=
  match crear_dataframe_corel pool_ejemplo (config_ejemplo 6 10 60 3 2) with
  | Ok df => df
  | Raise _ => {| columns := []; filas_df := [] |}
  end.

Definition tabla_ejemplo : list (list Z) :=
  (fun r : nat =>
     [Z.of_nat r + 1] ++ concat (take 3 (drop (3 * r) pool_ejemplo)) ++
     [Z.of_nat r + 4] ++ concat (take 3 (drop (3 * (3 + r)) pool_ejemplo)))
    <$> seq 0 3.

Definition estado_generado : BingoLive.EstadoJugada :=
  BingoLive.estado_o_vacio (BingoLive.nuevo_estado tabla_ejemplo).

End Carga.

(** * Properties *)

#[local] Arguments range : simpl never.

(** ** Python primitives and lists *)

Section primitivas.

Lemma elem_of_range a b x : x ∈ range a b <-> a <= x < b.
Proof.
  unfold range. rewrite list_elem_of_fmap. split.
  - intros (i & -> & Hi). apply elem_of_seq in Hi. lia.
  - intros H. exists (Z.to_nat (x - a)). split; [lia|].
    apply elem_of_seq. lia.
Qed.

Lemma length_range a b : length (range a b) = Z.to_nat (b - a).
Proof. unfold range. by rewrite length_fmap, length_seq. Qed.

Lemma Ok_inj {A} (a b : A) : Ok a = Ok b -> a = b.
Proof. by intros [= ->]. Qed.

Lemma bind_Ok {A B} (m : resultado A) (f : A -> resultado B) b :
  m ≫= f = Ok b -> exists a, m = Ok a /\ f a = Ok b.
Proof. destruct m; [eauto|done]. Qed.

End primitivas.

Section listas.
Context {A B : Type}.

Lemma filter_fmap_comp (f : A -> B) (P : B -> Prop) `{!forall x, Decision (P x)}
    (l : list A) :
  filter P (f <$> l) = f <$> filter (P ∘ f) l.
Proof.
  induction l as [|x l IH]; [done|].
  rewrite fmap_cons, !filter_cons. simpl. rewrite IH.
  by destruct (decide (P (f x))).
Qed.

Lemma filter_ext_elem (P Q : A -> Prop) `{!forall x, Decision (P x)}
    `{!forall x, Decision (Q x)} (l : list A) :
  (forall x, x ∈ l -> P x <-> Q x) -> filter P l = filter Q l.
Proof.
  induction l as [|x l IH]; intros Hpq; [done|].
  rewrite !filter_cons.
  rewrite IH by (intros y Hy; apply Hpq; by right).
  destruct (decide (P x)) as [HP|HP], (decide (Q x)) as [HQ|HQ]; try done.
  - exfalso. apply HQ, Hpq; [left|done].
  - exfalso. apply HP, Hpq; [left|done].
Qed.

Lemma filter_nil_iff (P : A -> Prop) `{!forall x, Decision (P x)} (l : list A) :
  filter P l = [] <-> forall x, x ∈ l -> ~ P x.
Proof.
  split.
  - intros Hnil x Hx HP. by eapply filter_nil_not_elem_of.
  - induction l as [|x l IH]; intros Hno; [done|].
    rewrite filter_cons_False by (apply Hno; left).
    apply IH. intros y Hy. apply Hno. by right.
Qed.

Lemma list_to_set_take_subseteq `{Countable A} (n : nat) (l : list A) :
  list_to_set (C := gset A) (take n l) ⊆ list_to_set l.
Proof.
  intros x. rewrite !elem_of_list_to_set. apply subseteq_take.
Qed.
End listas.

(** ** The simulated game *)

Section Simulacion.
Import Simulador.

Lemma marcar_cartones_spec k b cs :
  forall g,
    marcar_cartones k b cs g =
    (marcada b <$> cs, g ++ (ganador_j <$> filter (completa_con k b) cs)).
Proof.
  induction cs as [|c cs IH]; intros g; simpl.
  - by rewrite app_nil_r.
  - unfold marcada at 1. destruct (decide (b ∈ j_numeros c)) as [Hin|Hin].
    + cbn [j_aciertos j_bingo_id j_carton_tipo].
      destruct (decide (Z.of_nat (size ({[b]} ∪ j_aciertos c)) = k)) as [Hk|Hk].
      * rewrite IH. rewrite filter_cons_True by done.
        by rewrite <- app_assoc.
      * rewrite IH. rewrite filter_cons_False by (intros [_ H]; done). done.
    + rewrite IH. rewrite filter_cons_False by (intros [H _]; done). done.
Qed.

Lemma marcada_tras b pre c : marcada b (tras pre c) = tras (pre ++ [b]) c.
Proof.
  unfold marcada, tras. cbn [j_numeros j_aciertos j_bingo_id j_carton_tipo].
  case_decide as Hin; f_equal; rewrite list_to_set_app_L; simpl; set_solver.
Qed.

Lemma completa_con_tras k b pre c :
  Z.of_nat (size (numeros c)) = k ->
  ~ numeros c ⊆ list_to_set pre ->
  completa_con k b (tras pre c) <-> numeros c ⊆ list_to_set (pre ++ [b]).
Proof.
  intros Hk Hno. unfold completa_con, tras. cbn [j_numeros j_aciertos].
  rewrite list_to_set_app_L. simpl. split.
  - intros [Hin Hsz].
    assert (E : {[b]} ∪ numeros c ∩ list_to_set pre = numeros c).
    { apply set_subseteq_size_eq; [set_solver|lia]. }
    set_solver.
  - intros Hsub.
    assert (Hin : b ∈ numeros c).
    { destruct (decide (b ∈ numeros c)); [done|]. exfalso. apply Hno. set_solver. }
    split; [done|].
    replace ({[b]} ∪ numeros c ∩ list_to_set pre) with (numeros c) by set_solver.
    done.
Qed.

Lemma jugar_spec k cartones :
  forall pend pre,
    (forall c, c ∈ cartones ->
               Z.of_nat (size (numeros c)) = k /\ ~ numeros c ⊆ list_to_set pre) ->
    let r := jugar k pend (tras pre <$> cartones) [] (length pre) in
    let t := r.1 in
    (length pre <= t <= length (pre ++ pend))%nat /\
    r.2 = ganador_de <$>
            filter (fun c => numeros c ⊆ list_to_set (take t (pre ++ pend))) cartones /\
    (forall c t', c ∈ cartones -> (t' < t)%nat ->
                  ~ numeros c ⊆ list_to_set (take t' (pre ++ pend))) /\
    (r.2 = [] -> t = length (pre ++ pend)).
Proof.
  induction pend as [|b pend IH]; intros pre Hcs; cbn zeta.
  - cbn [jugar fst snd]. rewrite app_nil_r, firstn_all. split_and!; [lia|lia| | |done].
    + rewrite (proj2 (filter_nil_iff _ cartones)); [done|].
      intros c Hc. by apply Hcs.
    + intros c t' Hc Ht' Hsub. apply (Hcs c Hc).
      etrans; [exact Hsub|]. apply list_to_set_take_subseteq.
  - cbn [jugar]. rewrite marcar_cartones_spec. cbn [app].
    assert (Hg : ganador_j <$> filter (completa_con k b) (tras pre <$> cartones)
                 = ganador_de <$>
                     filter (fun c => numeros c ⊆ list_to_set (pre ++ [b])) cartones).
    { rewrite filter_fmap_comp, <- list_fmap_compose.
      rewrite (filter_ext_elem (completa_con k b ∘ tras pre)
                 (fun c => numeros c ⊆ list_to_set (pre ++ [b]))).
      - done.
      - intros c Hc. simpl. apply completa_con_tras; by apply Hcs. }
    rewrite Hg.
    destruct (ganador_de <$> filter _ cartones) as [|g0 gs] eqn:Eg.
    + (* nobody wins with this ball *)
      apply fmap_nil_inv in Eg. rewrite filter_nil_iff in Eg.
      assert (Hcs' : forall c, c ∈ cartones ->
                 Z.of_nat (size (numeros c)) = k /\
                 ~ numeros c ⊆ list_to_set (pre ++ [b])).
      { intros c Hc. split; [by apply Hcs|by apply Eg]. }
      specialize (IH (pre ++ [b]) Hcs'). cbn zeta in IH.
      rewrite <- (list_fmap_ext (marcada b ∘ tras pre) (tras (pre ++ [b])) cartones)
        in IH by (intros; simpl; apply marcada_tras).
      rewrite list_fmap_compose in IH.
      rewrite length_app in IH. simpl in IH.
      replace (length pre + 1)%nat with (S (length pre)) in IH by lia.
      rewrite <- app_assoc in IH. simpl in IH.
      destruct IH as (H1 & H2 & H3 & H4). split_and!; [lia|lia|done..].
    + cbn [fst snd].
      assert (Ht : take (S (length pre)) (pre ++ b :: pend) = pre ++ [b]).
      { rewrite take_app_ge by lia.
        replace (S (length pre) - length pre)%nat with 1%nat by lia. done. }
      rewrite Ht, Eg. split_and!; [lia|rewrite length_app; simpl; lia|done| |done].
      intros c t' Hc Ht' Hsub. apply (Hcs c Hc).
      etrans; [exact Hsub|]. rewrite take_app_le by lia.
      apply list_to_set_take_subseteq.
Qed.

Lemma simular_jugada_jugar orden cartones k :
  let r := simular_jugada orden cartones k in
  (bolillas_hasta_ganador r, ganadores r)
    = jugar k orden (tras [] <$> cartones) [] 0 /\
  cantidad_ganadores r = length (ganadores r) /\
  orden_bolillas r = take (bolillas_hasta_ganador r) orden.
Proof.
  unfold simular_jugada.
  rewrite (list_fmap_ext _ (tras []) cartones).
  2:{ intros i c _. unfold tras. simpl. f_equal. set_solver. }
  by destruct (jugar k orden (tras [] <$> cartones) [] 0) as [n g].
Qed.


Lemma es_orden_de_elem M orden x : es_orden_de M orden -> x ∈ orden <-> 1 <= x <= M.
Proof. intros ->. rewrite elem_of_range. lia. Qed.

Lemma es_orden_de_length M orden : es_orden_de M orden -> length orden = Z.to_nat M.
Proof. intros ->. rewrite length_range. lia. Qed.

Lemma size_cubierto (X : gset Z) (l : list Z) (n : nat) :
  X ⊆ list_to_set (take n l) -> (size X <= n)%nat.
Proof.
  intros Hsub. apply subseteq_size in Hsub.
  etrans; [exact Hsub|].
  assert (Hle : forall l' : list Z, (size (list_to_set (C := gset Z) l') <= length l')%nat).
  { induction l' as [|x l' IH].
    - rewrite list_to_set_nil, size_empty. done.
    - rewrite list_to_set_cons, size_union_alt, size_singleton.
      assert (Hd : list_to_set (C := gset Z) l' ∖ {[x]} ⊆ list_to_set l')
        by set_solver.
      apply subseteq_size in Hd. cbn [length]. lia. }
  etrans; [apply Hle|]. rewrite length_take. lia.
Qed.

Lemma simular_jugada_spec M k cartones orden :
  0 < k ->
  es_orden_de M orden ->
  (forall c, c ∈ cartones -> Z.of_nat (size (numeros c)) = k) ->
  let r := simular_jugada orden cartones k in
  let t := bolillas_hasta_ganador r in
  (t <= length orden)%nat /\
  ganadores r = ganador_de <$>
                  filter (fun c => numeros c ⊆ list_to_set (take t orden)) cartones /\
  (forall c t', c ∈ cartones -> (t' < t)%nat ->
                ~ numeros c ⊆ list_to_set (take t' orden)) /\
  (ganadores r = [] -> t = length orden).
Proof.
  intros Hk Hord Hcs r t.
  destruct (simular_jugada_jugar orden cartones k) as (Hj & _ & _).
  fold r in Hj. fold t in Hj.
  pose proof (jugar_spec k cartones orden []) as Hspec.
  cbn zeta in Hspec. rewrite app_nil_l in Hspec. cbn [length] in Hspec.
  rewrite <- Hj in Hspec. cbn [fst snd] in Hspec.
  destruct Hspec as ([_ H1] & H2 & H3 & H4); [|done].
  intros c Hc. split; [by apply Hcs|].
  intros Hsub. simpl in Hsub.
  assert (numeros c = ∅) as He by set_solver.
  specialize (Hcs c Hc). rewrite He, size_empty in Hcs. lia.
Qed.



Lemma simular_jugada_ultima M k cartones orden :
  0 < k ->
  es_orden_de M orden ->
  (forall c, c ∈ cartones -> Z.of_nat (size (numeros c)) = k) ->
  let r := simular_jugada orden cartones k in
  ganadores r ≠ [] ->
  exists b, last (orden_bolillas r) = Some b /\
            forall c, c ∈ cartones ->
                      numeros c ⊆ list_to_set (orden_bolillas r) -> b ∈ numeros c.
Proof.
  intros Hk Hord Hcs r Hgan.
  destruct (simular_jugada_spec M k cartones orden Hk Hord Hcs)
    as (H1 & H2 & H3 & H4).
  fold r in H1, H2, H3, H4.
  destruct (simular_jugada_jugar orden cartones k) as (_ & _ & Hob).
  fold r in Hob. rewrite Hob.
  destruct (bolillas_hasta_ganador r) as [|t] eqn:Et.
  { exfalso. apply Hgan. rewrite H2. cbn [take].
    rewrite (proj2 (filter_nil_iff _ cartones)); [done|].
    intros c Hc Hsub. specialize (Hcs c Hc).
    assert (numeros c = ∅) as He by set_solver.
    rewrite He, size_empty in Hcs. lia. }
  destruct (lookup_lt_is_Some_2 orden t) as [b Hb]; [lia|].
  exists b. rewrite (take_S_r _ _ _ Hb). split; [apply last_snoc|].
  intros c Hc Hsub.
  destruct (decide (b ∈ numeros c)) as [|Hnb]; [done|]. exfalso.
  apply (H3 c t Hc); [lia|].
  intros x Hx. pose proof (Hsub x Hx) as Hx'.
  rewrite list_to_set_app_L in Hx'.
  apply elem_of_union in Hx' as [Hx'|Hx']; [done|].
  apply elem_of_list_to_set, list_elem_of_singleton in Hx'. by subst.
Qed.


(** Claim C10.  For a non-empty list of cards that each hold exactly
    [numeros_por_carton] (at least one) distinct numbers of 1..M, a simulated
    game over any order of the balls 1..M ends with at least one winner.  The
    winners are the cards of the list whose numbers are all among the balls
    recorded, the last of which, the winning one, is a number of each of
    them; no card was completed by fewer balls; and the number of balls
    recorded, the winning one included, lies between [numeros_por_carton] and
    M. *)
Theorem jugada_termina_con_ganador M k cartones orden :
  0 < k ->
  es_orden_de M orden ->
  cartones ≠ [] ->
  (forall c, c ∈ cartones ->
             Z.of_nat (size (numeros c)) = k /\
             forall x, x ∈ numeros c -> 1 <= x <= M) ->
  let r := simular_jugada orden cartones k in
  ganadores r ≠ [] /\
  (1 <= cantidad_ganadores r)%nat /\
  k <= Z.of_nat (bolillas_hasta_ganador r) <= M /\
  ganadores r = ganador_de <$>
                  filter (fun c => numeros c ⊆ list_to_set (orden_bolillas r)) cartones /\
  cantidad_ganadores r = length (ganadores r) /\
  orden_bolillas r = take (bolillas_hasta_ganador r) orden /\
  length (orden_bolillas r) = bolillas_hasta_ganador r /\
  (exists b, last (orden_bolillas r) = Some b /\
             forall c, c ∈ cartones ->
                       numeros c ⊆ list_to_set (orden_bolillas r) -> b ∈ numeros c) /\
  (forall c t', c ∈ cartones -> (t' < bolillas_hasta_ganador r)%nat ->
                ~ numeros c ⊆ list_to_set (take t' orden)).
Proof.
  intros Hk Hord Hne Hcs r.
  assert (Hcs1 : forall c, c ∈ cartones -> Z.of_nat (size (numeros c)) = k)
    by (intros c Hc; by apply Hcs).
  destruct (simular_jugada_spec M k cartones orden Hk Hord Hcs1)
    as (H1 & H2 & H3 & H4).
  fold r in H1, H2, H3, H4.
  destruct (simular_jugada_jugar orden cartones k) as (_ & Hcant & Hob).
  fold r in Hcant, Hob.
  assert (Hgan : ganadores r ≠ []).
  { intros Hnil. specialize (H4 Hnil). rewrite H2, H4, firstn_all in Hnil.
    apply fmap_nil_inv in Hnil. rewrite filter_nil_iff in Hnil.
    destruct cartones as [|c cs]; [done|].
    apply (Hnil c); [left|]. intros x Hx. rewrite elem_of_list_to_set.
    apply (es_orden_de_elem M orden x Hord). apply (Hcs c); [left|done]. }
  split_and!; [done| | | |by rewrite Hob|done|done| | |done].
  - rewrite Hcant. destruct (ganadores r); [done|simpl; lia].
  - destruct (filter (fun c => numeros c ⊆
                list_to_set (take (bolillas_hasta_ganador r) orden)) cartones)
      as [|c cs] eqn:Ef.
    { rewrite H2 in Hgan. done. }
    assert (Hc : c ∈ filter (fun c => numeros c ⊆
                list_to_set (take (bolillas_hasta_ganador r) orden)) cartones)
      by (rewrite Ef; left).
    apply list_elem_of_filter in Hc as [Hsub Hc].
    apply size_cubierto in Hsub. specialize (Hcs1 c Hc). lia.
  - rewrite (es_orden_de_length M orden Hord) in H1.
    destruct cartones as [|c cs]; [done|].
    destruct (Hcs c) as [Hsz Hr]; [left|].
    destruct (decide (0 <= M)); [lia|].
    destruct (size (numeros c)) eqn:E; [lia|].
    assert (Hex : exists x, x ∈ numeros c).
    { apply set_choose_L. intros He. rewrite He, size_empty in E. done. }
    destruct Hex as [x Hx]. specialize (Hr x Hx). lia.
  - rewrite Hob, length_take. lia.
  - by apply (simular_jugada_ultima M k cartones orden Hk Hord Hcs1).
Qed.

Lemma jugada_termina_con_ganador_witness :
  let orden := [1; 4; 2; 3; 5] in
  let r := simular_jugada orden [carton_de_tres] 3 in
  ganadores r ≠ [] /\
  (1 <= cantidad_ganadores r)%nat /\
  3 <= Z.of_nat (bolillas_hasta_ganador r) <= 5 /\
  ganadores r = ganador_de <$>
                  filter (fun c => numeros c ⊆ list_to_set (orden_bolillas r))
                    [carton_de_tres] /\
  cantidad_ganadores r = length (ganadores r) /\
  orden_bolillas r = take (bolillas_hasta_ganador r) orden /\
  length (orden_bolillas r) = bolillas_hasta_ganador r /\
  (exists b, last (orden_bolillas r) = Some b /\
             forall c, c ∈ [carton_de_tres] ->
                       numeros c ⊆ list_to_set (orden_bolillas r) -> b ∈ numeros c) /\
  (forall c t', c ∈ [carton_de_tres] -> (t' < bolillas_hasta_ganador r)%nat ->
                ~ numeros c ⊆ list_to_set (take t' orden)).
Proof.
  apply (jugada_termina_con_ganador 5 3 [carton_de_tres] [1; 4; 2; 3; 5]).
  - lia.
  - unfold es_orden_de. apply (bool_decide_unpack _). vm_compute. reflexivity.
  - discriminate.
  - intros c ->%list_elem_of_singleton. split; [vm_compute; reflexivity|].
    intros x Hx. cbn [numeros carton_de_tres] in Hx. set_unfold in Hx. lia.
Defined.

End Simulacion.

(** ** The live game *)

Section EnVivo.
Import BingoLive.

Ltac proyectar :=
  cbn [cartones bolillas_cantadas bolillas_disponibles ganadores jugada_terminada].

Lemma con_aciertos_id c : con_aciertos c (aciertos c) = c.
Proof. by destruct c. Qed.

Lemma con_aciertos_twice c a b : con_aciertos (con_aciertos c a) b = con_aciertos c b.
Proof. done. Qed.

Lemma marcar_numero_numeros c n : numeros (marcar_numero c n).1 = numeros c.
Proof. unfold marcar_numero. by case_decide. Qed.

Lemma marcar_numero_aciertos c n :
  aciertos (marcar_numero c n).1 = aciertos c ∪ (numeros c ∩ {[ n ]}).
Proof. unfold marcar_numero. case_decide; simpl; set_solver. Qed.

Lemma desmarcar_numero_numeros c n : numeros (desmarcar_numero c n).1 = numeros c.
Proof. unfold desmarcar_numero. by case_decide. Qed.

Lemma desmarcar_numero_aciertos c n :
  aciertos (desmarcar_numero c n).1 = aciertos c ∖ {[ n ]}.
Proof. unfold desmarcar_numero. case_decide; simpl; set_solver. Qed.

Lemma desmarcar_marcar c n :
  n ∉ aciertos c -> (desmarcar_numero (marcar_numero c n).1 n).1 = c.
Proof.
  intros Hn. unfold marcar_numero. case_decide; simpl.
  - unfold desmarcar_numero; simpl. rewrite decide_True by set_solver. simpl.
    rewrite con_aciertos_twice.
    replace (({[n]} ∪ aciertos c) ∖ {[n]}) with (aciertos c) by set_solver.
    apply con_aciertos_id.
  - unfold desmarcar_numero. by rewrite decide_False.
Qed.

(** The cards after the loop of [cantar_bolilla]. *)
Lemma cantar_bucle_lookup numero n :
  forall a cs gan nv j,
    (cantar_bucle numero (seq a n) cs gan nv).1.1 !! j =
    if decide (a <= j < a + n)%nat
    then (fun c => (marcar_numero c numero).1) <$> cs !! j
    else cs !! j.
Proof.
  induction n as [|n IH]; intros a cs gan nv j; simpl.
  - rewrite decide_False by lia. done.
  - destruct (cs !! a) as [c|] eqn:Hc.
    + unfold marcar_numero at 1. case_decide as Hin; simpl.
      * rewrite IH. destruct (decide (j = a)) as [->|Hne].
        -- rewrite decide_False by lia. rewrite decide_True by lia.
           rewrite list_lookup_insert_eq by (by eapply lookup_lt_Some).
           rewrite Hc. simpl. unfold marcar_numero. by rewrite decide_True.
        -- rewrite list_lookup_insert_ne by done.
           repeat case_decide; try done; lia.
      * rewrite IH. destruct (decide (j = a)) as [->|Hne].
        -- rewrite decide_False by lia. rewrite decide_True by lia.
           rewrite Hc. simpl. unfold marcar_numero. by rewrite decide_False.
        -- repeat case_decide; try done; lia.
    + rewrite IH. destruct (decide (j = a)) as [->|Hne].
      -- rewrite decide_False by lia. rewrite decide_True by lia. by rewrite Hc.
      -- repeat case_decide; try done; lia.
Qed.

Lemma cantar_bucle_cartones numero cs gan nv :
  (cantar_bucle numero (seq 0 (length cs)) cs gan nv).1.1 =
  (fun c => (marcar_numero c numero).1) <$> cs.
Proof.
  apply list_eq. intros j. rewrite cantar_bucle_lookup, list_lookup_fmap.
  case_decide as H; [done|].
  rewrite (lookup_ge_None_2 cs j) by lia. done.
Qed.

(** The winners after the loop: the old ones, then newly marked cards that
    are complete. *)
Lemma cantar_bucle_ganadores numero n :
  forall a cs gan nv,
    exists extra,
      (cantar_bucle numero (seq a n) cs gan nv).1.2 = gan ++ extra /\
      (forall j, j ∈ extra ->
         exists c, (a <= j < a + n)%nat /\ cs !! j = Some c /\ numero ∈ numeros c /\
                   es_ganador (marcar_numero c numero).1 = true) /\
      (gan ++ extra = [] ->
         forall j c, (a <= j < a + n)%nat -> cs !! j = Some c ->
                     numero ∈ numeros c ->
                     es_ganador (marcar_numero c numero).1 = false).
Proof.
  induction n as [|n IH]; intros a cs gan nv; simpl.
  - exists []. rewrite app_nil_r. split_and!; [done| |intros; lia].
    intros j Hj. by apply elem_of_nil in Hj.
  - destruct (cs !! a) as [c|] eqn:Hc.
    + unfold marcar_numero at 1. case_decide as Hin; simpl.
      * set (c' := con_aciertos c ({[numero]} ∪ aciertos c)).
        assert (Hc' : (marcar_numero c numero).1 = c').
        { unfold marcar_numero. by rewrite decide_True. }
        set (cs' := <[a:=c']> cs).
        assert (Hlook : forall j d, (a < j)%nat -> cs' !! j = Some d -> cs !! j = Some d).
        { intros j d Hj. unfold cs'. rewrite list_lookup_insert_ne by lia. done. }
        destruct (es_ganador c' && negb (en_ganadores cs' c' gan)) eqn:Hg.
        -- destruct (IH (S a) cs' (gan ++ [a])
                       (nv ++ [(id_completo c', cantidad_aciertos c')]))
             as (extra & Heq & Hnew & Hnone).
           exists (a :: extra). rewrite Heq. split_and!.
           ++ by rewrite <- app_assoc.
           ++ intros j [->|Hj]%elem_of_cons.
              ** exists c. rewrite Hc'. apply andb_true_iff in Hg as [Hg _].
                 split_and!; [lia..|done|done|done].
              ** destruct (Hnew j Hj) as (d & Hr & Hd & H1 & H2).
                 exists d. split_and!; [lia..| |done|done].
                 apply Hlook; [lia|done].
           ++ intros Hnil. by destruct gan.
        -- destruct (IH (S a) cs' gan
                       (nv ++ [(id_completo c', cantidad_aciertos c')]))
             as (extra & Heq & Hnew & Hnone).
           exists extra. rewrite Heq. split_and!; [done| |].
           ++ intros j Hj. destruct (Hnew j Hj) as (d & Hr & Hd & H1 & H2).
              exists d. split_and!; [lia..| |done|done].
              apply Hlook; [lia|done].
           ++ intros Hnil j d Hj Hd Hjn.
              destruct (decide (j = a)) as [->|Hne].
              --- rewrite Hc in Hd. injection Hd as <-. rewrite Hc'.
                  apply andb_false_iff in Hg as [Hg|Hg]; [done|].
                  apply negb_false_iff in Hg. unfold en_ganadores in Hg.
                  apply bool_decide_eq_true in Hg.
                  apply app_eq_nil in Hnil as [-> _].
                  by apply elem_of_nil in Hg.
              --- apply (Hnone Hnil j d); [lia| |done].
                  unfold cs'. by rewrite list_lookup_insert_ne.
      * destruct (IH (S a) cs gan nv) as (extra & Heq & Hnew & Hnone).
        exists extra. rewrite Heq. split_and!; [done| |].
        { intros j Hj. destruct (Hnew j Hj) as (d & Hr & Hd & H1 & H2).
          exists d. split_and!; [lia..|done|done|done]. }
        intros Hnil j d Hj Hd Hjn.
        destruct (decide (j = a)) as [->|Hne].
        -- congruence.
        -- apply (Hnone Hnil j d); [lia|done..].
    + destruct (IH (S a) cs gan nv) as (extra & Heq & Hnew & Hnone).
      exists extra. rewrite Heq. split_and!; [done| |].
      { intros j Hj. destruct (Hnew j Hj) as (d & Hr & Hd & H1 & H2).
        exists d. split_and!; [lia..|done|done|done]. }
      intros Hnil j d Hj Hd Hjn.
      destruct (decide (j = a)) as [->|Hne].
      -- congruence.
      -- apply (Hnone Hnil j d); [lia|done..].
Qed.

Lemma cartones_de_tipos_vacios fila id tipos :
  forall acc r,
    Forall (fun c => aciertos c = ∅) acc ->
    cartones_de_tipos fila id tipos acc = Ok r ->
    Forall (fun c => aciertos c = ∅) r.
Proof.
  induction tipos as [|t tipos IH]; intros acc r Hacc; simpl.
  - by intros [= <-].
  - intros (p & _ & H)%bind_Ok. destruct p as [inicio fin].
    eapply IH; [|exact H]. apply Forall_app. split; [done|].
    by apply Forall_singleton.
Qed.

Lemma cargar_bucle_vacios df :
  forall acc r,
    Forall (fun c => aciertos c = ∅) acc ->
    cargar_bucle df acc = Ok r ->
    Forall (fun c => aciertos c = ∅) r.
Proof.
  induction df as [|fila df IH]; intros acc r Hacc; cbn [cargar_bucle].
  - by intros [= <-].
  - intros (c0 & _ & (c31 & _ & (cs1 & H1 & (cs2 & H2 & H)%bind_Ok)%bind_Ok)%bind_Ok)%bind_Ok.
    eapply IH; [|exact H].
    eapply cartones_de_tipos_vacios; [|exact H2].
    eapply cartones_de_tipos_vacios; [|exact H1]. done.
Qed.

Lemma es_ganador_vacio c : aciertos c = ∅ -> es_ganador c = false.
Proof.
  intros H. unfold es_ganador, cantidad_aciertos. rewrite H, size_empty.
  apply bool_decide_eq_false. lia.
Qed.

Lemma invariante_nuevo df s : nuevo_estado df = Ok s -> invariante s.
Proof.
  unfold nuevo_estado. intros (cs & Hcs & <-%Ok_inj)%bind_Ok.
  assert (Hv : Forall (fun c => aciertos c = ∅) cs).
  { eapply cargar_bucle_vacios; [|exact Hcs]. constructor. }
  rewrite Forall_forall in Hv.
  split; proyectar.
  - constructor.
  - intros x. rewrite elem_of_list_to_set, elem_of_range, elem_of_nil. lia.
  - intros x Hx. by apply elem_of_nil in Hx.
  - intros c Hc. rewrite (Hv c Hc). set_solver.
  - split; done.
  - intros _ c Hc. apply es_ganador_vacio. auto.
Qed.

Lemma invariante_reiniciar s : invariante (reiniciar s).
Proof.
  unfold reiniciar. split; proyectar.
  - constructor.
  - intros x. rewrite elem_of_list_to_set, elem_of_range, elem_of_nil. lia.
  - intros x Hx. by apply elem_of_nil in Hx.
  - intros c (d & -> & _)%list_elem_of_fmap. simpl. set_solver.
  - split; done.
  - intros _ c (d & -> & _)%list_elem_of_fmap. by apply es_ganador_vacio.
Qed.

(** The state after a call that is accepted. *)
Lemma cantar_bolilla_aceptada s numero :
  jugada_terminada s = false ->
  numero ∈ bolillas_disponibles s ->
  exists gan nv,
    cantar_bucle numero (seq 0 (length (cartones s))) (cartones s) (ganadores s) []
      = ((fun c => (marcar_numero c numero).1) <$> cartones s, gan, nv) /\
    (cantar_bolilla s numero).1 =
      {| cartones := (fun c => (marcar_numero c numero).1) <$> cartones s;
         bolillas_cantadas := bolillas_cantadas s ++ [numero];
         bolillas_disponibles := bolillas_disponibles s ∖ {[ numero ]};
         ganadores := gan;
         jugada_terminada := match gan with [] => false | _ => true end |}.
Proof.
  intros Ht Hd. unfold cantar_bolilla. rewrite Ht.
  rewrite decide_False by (intros H; by apply H).
  pose proof (cantar_bucle_cartones numero (cartones s) (ganadores s) []) as Hcs.
  destruct (cantar_bucle _ _ _ _ _) as [[cs gan] nv]. simpl in Hcs. subst cs.
  exists gan, nv. done.
Qed.

Lemma invariante_cantar s numero :
  invariante s -> invariante (cantar_bolilla s numero).1.
Proof.
  intros Hinv. destruct (jugada_terminada s) eqn:Ht.
  { unfold cantar_bolilla. by rewrite Ht. }
  destruct (decide (numero ∈ bolillas_disponibles s)) as [Hd|Hd].
  2:{ unfold cantar_bolilla. rewrite Ht. by rewrite decide_True. }
  destruct (cantar_bolilla_aceptada s numero Ht Hd) as (gan & nv & Hb & ->).
  destruct Hinv as [Hnd Hdisp Hran Hac Hter Hsin].
  assert (Hg0 : ganadores s = []).
  { destruct (ganadores s) eqn:E; [done|]. 
    assert (jugada_terminada s = true) by (by apply Hter). congruence. }
  pose proof (proj1 (Hdisp numero) Hd) as [Hn1 Hn2].
  destruct (cantar_bucle_ganadores numero (length (cartones s)) 0 (cartones s)
              (ganadores s) []) as (extra & Heq & Hnew & Hnone).
  rewrite Hb in Heq. simpl in Heq. rewrite Hg0 in Heq, Hnone. simpl in Heq, Hnone.
  split; proyectar.
  - apply NoDup_app. split_and!; [done| |apply NoDup_singleton].
    intros x Hx ->%list_elem_of_singleton. done.
  - intros x. rewrite elem_of_difference, Hdisp, elem_of_app, list_elem_of_singleton.
    rewrite elem_of_singleton. tauto.
  - intros x [Hx| ->%list_elem_of_singleton]%elem_of_app; [by apply Hran|done].
  - intros c (d & -> & Hdin)%list_elem_of_fmap.
    rewrite marcar_numero_aciertos, marcar_numero_numeros, (Hac d Hdin).
    rewrite list_to_set_app_L. simpl. set_solver.
  - destruct gan; split; done.
  - intros -> c (d & -> & Hdin)%list_elem_of_fmap.
    destruct (decide (numero ∈ numeros d)) as [Hin|Hin].
    + apply list_elem_of_lookup in Hdin as [j Hj].
      eapply (Hnone (eq_sym Heq) j); [|done..].
      apply lookup_lt_Some in Hj. lia.
    + unfold marcar_numero. rewrite decide_False by done. simpl. by apply Hsin.
Qed.

Lemma elem_of_posiciones_ganadoras cs j :
  j ∈ posiciones_ganadoras cs <->
  exists c, cs !! j = Some c /\ es_ganador c = true.
Proof.
  unfold posiciones_ganadoras. rewrite list_elem_of_filter, elem_of_seq.
  unfold gana_en. split.
  - intros [Hg _]. destruct (cs !! j) as [c|]; [|done].
    exists c. split; [done|]. by apply Is_true_true.
  - intros (c & Hc & Hg). rewrite Hc. split; [by apply Is_true_true|].
    apply lookup_lt_Some in Hc. lia.
Qed.

Lemma posiciones_ganadoras_nil cs :
  posiciones_ganadoras cs = [] <-> forall c, c ∈ cs -> es_ganador c = false.
Proof.
  split.
  - intros Hnil c [j Hj]%list_elem_of_lookup.
    destruct (es_ganador c) eqn:Hg; [|done].
    assert (Hin : j ∈ posiciones_ganadoras cs)
      by (apply elem_of_posiciones_ganadoras; eauto).
    rewrite Hnil in Hin. by apply elem_of_nil in Hin.
  - intros Hall. destruct (posiciones_ganadoras cs) as [|j l] eqn:E; [done|].
    assert (Hin : j ∈ posiciones_ganadoras cs) by (rewrite E; left).
    apply elem_of_posiciones_ganadoras in Hin as (c & Hc & Hg).
    rewrite (Hall c) in Hg; [done|]. by eapply list_elem_of_lookup_2.
Qed.

(** The state after an undo that has a call to take back. *)
Lemma deshacer_bolilla_ultima s l u :
  bolillas_cantadas s = l ++ [u] ->
  (deshacer_bolilla s).1 =
    let cs := (fun c => (desmarcar_numero c u).1) <$> cartones s in
    {| cartones := cs;
       bolillas_cantadas := l;
       bolillas_disponibles := {[ u ]} ∪ bolillas_disponibles s;
       ganadores := posiciones_ganadoras cs;
       jugada_terminada := bool_decide (0 < length (posiciones_ganadoras cs))%nat |}.
Proof.
  intros Hl. unfold deshacer_bolilla. rewrite Hl, last_snoc.
  cbn [fst]. by rewrite removelast_last.
Qed.

Lemma deshacer_bolilla_vacia s :
  bolillas_cantadas s = [] -> deshacer_bolilla s = (s, NadaQueDeshacer).
Proof. intros Hl. unfold deshacer_bolilla. by rewrite Hl. Qed.

Lemma invariante_deshacer s :
  invariante s -> invariante (deshacer_bolilla s).1.
Proof.
  intros Hinv.
  destruct (bolillas_cantadas s) as [|x0 l0] eqn:Hl using rev_ind.
  { by rewrite deshacer_bolilla_vacia. }
  clear IHl0. rename x0 into u, l0 into l.
  rewrite (deshacer_bolilla_ultima s l u Hl). cbn zeta.
  destruct Hinv as [Hnd Hdisp Hran Hac Hter Hsin].
  rewrite Hl in Hnd, Hdisp, Hran, Hac.
  apply NoDup_app in Hnd as (Hnd & Hnu & _).
  assert (Hul : u ∉ l) by (intros H; apply (Hnu u H); left).
  assert (Hur : 1 <= u <= 60) by (apply Hran; set_solver).
  split; proyectar.
  - done.
  - intros x. rewrite elem_of_union, elem_of_singleton, Hdisp, elem_of_app.
    rewrite list_elem_of_singleton.
    destruct (decide (x = u)) as [->|Hne]; [tauto|]. tauto.
  - intros x Hx. apply Hran. set_solver.
  - intros c (d & -> & Hdin)%list_elem_of_fmap.
    rewrite desmarcar_numero_aciertos, desmarcar_numero_numeros, (Hac d Hdin).
    rewrite list_to_set_app_L. simpl. set_solver.
  - rewrite bool_decide_eq_true. destruct (posiciones_ganadoras _); simpl; split;
      try done; lia.
  - intros Hnil. by apply posiciones_ganadoras_nil.
Qed.

Lemma invariante_alcanzable s : alcanzable s -> invariante s.
Proof.
  induction 1 as [df s Hs|s numero _ IH|s _ IH|s _ IH].
  - by eapply invariante_nuevo.
  - by apply invariante_cantar.
  - by apply invariante_deshacer.
  - apply invariante_reiniciar.
Qed.

(** A call that is accepted and then undone leaves the game as it was. *)
Lemma deshacer_cantar s numero :
  invariante s ->
  jugada_terminada s = false ->
  numero ∈ bolillas_disponibles s ->
  (deshacer_bolilla (cantar_bolilla s numero).1).1 = s.
Proof.
  intros Hinv Ht Hd.
  destruct (cantar_bolilla_aceptada s numero Ht Hd) as (gan & nv & Hb & ->).
  erewrite deshacer_bolilla_ultima by reflexivity. cbn zeta. proyectar.
  destruct Hinv as [Hnd Hdisp Hran Hac Hter Hsin].
  assert (Hg0 : ganadores s = []).
  { destruct (ganadores s) eqn:E; [done|].
    assert (jugada_terminada s = true) by (by apply Hter). congruence. }
  pose proof (proj1 (Hdisp numero) Hd) as [Hn1 Hn2].
  assert (Hcs : (fun c => (desmarcar_numero c numero).1) <$>
                  ((fun c => (marcar_numero c numero).1) <$> cartones s) = cartones s).
  { rewrite <- list_fmap_compose. rewrite <- (list_fmap_id (cartones s)) at 2.
    apply list_fmap_ext. intros j c Hc. simpl. apply desmarcar_marcar.
    rewrite (Hac c) by (by eapply list_elem_of_lookup_2).
    rewrite elem_of_intersection, elem_of_list_to_set. tauto. }
  rewrite Hcs.
  assert (Hpg : posiciones_ganadoras (cartones s) = [])
    by (apply posiciones_ganadoras_nil; auto).
  rewrite Hpg. simpl.
  destruct s as [cs l D g t]; simpl in *. subst g t. f_equal.
  apply set_eq. intros x. rewrite elem_of_union, elem_of_difference, elem_of_singleton.
  destruct (decide (x = numero)) as [->|Hne]; tauto.
Qed.

Lemma alcanzable_cantar_varias s l : alcanzable s -> alcanzable (cantar_varias s l).
Proof.
  revert s. induction l as [|n l IH]; intros s Hs; [done|].
  apply IH. by apply alcanzable_cantar.
Qed.

Lemma alcanzable_estado_ejemplo : alcanzable estado_ejemplo.
Proof. apply (alcanzable_nuevo [fila_ejemplo]). vm_compute. reflexivity. Qed.

Lemma alcanzable_estado_repetido : alcanzable estado_repetido.
Proof. apply (alcanzable_nuevo [fila_repetida]). vm_compute. reflexivity. Qed.


(** Claim C9.  Every state reached from a loaded game by calls, undos and
    resets has a call history without repetitions, a history and a remaining
    pool that are disjoint and together make 1..60, cards whose hits are their
    numbers that were called, and a finished flag that is set exactly when
    there are winners. *)
Theorem estado_alcanzable_invariante s :
  alcanzable s ->
  NoDup (bolillas_cantadas s) /\
  list_to_set (bolillas_cantadas s) ## bolillas_disponibles s /\
  list_to_set (bolillas_cantadas s) ∪ bolillas_disponibles s
    = list_to_set (range 1 61) /\
  (forall c, c ∈ cartones s ->
             aciertos c = numeros c ∩ list_to_set (bolillas_cantadas s)) /\
  (jugada_terminada s = true <-> ganadores s ≠ []).
Proof.
  intros [Hnd Hdisp Hran Hac Hter Hsin]%invariante_alcanzable.
  split_and!; [done| | |done|done].
  - intros x Hx%elem_of_list_to_set Hd%Hdisp. tauto.
  - apply set_eq. intros x.
    rewrite elem_of_union, !elem_of_list_to_set, Hdisp, elem_of_range.
    split.
    + intros [H%Hran|H]; lia.
    + intros H. destruct (decide (x ∈ bolillas_cantadas s)); [by left|right].
      split; [lia|done].
Qed.

Lemma estado_alcanzable_invariante_witness :
  let s := cantar_varias estado_ejemplo [7; 61; 7; 23] in
  NoDup (bolillas_cantadas s) /\
  list_to_set (bolillas_cantadas s) ## bolillas_disponibles s /\
  list_to_set (bolillas_cantadas s) ∪ bolillas_disponibles s
    = list_to_set (range 1 61) /\
  (forall c, c ∈ cartones s ->
             aciertos c = numeros c ∩ list_to_set (bolillas_cantadas s)) /\
  (jugada_terminada s = true <-> ganadores s ≠ []).
Proof.
  apply estado_alcanzable_invariante.
  apply alcanzable_cantar_varias, alcanzable_estado_ejemplo.
Defined.

(** Claim C2, amended.  In a finished game [cantar_bolilla] answers that the
    game is over and leaves the state as it is.  In a game in progress it
    answers that the ball was already called exactly when the number is not in
    the remaining pool, that is when it was called before or lies outside
    1..60, and then the state is unchanged. *)
Theorem cantar_bolilla_rechazos s numero :
  alcanzable s ->
  (jugada_terminada s = true -> cantar_bolilla s numero = (s, JugadaYaTermino)) /\
  (jugada_terminada s = false ->
     ((cantar_bolilla s numero).2 = BolillaYaCantada numero <->
        numero ∈ bolillas_cantadas s \/ ~ (1 <= numero <= 60)) /\
     ((cantar_bolilla s numero).2 = BolillaYaCantada numero ->
        (cantar_bolilla s numero).1 = s)).
Proof.
  intros [Hnd Hdisp Hran Hac Hter Hsin]%invariante_alcanzable. split.
  - intros Ht. unfold cantar_bolilla. by rewrite Ht.
  - intros Ht. unfold cantar_bolilla. rewrite Ht.
    destruct (decide (numero ∉ bolillas_disponibles s)) as [Hd|Hd]; simpl.
    + split; [|done]. split; [intros _|done].
      rewrite Hdisp in Hd.
      destruct (decide (numero ∈ bolillas_cantadas s)); [by left|right]. tauto.
    + destruct (cantar_bucle _ _ _ _ _) as [[cs gan] nv]. simpl.
      split; [|done]. split; [done|].
      intros H. exfalso. apply Hd. rewrite Hdisp. intros [H1 H2].
      destruct H as [H|H]; tauto.
Qed.

Lemma cantar_bolilla_rechazos_witness :
  cantar_bolilla (cantar_varias estado_ejemplo [7]) 7
    = (cantar_varias estado_ejemplo [7], BolillaYaCantada 7).
Proof.
  pose proof (cantar_bolilla_rechazos (cantar_varias estado_ejemplo [7]) 7
                (alcanzable_cantar_varias _ [7] alcanzable_estado_ejemplo))
    as [_ H].
  destruct (H eq_refl) as [Hiff Hst].
  assert (Hr : (cantar_bolilla (cantar_varias estado_ejemplo [7]) 7).2
               = BolillaYaCantada 7).
  { apply Hiff. left. vm_compute. left. }
  specialize (Hst Hr).
  destruct (cantar_bolilla (cantar_varias estado_ejemplo [7]) 7) as [s' r].
  cbn [fst snd] in Hr, Hst. by subst.
Defined.

(** Claim C2 as stated fails: in a fresh game the number 61 gets the answer
    "already called" although nothing was called. *)
Lemma cantar_bolilla_fuera_de_rango :
  ~ (forall s numero,
       alcanzable s -> jugada_terminada s = false ->
       ((cantar_bolilla s numero).2 = BolillaYaCantada numero <->
          numero ∈ bolillas_cantadas s)).
Proof.
  intros H.
  destruct (H estado_ejemplo 61 alcanzable_estado_ejemplo eq_refl) as [H1 _].
  assert (Hin : 61 ∈ bolillas_cantadas estado_ejemplo).
  { apply H1. vm_compute. reflexivity. }
  vm_compute in Hin. by apply elem_of_nil in Hin.
Qed.

(** Claim C3.  When a call in a game in progress produces winners, undoing it
    clears the finished flag and the winners, gives every winning card one hit
    less, puts the number back into the remaining pool and takes it out of the
    history; the game is back in the state before the call. *)
Theorem deshacer_tras_ganador s numero :
  alcanzable s ->
  jugada_terminada s = false ->
  ganadores (cantar_bolilla s numero).1 ≠ [] ->
  let s1 := (cantar_bolilla s numero).1 in
  let s2 := (deshacer_bolilla s1).1 in
  jugada_terminada s1 = true /\
  jugada_terminada s2 = false /\
  ganadores s2 = [] /\
  (forall j, j ∈ ganadores s1 ->
     exists c1 c2,
       cartones s1 !! j = Some c1 /\ cartones s2 !! j = Some c2 /\
       es_ganador c1 = true /\
       cantidad_aciertos c1 = S (cantidad_aciertos c2)) /\
  numero ∈ bolillas_disponibles s2 /\
  (numero ∉ bolillas_disponibles s1) /\
  bolillas_cantadas s1 = bolillas_cantadas s2 ++ [numero] /\
  (numero ∉ bolillas_cantadas s2) /\
  s2 = s.
Proof.
  intros Hinv%invariante_alcanzable Ht Hgan s1 s2.
  pose proof Hinv as [Hnd Hdisp Hran Hac Hter Hsin].
  assert (Hg0 : ganadores s = []).
  { destruct (ganadores s) eqn:E; [done|].
    assert (jugada_terminada s = true) by (by apply Hter). congruence. }
  assert (Hd : numero ∈ bolillas_disponibles s).
  { destruct (decide (numero ∈ bolillas_disponibles s)) as [|Hd]; [done|].
    exfalso. apply Hgan. unfold cantar_bolilla. rewrite Ht.
    by rewrite decide_True. }
  assert (Hs2 : s2 = s) by (by apply deshacer_cantar).
  pose proof (proj1 (Hdisp numero) Hd) as [Hn1 Hn2].
  destruct (cantar_bolilla_aceptada s numero Ht Hd) as (gan & nv & Hb & Hs1).
  fold s1 in Hs1, Hgan.
  destruct (cantar_bucle_ganadores numero (length (cartones s)) 0 (cartones s)
              (ganadores s) []) as (extra & Heq & Hnew & _).
  rewrite Hb, Hg0 in Heq. cbn [fst snd app] in Heq. subst extra.
  rewrite Hs2. rewrite Hs1. proyectar. rewrite Hs1 in Hgan. proyectar.
  split_and!; try done.
  - by destruct gan.
  - intros j Hj. destruct (Hnew j Hj) as (c & _ & Hc & Hin & Hw).
    exists (marcar_numero c numero).1, c. split_and!; [|done..|].
    + by rewrite list_lookup_fmap, Hc.
    + unfold cantidad_aciertos, marcar_numero. rewrite decide_True by done.
      cbn [fst aciertos con_aciertos].
      assert (Hna : numero ∉ aciertos c).
      { rewrite (Hac c) by (by eapply list_elem_of_lookup_2).
        rewrite elem_of_intersection, elem_of_list_to_set. tauto. }
      rewrite size_union by set_solver. by rewrite size_singleton.
  - set_solver.
Qed.

Lemma deshacer_tras_ganador_witness :
  let s := cantar_varias estado_ejemplo (range 1 10) in
  (deshacer_bolilla (cantar_bolilla s 10).1).1 = s.
Proof.
  intros s.
  apply (deshacer_tras_ganador s 10).
  - apply alcanzable_cantar_varias, alcanzable_estado_ejemplo.
  - vm_compute. reflexivity.
  - vm_compute. discriminate.
Defined.

(** Claim C1 at a card of three numbers: [es_ganador] compares the number of
    hits with the constant 10, so a card whose numbers have all been called is
    not a winner, neither on its own nor in a game loaded from a table whose
    slot A repeats 1, 2, 3.  [simular_jugada] takes the threshold as an
    argument: with 3 the same card wins at the third ball, with the default
    10 it never does. *)
Theorem es_ganador_umbral_fijo :
  (let c := marcar_varias carton_de_tres [1; 2; 3] in
   aciertos c = numeros c /\ es_ganador c = false) /\
  (let s := cantar_varias estado_repetido [1; 2; 3] in
   (exists c, cartones s !! 0%nat = Some c /\
              numeros c = {[ 1; 2; 3 ]} /\ aciertos c = numeros c) /\
   ganadores s = [] /\ jugada_terminada s = false) /\
  (let r := Simulador.simular_jugada [1; 2; 3; 4; 5] [Simulador.carton_de_tres] 3 in
   Simulador.bolillas_hasta_ganador r = 3%nat /\
   Simulador.ganadores r = [Simulador.ganador_de Simulador.carton_de_tres]) /\
  (let r := Simulador.simular_jugada [1; 2; 3; 4; 5] [Simulador.carton_de_tres] 10 in
   Simulador.bolillas_hasta_ganador r = 5%nat /\ Simulador.ganadores r = []).
Proof.
  split_and!.
  - vm_compute. split; reflexivity.
  - split; [|split; vm_compute; reflexivity].
    eexists. split; [vm_compute; reflexivity|].
    split; vm_compute; reflexivity.
  - vm_compute. split; reflexivity.
  - vm_compute. split; reflexivity.
Qed.

End EnVivo.

(** ** Validation and generation *)

Section Validacion.

Lemma elem_of_append_if {A} (b : bool) (l : list A) (x y : A) :
  y ∈ append_if b l x <-> y ∈ l \/ (b /\ y = x).
Proof.
  unfold append_if. destruct b.
  - rewrite elem_of_app, list_elem_of_singleton. naive_solver.
  - naive_solver.
Qed.

Lemma append_if_nil {A} (b : bool) (l : list A) (x : A) :
  append_if b l x = [] <-> l = [] /\ b = false.
Proof.
  unfold append_if. destruct b.
  - split; [intros [_ H]%app_eq_nil; done|intros [_ H]; done].
  - naive_solver.
Qed.

(** Where neither [%] nor [math.comb] raises, the validator returns the list
    of exactly the violated constraints, in the order of the checks. *)
Lemma validar_configuracion_sin_excepcion config :
  bingos_por_fila config ≠ 0 ->
  0 <= numero_maximo config ->
  0 <= numeros_por_carton config ->
  let n := numero_de_bingos config in
  let k := numeros_por_carton config in
  let m := numero_maximo config in
  let necesarias := n * cartones_por_bingo config in
  let maximo := binomial (Z.to_nat m) (Z.to_nat k) in
  exists errores,
    validar_configuracion config = Ok (bool_decide (errores = []), errores) /\
    (ErrNumeroDeBingos ∈ errores <-> n <= 0) /\
    (ErrNumerosPorCarton ∈ errores <-> k <= 0) /\
    (ErrNumeroMaximo ∈ errores <-> m <= 0) /\
    (ErrCartonMayorQueMaximo k m ∈ errores <-> k > m) /\
    (ErrNoDivisible n (bingos_por_fila config) ∈ errores <->
       n `mod` bingos_por_fila config ≠ 0) /\
    (ErrImposible necesarias maximo ∈ errores <-> necesarias > maximo) /\
    (errores = [] <->
       0 < n /\ 0 < k /\ 0 < m /\ k <= m /\
       n `mod` bingos_por_fila config = 0 /\ necesarias <= maximo).
Proof.
  intros Hb Hm Hk n k m necesarias maximo.
  unfold validar_configuracion, mod_, comb.
  rewrite (decide_False (P := bingos_por_fila config = 0)) by done.
  rewrite (decide_False (P := numero_maximo config < 0 ∨ numeros_por_carton config < 0))
    by lia.
  cbn [mbind resultado_bind bind].
  fold n k m necesarias maximo.
  eexists. split.
  { f_equal. f_equal. apply bool_decide_ext. by rewrite length_zero_iff_nil. }
  rewrite !append_if_nil, !elem_of_append_if, !bool_decide_eq_false.
  setoid_rewrite bool_decide_spec. setoid_rewrite elem_of_nil.
  split_and!; try (split; [intros H; repeat destruct H as [H|H]; try done;
                             destruct H as [H1 H2]; try discriminate H2; done
                          |intros H; tauto]).
  split; [intros H|intros H; split_and!; try done; lia].
  destruct H as [[[[[[_ H1] H2] H3] H4] H5] H6].
  apply dec_stable in H5. lia.
Qed.

End Validacion.

(** Claim C6 at configurations with a violated constraint: a negative
    [numeros_por_carton] or [numero_maximo] makes [math.comb] raise, and a
    [bingos_por_fila] of zero makes [%] raise, so no list of errors is
    returned; a negative [cartones_por_bingo] is accepted. *)
Theorem validar_configuracion_excepciones :
  validar_configuracion (config_ejemplo 2 (-1) 60 3 2) = Raise ValueError /\
  validar_configuracion (config_ejemplo 2 10 (-5) 3 2) = Raise ValueError /\
  validar_configuracion (config_ejemplo 2 10 60 3 0) = Raise ZeroDivisionError /\
  validar_configuracion (config_ejemplo 2 2 6 (-3) 2) = Ok (true, []).
Proof. split_and!; vm_compute; reflexivity. Qed.

Section Generacion.

Lemma StronglySorted_le_lt (l : list Z) :
  StronglySorted Z.le l -> NoDup l -> StronglySorted Z.lt l.
Proof.
  induction 1 as [|x l Hs IH Hall]; intros Hnd; [constructor|].
  apply NoDup_cons in Hnd as [Hx Hnd]. constructor; [by apply IH|].
  rewrite Forall_forall in Hall |- *. intros y Hy.
  specialize (Hall y Hy). assert (x ≠ y) by (intros ->; done). lia.
Qed.

Lemma sorted_Permutation l : sorted l ≡ₚ l.
Proof. apply merge_sort_Permutation. Qed.

Lemma sorted_creciente l : NoDup l -> StronglySorted Z.lt (sorted l).
Proof.
  intros Hnd. apply StronglySorted_le_lt.
  - apply StronglySorted_merge_sort; apply _.
  - by rewrite sorted_Permutation.
Qed.

Lemma vistos_S muestras i :
  vistos muestras (S i) = {[ sorted (muestras i) ]} ∪ vistos muestras i.
Proof.
  unfold vistos. rewrite seq_S, !fmap_app, list_to_set_app_L. simpl. set_solver.
Qed.

Lemma elem_of_vistos muestras i t :
  t ∈ vistos muestras i <-> exists j, (j < i)%nat /\ t = sorted (muestras j).
Proof.
  unfold vistos. rewrite elem_of_list_to_set, list_elem_of_fmap. split.
  - intros (m & -> & (j & -> & Hj%elem_of_seq)%list_elem_of_fmap).
    exists j. split; [lia|done].
  - intros (j & Hj & ->). exists (muestras j). split; [done|].
    apply list_elem_of_fmap. exists j. split; [done|]. apply elem_of_seq. lia.
Qed.


Lemma size_vistos_S muestras i :
  (size (vistos muestras (S i)) <= S (size (vistos muestras i)))%nat.
Proof.
  rewrite vistos_S, size_union_alt, size_singleton.
  assert (H : vistos muestras i ∖ {[sorted (muestras i)]} ⊆ vistos muestras i)
    by set_solver.
  apply subseteq_size in H. lia.
Qed.













(** A source that always returns the same sample meets the contract of
    [random.sample], but with it the loop never gathers two different
    tuples. *)
Lemma generar_combinaciones_muestra_fija fuel :
  generar_combinaciones (config_ejemplo 2 2 4 3 2) (fun _ => [2; 1]) fuel = None.
Proof.
  unfold generar_combinaciones.
  cbn [numero_de_bingos cartones_por_bingo config_ejemplo].
  assert (H : forall fuel i,
             generar_bucle (config_ejemplo 2 2 4 3 2) (fun _ => [2; 1]) (2 * 3) fuel i
               {[ [1; 2] ]} = None).
  { clear fuel. induction fuel as [|fuel IH]; intros i; cbn [generar_bucle].
    - rewrite decide_True; [done|]. rewrite size_singleton. lia.
    - rewrite decide_True by (rewrite size_singleton; lia).
      unfold random_sample. rewrite decide_False by (vm_compute; intros [?|?]; done).
      change (sorted [2; 1]) with [1; 2].
      replace ({[ [1; 2] ]} ∪ {[ [1; 2] ]}) with ({[ [1; 2] ]} : gset (list Z))
        by (by rewrite (idemp_L (∪))).
      apply IH. }
  destruct fuel as [|fuel]; cbn [generar_bucle].
  - rewrite decide_True; [done|]. rewrite size_empty. lia.
  - rewrite decide_True by (rewrite size_empty; lia).
    unfold random_sample. rewrite decide_False by (vm_compute; intros [?|?]; done).
    change (sorted [2; 1]) with [1; 2]. rewrite (right_id_L ∅ (∪)).
    by rewrite H.
Qed.


End Generacion.

(** ** The paired layout *)

Section Corel.

Lemma index_lookup {A} (l : list A) (i : nat) (x : A) :
  l !! i = Some x -> index l (Z.of_nat i) = Ok x.
Proof.
  intros H. unfold index.
  destruct (decide (Z.of_nat i < 0)) as [Hneg|_]; [lia|].
  cbn zeta. destruct (decide (Z.of_nat i < 0)) as [Hneg|_]; [lia|].
  by rewrite Nat2Z.id, H.
Qed.

Lemma cartones_desde_tres pool inicio cs :
  cartones_desde pool inicio 3 = Some cs ->
  exists a b c,
    cs = [a; b; c] /\ pool !! inicio = Some a /\
    pool !! S inicio = Some b /\ pool !! S (S inicio) = Some c.
Proof.
  unfold cartones_desde. cbn [seq mapM].
  replace (inicio + 0)%nat with inicio by lia.
  replace (inicio + 1)%nat with (S inicio) by lia.
  replace (inicio + 2)%nat with (S (S inicio)) by lia.
  destruct (pool !! inicio) as [a|]; [|done].
  destruct (pool !! S inicio) as [b|]; [|done].
  destruct (pool !! S (S inicio)) as [c|]; [|done].
  intros [= <-]. by exists a, b, c.
Qed.

Lemma cartones_desde_tres_Some pool inicio :
  (inicio + 3 <= length pool)%nat -> is_Some (cartones_desde pool inicio 3).
Proof.
  intros Hlen. unfold cartones_desde. cbn [seq mapM].
  destruct (lookup_lt_is_Some_2 pool (inicio + 0)) as [a ->]; [lia|].
  destruct (lookup_lt_is_Some_2 pool (inicio + 1)) as [b ->]; [lia|].
  destruct (lookup_lt_is_Some_2 pool (inicio + 2)) as [c ->]; [lia|].
  by eexists.
Qed.

Lemma extender_tres pool inicio cs acc :
  cartones_desde pool inicio 3 = Some cs ->
  extender_cartones pool (Z.of_nat inicio) (range 0 3) acc
    = Ok (acc ++ (Numero <$> concat cs)).
Proof.
  intros (a & b & c & -> & Ha & Hb & Hc)%cartones_desde_tres.
  change (range 0 3) with [0; 1; 2]. cbn [extender_cartones].
  replace (Z.of_nat inicio + 0) with (Z.of_nat inicio) by lia.
  replace (Z.of_nat inicio + 1) with (Z.of_nat (S inicio)) by lia.
  replace (Z.of_nat inicio + 2) with (Z.of_nat (S (S inicio))) by lia.
  rewrite (index_lookup _ _ _ Ha). cbn [mbind resultado_bind bind].
  rewrite (index_lookup _ _ _ Hb). cbn [mbind resultado_bind bind].
  rewrite (index_lookup _ _ _ Hc). cbn [mbind resultado_bind bind].
  cbn [concat]. rewrite app_nil_r, !fmap_app, <- !app_assoc. done.
Qed.

Lemma corel_bucle_filas pool config filas :
  cartones_por_bingo config = 3 ->
  forall m a acc,
    (forall r, (a <= r < a + m)%nat ->
       is_Some (fila_emparejada pool (numero_de_bingos config) 3 filas r)) ->
    exists nuevas,
      mapM (fila_emparejada pool (numero_de_bingos config) 3 filas) (seq a m)
        = Some nuevas /\
      corel_bucle pool config (Z.of_nat filas)
        ((fun i : nat => 0 + Z.of_nat i) <$> seq a m) acc
        (Z.of_nat a + 1) (numero_de_bingos config `div` 2 + 1 + Z.of_nat a)
        = Ok (acc ++ nuevas).
Proof.
  intros Hcpb. induction m as [|m IH]; intros a acc Hfilas.
  - exists []. split; [done|]. cbn. by rewrite app_nil_r.
  - destruct (Hfilas a) as [fila Hfila]; [lia|].
    destruct (IH (S a) (acc ++ [fila])) as (nuevas & Hn & Hb).
    { intros r Hr. apply Hfilas. lia. }
    exists (fila :: nuevas). cbn [seq mapM]. rewrite Hfila, Hn. split; [done|].
    cbn [fmap list_fmap corel_bucle]. rewrite Hcpb.
    unfold fila_emparejada in Hfila.
    destruct (cartones_desde pool (a * 3) 3) as [izq|] eqn:Hizq; [|done].
    destruct (cartones_desde pool ((filas + a) * 3) 3) as [der|] eqn:Hder; [|done].
    cbn in Hfila. apply (inj Some) in Hfila.
    replace ((0 + Z.of_nat a) * 3) with (Z.of_nat (a * 3)) by lia.
    replace ((Z.of_nat filas + (0 + Z.of_nat a)) * 3)
      with (Z.of_nat ((filas + a) * 3)) by lia.
    rewrite (extender_tres _ _ _ _ Hizq). cbn [mbind resultado_bind bind].
    rewrite (extender_tres _ _ _ _ Hder). cbn [mbind resultado_bind bind].
    assert (Hrow :
      ((([] ++ [Texto (fmt04d (Z.of_nat a + 1))]) ++ (Numero <$> concat izq)) ++
       [Texto (fmt04d (numero_de_bingos config `div` 2 + 1 + Z.of_nat a))]) ++
      (Numero <$> concat der) = fila).
    { rewrite <- Hfila. cbn [app]. by rewrite <- app_assoc. }
    rewrite Hrow.
    replace (Z.of_nat a + 1 + 1) with (Z.of_nat (S a) + 1) by lia.
    replace (numero_de_bingos config `div` 2 + 1 + Z.of_nat a + 1)
      with (numero_de_bingos config `div` 2 + 1 + Z.of_nat (S a)) by lia.
    rewrite Hb. by rewrite <- app_assoc.
Qed.

Lemma max_list_constante (l : list nat) (c : nat) :
  l ≠ [] -> Forall (fun x => x = c) l -> max_list l = c.
Proof.
  intros Hne Hall. induction Hall as [|x l -> Hall IH]; [done|].
  cbn [max_list]. destruct l as [|y l]; [apply Nat.max_0_r|].
  rewrite IH by done. apply Nat.max_id.
Qed.

Lemma length_encabezados letra config :
  length (encabezados letra config) = Z.to_nat (numeros_por_carton config).
Proof. unfold encabezados. rewrite length_fmap, length_range. lia. Qed.

Lemma crear_DataFrame_ancho filas columnas :
  Forall (fun f => length f = length columnas) filas ->
  crear_DataFrame filas columnas = Ok {| columns := columnas; filas_df := filas |}.
Proof.
  intros Hall. unfold crear_DataFrame. destruct filas as [|f filas]; [done|].
  assert (Hmax : max_list (length <$> f :: filas) = length columnas).
  { apply max_list_constante; [done|]. by apply Forall_fmap. }
  rewrite Hmax, decide_True by done. do 2 f_equal.
  rewrite <- (list_fmap_id (f :: filas)) at 2.
  apply Forall_fmap_ext_1. eapply Forall_impl; [exact Hall|].
  intros g Hg. cbn beta. rewrite Hg, Nat.sub_diag. cbn. by rewrite app_nil_r.
Qed.

(** Claim C7, amended.  With at least two sheets per row, three cards per
    sheet and a pool of [numero_de_bingos * 3] cards of [numeros_por_carton]
    numbers, the paired table has [numero_de_bingos / bingos_por_fila] rows;
    row [r] holds the sheet id [r + 1] in four digits, the cards at the pool
    positions [3r .. 3r + 2], the sheet id [numero_de_bingos / 2 + 1 + r] and
    the cards at the positions [3 (filas + r) .. + 2].  With two sheets per
    row and an even number of sheets the two blocks make up the whole pool. *)
Theorem crear_dataframe_corel_emparejado pool config :
  2 <= bingos_por_fila config ->
  cartones_por_bingo config = 3 ->
  Z.of_nat (length pool) = numero_de_bingos config * cartones_por_bingo config ->
  Forall (fun c => Z.of_nat (length c) = numeros_por_carton config) pool ->
  let filas := Z.to_nat (numero_de_bingos config `div` bingos_por_fila config) in
  exists df,
    crear_dataframe_corel pool config = Ok df /\
    length (filas_df df) = filas /\
    (forall r, (r < filas)%nat ->
       exists a b c d e f,
         pool !! (r * 3)%nat = Some a /\
         pool !! (r * 3 + 1)%nat = Some b /\
         pool !! (r * 3 + 2)%nat = Some c /\
         pool !! ((filas + r) * 3)%nat = Some d /\
         pool !! ((filas + r) * 3 + 1)%nat = Some e /\
         pool !! ((filas + r) * 3 + 2)%nat = Some f /\
         filas_df df !! r =
           Some ([Texto (fmt04d (Z.of_nat r + 1))] ++
                 (Numero <$> a ++ b ++ c) ++
                 [Texto (fmt04d (numero_de_bingos config `div` 2 + 1 + Z.of_nat r))] ++
                 (Numero <$> d ++ e ++ f))) /\
    (bingos_por_fila config = 2 -> numero_de_bingos config `mod` 2 = 0 ->
       length pool = (2 * (filas * 3))%nat).
Proof.
  intros Hbpf Hcpb Hlen Hk filas.
  set (n := numero_de_bingos config) in *.
  assert (Hn : 0 <= n) by lia.
  assert (Hdiv : 0 <= n `div` bingos_por_fila config) by (apply Z.div_pos; lia).
  assert (Hdos : 2 * (n `div` bingos_por_fila config) <= n).
  { pose proof (Z.div_le_compat_l n 2 (bingos_por_fila config) Hn ltac:(lia)).
    pose proof (Z.mul_div_le n 2 ltac:(lia)). lia. }
  assert (Hcabe : (2 * (filas * 3) <= length pool)%nat) by lia.
  destruct (corel_bucle_filas pool config filas Hcpb filas 0%nat [])
    as (nuevas & Hmap & Hbucle).
  { intros r Hr. unfold fila_emparejada.
    destruct (cartones_desde_tres_Some pool (r * 3)) as [izq ->]; [lia|].
    destruct (cartones_desde_tres_Some pool ((filas + r) * 3)) as [der ->]; [lia|].
    by eexists. }
  fold n in Hmap, Hbucle.
  apply mapM_Some in Hmap.
  assert (Hfilas : forall r, (r < filas)%nat ->
    exists a b c d e f,
      pool !! (r * 3)%nat = Some a /\
      pool !! (r * 3 + 1)%nat = Some b /\
      pool !! (r * 3 + 2)%nat = Some c /\
      pool !! ((filas + r) * 3)%nat = Some d /\
      pool !! ((filas + r) * 3 + 1)%nat = Some e /\
      pool !! ((filas + r) * 3 + 2)%nat = Some f /\
      nuevas !! r =
        Some ([Texto (fmt04d (Z.of_nat r + 1))] ++
              (Numero <$> a ++ b ++ c) ++
              [Texto (fmt04d (n `div` 2 + 1 + Z.of_nat r))] ++
              (Numero <$> d ++ e ++ f))).
  { intros r Hr.
    destruct (Forall2_lookup_l _ _ _ r r Hmap) as (fila & Hfila & Hspec).
    { apply lookup_seq_lt. lia. }
    unfold fila_emparejada in Hspec.
    destruct (cartones_desde pool (r * 3) 3) as [izq|] eqn:Hizq; [|done].
    destruct (cartones_desde pool ((filas + r) * 3) 3) as [der|] eqn:Hder; [|done].
    apply cartones_desde_tres in Hizq as (a & b & c & -> & Ha & Hb & Hc).
    apply cartones_desde_tres in Hder as (d & e & f & -> & Hd & He & Hf).
    exists a, b, c, d, e, f.
    replace (r * 3 + 1)%nat with (S (r * 3)) by lia.
    replace (r * 3 + 2)%nat with (S (S (r * 3))) by lia.
    replace ((filas + r) * 3 + 1)%nat with (S ((filas + r) * 3)) by lia.
    replace ((filas + r) * 3 + 2)%nat with (S (S ((filas + r) * 3))) by lia.
    split_and!; try done.
    rewrite Hfila. cbn in Hspec. apply (inj Some) in Hspec. rewrite <- Hspec.
    cbn [concat app]. by rewrite !app_nil_r. }
  assert (Hlenf : length nuevas = filas).
  { apply Forall2_length in Hmap. by rewrite length_seq in Hmap. }
  exists {| columns :=
              ["CARTON 1"%string]
                ++ mjoin ((fun letra => encabezados letra config) <$> ["A"; "B"; "C"]%string)
                ++ ["CARTON 2"%string]
                ++ mjoin ((fun letra => encabezados letra config) <$> ["D"; "E"; "F"]%string);
            filas_df := nuevas |}.
  split_and!; [|done|done|].
  2:{ intros Hb2 Hmod. unfold filas. rewrite Hb2.
      pose proof (Z.div_mod n 2 ltac:(lia)). lia. }
  unfold crear_dataframe_corel, floordiv.
  rewrite decide_False by lia. cbn [mbind resultado_bind bind].
  fold n.
  replace (n `div` bingos_por_fila config) with (Z.of_nat filas) by lia.
  unfold range at 1. rewrite Z.sub_0_r, Nat2Z.id.
  change (Z.of_nat 0 + 1) with 1 in Hbucle.
  change (Z.of_nat 0) with 0 in Hbucle. rewrite Z.add_0_r in Hbucle.
  rewrite Hbucle. cbn [mbind resultado_bind bind app].
  apply crear_DataFrame_ancho.
  apply Forall_lookup. intros r fila Hfila.
  assert (Hr : (r < filas)%nat) by (rewrite <- Hlenf; by eapply lookup_lt_Some).
  destruct (Hfilas r Hr) as (a & b & c & d & e & f & Ha & Hb & Hc & Hd & He & Hf & Hrow).
  rewrite Hfila in Hrow. apply (inj Some) in Hrow. subst fila.
  rewrite Forall_forall in Hk.
  pose proof (Hk a (list_elem_of_lookup_2 _ _ _ Ha)).
  pose proof (Hk b (list_elem_of_lookup_2 _ _ _ Hb)).
  pose proof (Hk c (list_elem_of_lookup_2 _ _ _ Hc)).
  pose proof (Hk d (list_elem_of_lookup_2 _ _ _ Hd)).
  pose proof (Hk e (list_elem_of_lookup_2 _ _ _ He)).
  pose proof (Hk f (list_elem_of_lookup_2 _ _ _ Hf)).
  cbn [fmap list_fmap mjoin list_join].
  repeat rewrite ?length_app, ?length_cons, ?length_nil, ?length_fmap, ?length_encabezados.
  cbn [length]. lia.
Qed.

Lemma crear_dataframe_corel_emparejado_witness :
  exists df,
    crear_dataframe_corel pool_ejemplo (config_ejemplo 6 10 60 3 2) = Ok df /\
    length (filas_df df) = 3%nat.
Proof.
  destruct (crear_dataframe_corel_emparejado pool_ejemplo (config_ejemplo 6 10 60 3 2))
    as (df & Hdf & Hfilas & _).
  - cbn [bingos_por_fila config_ejemplo]. lia.
  - reflexivity.
  - vm_compute. reflexivity.
  - unfold pool_ejemplo. cbn [seq fmap list_fmap].
    repeat constructor.
  - exists df. split; [exact Hdf|exact Hfilas].
Defined.

Example crear_dataframe_corel_hojas :
  match crear_dataframe_corel pool_ejemplo (config_ejemplo 6 10 60 3 2) with
  | Ok df => (fun fila => (fila !! 0%nat, fila !! 31%nat)) <$> filas_df df
  | Raise _ => []
  end
  = [(Some (Texto "0001"), Some (Texto "0004"));
     (Some (Texto "0002"), Some (Texto "0005"));
     (Some (Texto "0003"), Some (Texto "0006"))].
Proof. vm_compute. reflexivity. Qed.

(** Claim C7 as stated fails: with one sheet per row the right-hand cards
    are looked up beyond the end of the pool, and with two cards per sheet the
    rows are narrower than the column names of the six slots. *)
Lemma crear_dataframe_corel_una_hoja_por_fila :
  (let config := config_ejemplo 2 10 60 3 1 in
   let pool := take 6 pool_ejemplo in
   Z.of_nat (length pool) = numero_de_bingos config * cartones_por_bingo config /\
   crear_dataframe_corel pool config = Raise IndexError) /\
  (let config := config_ejemplo 2 10 60 2 2 in
   let pool := take 4 pool_ejemplo in
   Z.of_nat (length pool) = numero_de_bingos config * cartones_por_bingo config /\
   crear_dataframe_corel pool config = Raise ValueError).
Proof. split; split; vm_compute; reflexivity. Qed.

End Corel.

(** ** Loading a paired layout *)

Section CargaCorel.
Import Carga.

Lemma iloc_slice_columnas (fila : list Z) (a b : nat) :
  (a < b)%nat -> (b <= length fila)%nat ->
  iloc_slice fila a b = columnas fila a (b - 1).
Proof.
  intros Hab Hb. unfold iloc_slice, columnas.
  replace (S (b - 1) - a)%nat with (b - a)%nat by lia.
  assert (H : forall n a, (a + n <= length fila)%nat ->
                take n (drop a fila) = omap (fun j => fila !! j) (seq a n)).
  { clear. induction n as [|n IH]; intros a Ha; [by rewrite take_0|].
    destruct (lookup_lt_is_Some_2 fila a) as [x Hx]; [lia|].
    rewrite (drop_S _ _ _ Hx). cbn [take seq omap list_omap]. rewrite Hx.
    f_equal. apply IH. lia. }
  apply H. lia.
Qed.

Lemma lectura_spec_diez fila :
  length fila = 62%nat ->
  exists id_izq id_der,
    fila !! 0%nat = Some id_izq /\ fila !! 31%nat = Some id_der /\
    lectura_spec 10 fila =
      Some [ (id_izq, "A"%string, list_to_set (iloc_slice fila 1 11));
             (id_izq, "B"%string, list_to_set (iloc_slice fila 11 21));
             (id_izq, "C"%string, list_to_set (iloc_slice fila 21 31));
             (id_der, "D"%string, list_to_set (iloc_slice fila 32 42));
             (id_der, "E"%string, list_to_set (iloc_slice fila 42 52));
             (id_der, "F"%string, list_to_set (iloc_slice fila 52 62)) ].
Proof.
  intros Hlen.
  destruct (lookup_lt_is_Some_2 fila 0) as [id_izq H0]; [lia|].
  destruct (lookup_lt_is_Some_2 fila 31) as [id_der H31]; [lia|].
  exists id_izq, id_der. split_and!; [done..|].
  unfold lectura_spec. change (3 * 10 + 1)%nat with 31%nat. rewrite H0, H31.
  cbn [mbind option_bind].
  rewrite !iloc_slice_columnas by lia. done.
Qed.

Lemma simulador_tipos_ABC fila id acc :
  Simulador.cartones_de_tipos fila id ["A"; "B"; "C"]%string acc =
  Ok (acc ++ [ {| Simulador.bingo_id := id; Simulador.carton_tipo := "A";
                  Simulador.numeros := list_to_set (iloc_slice fila 1 11) |};
               {| Simulador.bingo_id := id; Simulador.carton_tipo := "B";
                  Simulador.numeros := list_to_set (iloc_slice fila 11 21) |};
               {| Simulador.bingo_id := id; Simulador.carton_tipo := "C";
                  Simulador.numeros := list_to_set (iloc_slice fila 21 31) |} ]).
Proof.
  cbn [Simulador.cartones_de_tipos].
  change (Simulador.tipos_carton_get "A") with (Ok (1%nat, 11%nat)).
  change (Simulador.tipos_carton_get "B") with (Ok (11%nat, 21%nat)).
  change (Simulador.tipos_carton_get "C") with (Ok (21%nat, 31%nat)).
  cbn [mbind resultado_bind bind]. by rewrite <- !app_assoc.
Qed.

Lemma simulador_tipos_DEF fila id acc :
  Simulador.cartones_de_tipos fila id ["D"; "E"; "F"]%string acc =
  Ok (acc ++ [ {| Simulador.bingo_id := id; Simulador.carton_tipo := "D";
                  Simulador.numeros := list_to_set (iloc_slice fila 32 42) |};
               {| Simulador.bingo_id := id; Simulador.carton_tipo := "E";
                  Simulador.numeros := list_to_set (iloc_slice fila 42 52) |};
               {| Simulador.bingo_id := id; Simulador.carton_tipo := "F";
                  Simulador.numeros := list_to_set (iloc_slice fila 52 62) |} ]).
Proof.
  cbn [Simulador.cartones_de_tipos].
  change (Simulador.tipos_carton_get "D") with (Ok (32%nat, 42%nat)).
  change (Simulador.tipos_carton_get "E") with (Ok (42%nat, 52%nat)).
  change (Simulador.tipos_carton_get "F") with (Ok (52%nat, 62%nat)).
  cbn [mbind resultado_bind bind]. by rewrite <- !app_assoc.
Qed.

Lemma vivo_tipos_ABC fila id acc :
  BingoLive.cartones_de_tipos fila id ["A"; "B"; "C"]%string acc =
  Ok (acc ++ [ {| BingoLive.bingo_id := id; BingoLive.carton_tipo := "A";
                  BingoLive.numeros := list_to_set (iloc_slice fila 1 11);
                  BingoLive.aciertos := ∅ |};
               {| BingoLive.bingo_id := id; BingoLive.carton_tipo := "B";
                  BingoLive.numeros := list_to_set (iloc_slice fila 11 21);
                  BingoLive.aciertos := ∅ |};
               {| BingoLive.bingo_id := id; BingoLive.carton_tipo := "C";
                  BingoLive.numeros := list_to_set (iloc_slice fila 21 31);
                  BingoLive.aciertos := ∅ |} ]).
Proof.
  cbn [BingoLive.cartones_de_tipos].
  change (BingoLive.tipos_carton_get "A") with (Ok (1%nat, 11%nat)).
  change (BingoLive.tipos_carton_get "B") with (Ok (11%nat, 21%nat)).
  change (BingoLive.tipos_carton_get "C") with (Ok (21%nat, 31%nat)).
  cbn [mbind resultado_bind bind]. by rewrite <- !app_assoc.
Qed.

Lemma vivo_tipos_DEF fila id acc :
  BingoLive.cartones_de_tipos fila id ["D"; "E"; "F"]%string acc =
  Ok (acc ++ [ {| BingoLive.bingo_id := id; BingoLive.carton_tipo := "D";
                  BingoLive.numeros := list_to_set (iloc_slice fila 32 42);
                  BingoLive.aciertos := ∅ |};
               {| BingoLive.bingo_id := id; BingoLive.carton_tipo := "E";
                  BingoLive.numeros := list_to_set (iloc_slice fila 42 52);
                  BingoLive.aciertos := ∅ |};
               {| BingoLive.bingo_id := id; BingoLive.carton_tipo := "F";
                  BingoLive.numeros := list_to_set (iloc_slice fila 52 62);
                  BingoLive.aciertos := ∅ |} ]).
Proof.
  cbn [BingoLive.cartones_de_tipos].
  change (BingoLive.tipos_carton_get "D") with (Ok (32%nat, 42%nat)).
  change (BingoLive.tipos_carton_get "E") with (Ok (42%nat, 52%nat)).
  change (BingoLive.tipos_carton_get "F") with (Ok (52%nat, 62%nat)).
  cbn [mbind resultado_bind bind]. by rewrite <- !app_assoc.
Qed.

Lemma cargar_bucle_diez df :
  forma_corel 10 df ->
  exists tarjetas,
    mapM (lectura_spec 10) df = Some tarjetas /\
    length (concat tarjetas) = (6 * length df)%nat /\
    (forall acc, Simulador.cargar_bucle df acc
                 = Ok (acc ++ (carton_simulador <$> concat tarjetas))) /\
    (forall acc, BingoLive.cargar_bucle df acc
                 = Ok (acc ++ (carton_en_vivo <$> concat tarjetas))).
Proof.
  induction 1 as [|fila df Hfila _ IH].
  - exists []. split_and!; [done..| |]; intros acc; cbn; by rewrite app_nil_r.
  - destruct IH as (tarjetas & Hmap & Hlen & Hsim & Hvivo).
    destruct (lectura_spec_diez fila Hfila) as (id_izq & id_der & H0 & H31 & Hspec).
    eexists (_ :: tarjetas). split_and!.
    + cbn [mapM]. rewrite Hspec, Hmap. reflexivity.
    + cbn [concat]. rewrite length_app, Hlen. cbn [length]. lia.
    + intros acc. cbn [Simulador.cargar_bucle]. unfold iloc. rewrite H0, H31.
      cbn [mbind resultado_bind bind].
      rewrite simulador_tipos_ABC. cbn [mbind resultado_bind bind].
      rewrite simulador_tipos_DEF. cbn [mbind resultado_bind bind].
      rewrite Hsim. cbn [concat]. rewrite fmap_app, <- !app_assoc. done.
    + intros acc. cbn [BingoLive.cargar_bucle]. unfold iloc. rewrite H0, H31.
      cbn [mbind resultado_bind bind].
      rewrite vivo_tipos_ABC. cbn [mbind resultado_bind bind].
      rewrite vivo_tipos_DEF. cbn [mbind resultado_bind bind].
      rewrite Hvivo. cbn [concat]. rewrite fmap_app, <- !app_assoc. done.
Qed.

(** For a table in the paired layout with ten numbers per
    card, both loaders return six cards per row: slots A, B, C from the
    columns 1-10, 11-20, 21-30 with the sheet id of column 0, and D, E, F from
    the columns 32-41, 42-51, 52-61 with the sheet id of column 31. *)
Theorem cargar_cartones_diez_por_carton df :
  forma_corel 10 df ->
  exists tarjetas,
    mapM (lectura_spec 10) df = Some tarjetas /\
    length (concat tarjetas) = (6 * length df)%nat /\
    Simulador.cargar_cartones_corel df = Ok (carton_simulador <$> concat tarjetas) /\
    BingoLive.cargar_cartones df = Ok (carton_en_vivo <$> concat tarjetas).
Proof.
  intros (tarjetas & Hmap & Hlen & Hsim & Hvivo)%cargar_bucle_diez.
  exists tarjetas. split_and!; [done..| |].
  - apply (Hsim []).
  - apply (Hvivo []).
Qed.

Lemma cargar_cartones_diez_por_carton_witness :
  exists tarjetas,
    mapM (lectura_spec 10) [BingoLive.fila_ejemplo] = Some tarjetas /\
    length (concat tarjetas) = 6%nat /\
    Simulador.cargar_cartones_corel [BingoLive.fila_ejemplo]
      = Ok (carton_simulador <$> concat tarjetas) /\
    BingoLive.cargar_cartones [BingoLive.fila_ejemplo]
      = Ok (carton_en_vivo <$> concat tarjetas).
Proof.
  apply (cargar_cartones_diez_por_carton [BingoLive.fila_ejemplo]).
  repeat constructor.
Defined.

(** The column ranges are fixed, so a table in the paired layout with five
    numbers per card is not read by its own columns. *)
Lemma cargar_cartones_cinco_por_carton :
  forma_corel 5 [fila_de_cinco] /\
  exists tarjetas,
    mapM (lectura_spec 5) [fila_de_cinco] = Some tarjetas /\
    Simulador.cargar_cartones_corel [fila_de_cinco]
      ≠ Ok (carton_simulador <$> concat tarjetas) /\
    BingoLive.cargar_cartones [fila_de_cinco]
      ≠ Ok (carton_en_vivo <$> concat tarjetas).
Proof.
  split; [repeat constructor|].
  eexists. split; [vm_compute; reflexivity|].
  split; intros H.
  - apply (f_equal (fun r => match r with
                             | Ok (c :: _) => bool_decide (6 ∈ Simulador.numeros c)
                             | _ => false
                             end)) in H.
    vm_compute in H. discriminate.
  - apply (f_equal (fun r => match r with
                             | Ok (c :: _) => bool_decide (6 ∈ BingoLive.numeros c)
                             | _ => false
                             end)) in H.
    vm_compute in H. discriminate.
Qed.

(** Claim C4 at the table the generator writes for five numbers per card.  The
    validator accepts two sheets of three cards of five numbers of 1..60, and
    [crear_dataframe_corel] writes them as one row of 32 cells: the sheet id
    1, the cards 1..5, 6..10, 11..15, the sheet id 2, the cards 16..20,
    21..25, 26..30.  Read by its own columns the row gives these six cards.
    Both loaders read it with the columns of ten numbers per card: slot A gets
    the cells 1 to 10, slot B the cells 11 to 20 with the right sheet id among
    them, slot C the cells 21 to 30, the right sheet id is taken from the last
    number, 30, and the slots D, E and F are empty. *)
Theorem cargar_cartones_rangos_de_diez :
  let config := config_ejemplo 2 5 60 3 2 in
  validar_configuracion config = Ok (true, []) /\
  (exists df, crear_dataframe_corel pool_de_cinco config = Ok df /\
              tabla_leida df [fila_de_cinco]) /\
  forma_corel 5 [fila_de_cinco] /\
  mapM (lectura_spec 5) [fila_de_cinco]
    = Some [[ (1, "A"%string, list_to_set (range 1 6));
              (1, "B"%string, list_to_set (range 6 11));
              (1, "C"%string, list_to_set (range 11 16));
              (2, "D"%string, list_to_set (range 16 21));
              (2, "E"%string, list_to_set (range 21 26));
              (2, "F"%string, list_to_set (range 26 31)) ]] /\
  Simulador.cargar_cartones_corel [fila_de_cinco]
    = Ok (carton_simulador <$>
            [ (1, "A"%string, list_to_set (range 1 11));
              (1, "B"%string, list_to_set (range 11 16 ++ [2] ++ range 16 20));
              (1, "C"%string, list_to_set (range 20 30));
              (30, "D"%string, ∅); (30, "E"%string, ∅); (30, "F"%string, ∅) ]) /\
  BingoLive.cargar_cartones [fila_de_cinco]
    = Ok (carton_en_vivo <$>
            [ (1, "A"%string, list_to_set (range 1 11));
              (1, "B"%string, list_to_set (range 11 16 ++ [2] ++ range 16 20));
              (1, "C"%string, list_to_set (range 20 30));
              (30, "D"%string, ∅); (30, "E"%string, ∅); (30, "F"%string, ∅) ]).
Proof.
  cbv zeta. split_and!.
  - vm_compute. reflexivity.
  - eexists. split; [vm_compute; reflexivity|].
    apply (bool_decide_unpack _). vm_compute. reflexivity.
  - repeat constructor.
  - vm_compute. reflexivity.
  - vm_compute. reflexivity.
  - vm_compute. reflexivity.
Qed.

End CargaCorel.

(** ** Further properties *)

(** ** Loading any table *)

Section CargaGeneral.
Import Carga.

Lemma take_drop_omap {A} (l : list A) :
  forall n a, take n (drop a l) = omap (fun j => l !! j) (seq a n).
Proof.
  induction n as [|n IH]; intros a; [by rewrite take_0|].
  cbn [seq omap list_omap]. destruct (l !! a) as [x|] eqn:Hx.
  - rewrite (drop_S _ _ _ Hx). cbn [take]. f_equal. apply IH.
  - apply lookup_ge_None in Hx. rewrite <- (IH (S a)).
    rewrite !drop_ge by lia. by rewrite !take_nil.
Qed.

Lemma iloc_slice_columnas_siempre (fila : list Z) (a b : nat) :
  (a < b)%nat -> iloc_slice fila a b = columnas fila a (b - 1).
Proof.
  intros Hab. unfold iloc_slice, columnas.
  replace (S (b - 1) - a)%nat with (b - a)%nat by lia.
  apply take_drop_omap.
Qed.

Lemma lectura_spec_None fila :
  lectura_spec 10 fila = None <-> (length fila < 32)%nat.
Proof.
  unfold lectura_spec. change (3 * 10 + 1)%nat with 31%nat. split.
  - destruct (fila !! 0%nat) as [a|] eqn:H0.
    + destruct (fila !! 31%nat) as [b|] eqn:H31; [done|].
      intros _. apply lookup_ge_None in H31. lia.
    + intros _. apply lookup_ge_None in H0. lia.
  - intros Hlen. rewrite (lookup_ge_None_2 fila 31) by lia.
    by destruct (fila !! 0%nat).
Qed.

Lemma lectura_spec_Some fila :
  (32 <= length fila)%nat ->
  exists id_izq id_der,
    fila !! 0%nat = Some id_izq /\ fila !! 31%nat = Some id_der /\
    lectura_spec 10 fila =
      Some [ (id_izq, "A"%string, list_to_set (iloc_slice fila 1 11));
             (id_izq, "B"%string, list_to_set (iloc_slice fila 11 21));
             (id_izq, "C"%string, list_to_set (iloc_slice fila 21 31));
             (id_der, "D"%string, list_to_set (iloc_slice fila 32 42));
             (id_der, "E"%string, list_to_set (iloc_slice fila 42 52));
             (id_der, "F"%string, list_to_set (iloc_slice fila 52 62)) ].
Proof.
  intros Hlen.
  destruct (lookup_lt_is_Some_2 fila 0) as [id_izq H0]; [lia|].
  destruct (lookup_lt_is_Some_2 fila 31) as [id_der H31]; [lia|].
  exists id_izq, id_der. split_and!; [done..|].
  unfold lectura_spec. change (3 * 10 + 1)%nat with 31%nat. rewrite H0, H31.
  cbn [mbind option_bind].
  rewrite !iloc_slice_columnas_siempre by lia. done.
Qed.

(** The loaders on any table: the cards of the rows in order, or
    [IndexError] as soon as a row has no column 31. *)
Lemma cargar_bucle_general df :
  forall acc_s acc_v,
    match mapM (lectura_spec 10) df with
    | Some tarjetas =>
        Simulador.cargar_bucle df acc_s
          = Ok (acc_s ++ (carton_simulador <$> concat tarjetas)) /\
        BingoLive.cargar_bucle df acc_v
          = Ok (acc_v ++ (carton_en_vivo <$> concat tarjetas))
    | None =>
        Simulador.cargar_bucle df acc_s = Raise IndexError /\
        BingoLive.cargar_bucle df acc_v = Raise IndexError
    end.
Proof.
  induction df as [|fila df IH]; intros acc_s acc_v.
  - cbn. by rewrite !app_nil_r.
  - cbn [mapM].
    destruct (decide (length fila < 32)%nat) as [Hcorta|Hlarga].
    + rewrite (proj2 (lectura_spec_None fila) Hcorta). cbn [mbind option_bind].
      cbn [Simulador.cargar_bucle BingoLive.cargar_bucle]. unfold iloc.
      destruct (fila !! 0%nat) as [c0|]; [|done].
      rewrite (lookup_ge_None_2 fila 31) by lia. done.
    + destruct (lectura_spec_Some fila) as (id_izq & id_der & H0 & H31 & Hspec); [lia|].
      rewrite Hspec. cbn [mbind option_bind].
      cbn [Simulador.cargar_bucle BingoLive.cargar_bucle]. unfold iloc.
      rewrite H0, H31. cbn [mbind resultado_bind bind].
      rewrite simulador_tipos_ABC, vivo_tipos_ABC. cbn [mbind resultado_bind bind].
      rewrite simulador_tipos_DEF, vivo_tipos_DEF. cbn [mbind resultado_bind bind].
      match type of Hspec with _ = Some ?l => set (seis := l) in * end.
      specialize (IH (acc_s ++ (carton_simulador <$> seis))
                     (acc_v ++ (carton_en_vivo <$> seis))).
      subst seis.
      destruct (mapM (lectura_spec 10) df) as [tarjetas|].
      * cbn [mret option_ret]. destruct IH as [IHs IHv]. split.
        -- etrans; [|etrans; [exact IHs|]].
           ++ f_equal. by rewrite <- app_assoc.
           ++ f_equal. cbn [concat]. by rewrite fmap_app, app_assoc.
        -- etrans; [|etrans; [exact IHv|]].
           ++ f_equal. by rewrite <- app_assoc.
           ++ f_equal. cbn [concat]. by rewrite fmap_app, app_assoc.
      * cbn. destruct IH as [IHs IHv]. split.
        -- etrans; [|exact IHs]. f_equal. by rewrite <- app_assoc.
        -- etrans; [|exact IHv]. f_equal. by rewrite <- app_assoc.
Qed.

Lemma mapM_None_Exists {A B} (f : A -> option B) (l : list A) :
  mapM f l = None <-> Exists (fun x => f x = None) l.
Proof.
  induction l as [|x l IH]; cbn [mapM].
  - split; [done|]. by intros H%Exists_nil.
  - rewrite Exists_cons. destruct (f x) as [y|]; cbn [mbind option_bind].
    + destruct (mapM f l) as [k|]; cbn.
      * split; [done|]. intros [H|H]; [done|]. by apply IH in H.
      * split; [intros _; right; by apply IH|done].
    + split; [by left|done].
Qed.

Lemma size_list_to_set_le `{Countable A} (l : list A) :
  (size (list_to_set (C := gset A) l) <= length l)%nat.
Proof.
  induction l as [|x l IH].
  - by rewrite list_to_set_nil, size_empty.
  - rewrite list_to_set_cons, size_union_alt, size_singleton.
    assert (Hd : list_to_set (C := gset A) l ∖ {[x]} ⊆ list_to_set l) by set_solver.
    apply subseteq_size in Hd. cbn [length]. lia.
Qed.

Lemma lectura_spec_tamano fila tarjetas :
  lectura_spec 10 fila = Some tarjetas ->
  length tarjetas = 6%nat /\ Forall (fun t => (size t.2 <= 10)%nat) tarjetas.
Proof.
  unfold lectura_spec. destruct (fila !! 0%nat); [|done].
  destruct (fila !! (3 * 10 + 1)%nat); [|done]. cbn [mbind option_bind].
  intros [= <-]. split; [done|].
  repeat first [apply Forall_nil_2 | apply Forall_cons_2]; cbn [snd];
    (etrans; [apply size_list_to_set_le|]);
    unfold columnas; rewrite <- take_drop_omap, length_take; lia.
Qed.

Lemma lectura_spec_todas df tarjetas :
  mapM (lectura_spec 10) df = Some tarjetas ->
  length (concat tarjetas) = (6 * length df)%nat /\
  Forall (fun t => (size t.2 <= 10)%nat) (concat tarjetas).
Proof.
  revert tarjetas. induction df as [|fila df IH]; intros tarjetas; cbn [mapM].
  - intros [= <-]. by split.
  - destruct (lectura_spec 10 fila) as [t|] eqn:Ht; [|done]. cbn [mbind option_bind].
    destruct (mapM (lectura_spec 10) df) as [ts|]; [|done]. cbn.
    intros [= <-]. destruct (IH ts eq_refl) as [Hlen Hall].
    destruct (lectura_spec_tamano fila t Ht) as [Hl6 Ht10].
    cbn [concat]. rewrite length_app, Hlen, Hl6. split; [lia|].
    by apply Forall_app.
Qed.

Lemma cargar_cartones_casos df :
  if bool_decide (Exists (fun fila => (length fila < 32)%nat) df) then
    Simulador.cargar_cartones_corel df = Raise IndexError /\
    BingoLive.cargar_cartones df = Raise IndexError
  else
    exists cs cv,
      Simulador.cargar_cartones_corel df = Ok cs /\
      BingoLive.cargar_cartones df = Ok cv /\
      length cs = (6 * length df)%nat /\
      length cv = (6 * length df)%nat /\
      Forall (fun c => (size (Simulador.numeros c) <= 10)%nat) cs /\
      Forall (fun c => (size (BingoLive.numeros c) <= 10)%nat /\
                       BingoLive.aciertos c = ∅) cv.
Proof.
  pose proof (cargar_bucle_general df [] []) as Hgen.
  unfold Simulador.cargar_cartones_corel, BingoLive.cargar_cartones.
  case_bool_decide as Hcortas.
  - assert (Hnone : mapM (lectura_spec 10) df = None).
    { apply mapM_None_Exists. eapply Exists_impl; [exact Hcortas|].
      intros fila. apply lectura_spec_None. }
    by rewrite Hnone in Hgen.
  - destruct (mapM (lectura_spec 10) df) as [tarjetas|] eqn:Hmap.
    + destruct Hgen as [Hs Hv]. cbn [app] in Hs, Hv.
      destruct (lectura_spec_todas df tarjetas Hmap) as [Hlen Hall].
      exists (carton_simulador <$> concat tarjetas), (carton_en_vivo <$> concat tarjetas).
      rewrite !length_fmap. split_and!; try done.
      * apply Forall_fmap. eapply Forall_impl; [exact Hall|]. by intros t.
      * apply Forall_fmap. eapply Forall_impl; [exact Hall|]. by intros t.
    + exfalso. apply Hcortas. apply mapM_None_Exists in Hmap.
      eapply Exists_impl; [exact Hmap|]. intros fila. apply lectura_spec_None.
Qed.

(** Property X1.  Both loaders read any table of integers the same way: if some row has fewer than 32 cells they raise [IndexError] and return no card at all; otherwise they return six cards for every row, each with at most ten numbers, and in the live game with no hits. *)
Theorem cargar_cartones_todo_o_nada df :
  if bool_decide (Exists (fun fila => (length fila < 32)%nat) df) then
    Simulador.cargar_cartones_corel df = Raise IndexError /\
    BingoLive.cargar_cartones df = Raise IndexError
  else
    exists cs cv,
      Simulador.cargar_cartones_corel df = Ok cs /\
      BingoLive.cargar_cartones df = Ok cv /\
      length cs = (6 * length df)%nat /\
      length cv = (6 * length df)%nat /\
      Forall (fun c => (size (Simulador.numeros c) <= 10)%nat) cs /\
      Forall (fun c => (size (BingoLive.numeros c) <= 10)%nat /\
                       BingoLive.aciertos c = ∅) cv.
Proof. apply cargar_cartones_casos. Qed.

End CargaGeneral.

Section EnVivoMas.
Import BingoLive.

Ltac proyectar :=
  cbn [cartones bolillas_cantadas bolillas_disponibles ganadores jugada_terminada].

Lemma alcanzable_estado_terminado : alcanzable estado_terminado.
Proof. apply alcanzable_cantar_varias, alcanzable_estado_ejemplo. Qed.

Lemma ficha_marcar c n : ficha (marcar_numero c n).1 = ficha c.
Proof. unfold marcar_numero. by case_decide. Qed.

Lemma ficha_desmarcar c n : ficha (desmarcar_numero c n).1 = ficha c.
Proof. unfold desmarcar_numero. by case_decide. Qed.

Lemma cantar_bolilla_cartones s numero :
  cartones (cantar_bolilla s numero).1 = cartones s \/
  cartones (cantar_bolilla s numero).1
    = (fun c => (marcar_numero c numero).1) <$> cartones s.
Proof.
  destruct (jugada_terminada s) eqn:Ht.
  { left. unfold cantar_bolilla. by rewrite Ht. }
  destruct (decide (numero ∈ bolillas_disponibles s)) as [Hd|Hd].
  - right. by destruct (cantar_bolilla_aceptada s numero Ht Hd) as (gan & nv & _ & ->).
  - left. unfold cantar_bolilla. rewrite Ht. by rewrite decide_True.
Qed.

Lemma deshacer_bolilla_cartones s :
  cartones (deshacer_bolilla s).1 = cartones s \/
  exists u, cartones (deshacer_bolilla s).1
            = (fun c => (desmarcar_numero c u).1) <$> cartones s.
Proof.
  destruct (bolillas_cantadas s) as [|x l] eqn:Hl using rev_ind.
  - left. by rewrite deshacer_bolilla_vacia.
  - right. exists x. by rewrite (deshacer_bolilla_ultima s l x Hl).
Qed.

(** No operation changes which cards there are and what they hold. *)
Lemma fichas_cantar s numero :
  ficha <$> cartones (cantar_bolilla s numero).1 = ficha <$> cartones s.
Proof.
  destruct (cantar_bolilla_cartones s numero) as [->| ->]; [done|].
  rewrite <- list_fmap_compose. apply list_fmap_ext. intros i c _. apply ficha_marcar.
Qed.

Lemma fichas_deshacer s :
  ficha <$> cartones (deshacer_bolilla s).1 = ficha <$> cartones s.
Proof.
  destruct (deshacer_bolilla_cartones s) as [->| [u ->]]; [done|].
  rewrite <- list_fmap_compose. apply list_fmap_ext. intros i c _. apply ficha_desmarcar.
Qed.

Lemma fichas_reiniciar s : ficha <$> cartones (reiniciar s) = ficha <$> cartones s.
Proof.
  unfold reiniciar. proyectar. rewrite <- list_fmap_compose. by apply list_fmap_ext.
Qed.

Lemma fichas_alcanzable_desde s0 s :
  alcanzable_desde s0 s -> ficha <$> cartones s = ficha <$> cartones s0.
Proof.
  induction 1 as [|s numero _ IH|s _ IH|s _ IH]; [done|..].
  - by rewrite fichas_cantar.
  - by rewrite fichas_deshacer.
  - by rewrite fichas_reiniciar.
Qed.

Lemma alcanzable_desde_alcanzable df s0 s :
  nuevo_estado df = Ok s0 -> alcanzable_desde s0 s -> alcanzable s.
Proof.
  intros H0. induction 1; [by eapply alcanzable_nuevo|..].
  - by apply alcanzable_cantar.
  - by apply alcanzable_deshacer.
  - by apply alcanzable_reiniciar.
Qed.

Lemma nuevo_estado_cartones df s :
  nuevo_estado df = Ok s ->
  Forall (fun c => (size (numeros c) <= 10)%nat /\ aciertos c = ∅) (cartones s) /\
  length (cartones s) = (6 * length df)%nat /\
  bolillas_cantadas s = [] /\
  bolillas_disponibles s = list_to_set (range 1 61) /\
  ganadores s = [] /\ jugada_terminada s = false.
Proof.
  unfold nuevo_estado. intros (cs & Hcs & <-%Ok_inj)%bind_Ok. proyectar.
  pose proof (cargar_cartones_casos df) as Hc.
  case_bool_decide; [destruct Hc as [_ Hc]; congruence|].
  destruct Hc as (cs' & cv & _ & Hv & _ & Hlen & _ & Hall).
  assert (cv = cs) as -> by congruence. done.
Qed.

(** In a reachable state the cards hold at most ten numbers. *)
Lemma alcanzable_diez s :
  alcanzable s -> Forall (fun f => (size f.2 <= 10)%nat) (ficha <$> cartones s).
Proof.
  induction 1 as [df s Hs|s numero _ IH|s _ IH|s _ IH].
  - apply nuevo_estado_cartones in Hs as (Hall & _).
    apply Forall_fmap. eapply Forall_impl; [exact Hall|]. by intros c [H _].
  - by rewrite fichas_cantar.
  - by rewrite fichas_deshacer.
  - by rewrite fichas_reiniciar.
Qed.

(** In a reachable state the recorded winners are complete cards. *)
Lemma alcanzable_ganadores_completos s :
  alcanzable s -> forall j, j ∈ ganadores s -> gana_en (cartones s) j = true.
Proof.
  induction 1 as [df s Hs|s numero Hs IH|s _ IH|s _ IH].
  - apply nuevo_estado_cartones in Hs as (_ & _ & _ & _ & -> & _).
    intros j Hj. by apply elem_of_nil in Hj.
  - destruct (jugada_terminada s) eqn:Ht.
    { unfold cantar_bolilla. by rewrite Ht. }
    destruct (decide (numero ∈ bolillas_disponibles s)) as [Hd|Hd].
    2:{ unfold cantar_bolilla. rewrite Ht. by rewrite decide_True. }
    destruct (cantar_bolilla_aceptada s numero Ht Hd) as (gan & nv & Hb & ->).
    proyectar.
    destruct (cantar_bucle_ganadores numero (length (cartones s)) 0 (cartones s)
                (ganadores s) []) as (extra & Heq & Hnew & _).
    rewrite Hb in Heq. cbn [fst snd] in Heq.
    pose proof (invariante_alcanzable s Hs) as Hinv.
    assert (Hg0 : ganadores s = []).
    { pose proof (inv_terminada s Hinv) as Hter.
      destruct (ganadores s) eqn:E; [done|].
      assert (jugada_terminada s = true) by (by apply Hter).
      congruence. }
    rewrite Hg0 in Heq. cbn [app] in Heq. subst extra.
    intros j Hj. destruct (Hnew j Hj) as (c & _ & Hc & _ & Hw).
    unfold gana_en. by rewrite list_lookup_fmap, Hc.
  - destruct (bolillas_cantadas s) as [|x l] eqn:Hl using rev_ind.
    { by rewrite deshacer_bolilla_vacia. }
    rewrite (deshacer_bolilla_ultima s l x Hl). cbn zeta. proyectar.
    intros j (c & Hc & Hw)%elem_of_posiciones_ganadoras.
    unfold gana_en. by rewrite Hc.
  - unfold reiniciar. proyectar. intros j Hj. by apply elem_of_nil in Hj.
Qed.

Lemma sin_ganadores s :
  invariante s -> jugada_terminada s = false -> ganadores s = [].
Proof.
  intros Hinv Ht. pose proof (inv_terminada s Hinv) as Hter.
  destruct (ganadores s) eqn:E; [done|].
  assert (jugada_terminada s = true) by (by apply Hter). congruence.
Qed.

Lemma es_ganador_completo (c : Carton) (cantadas : gset Z) :
  (size (numeros c) <= 10)%nat ->
  aciertos c = numeros c ∩ cantadas ->
  es_ganador c = true <-> size (numeros c) = 10%nat /\ numeros c ⊆ cantadas.
Proof.
  intros Hsz Hac. unfold es_ganador, cantidad_aciertos.
  rewrite bool_decide_eq_true, Hac. split.
  - intros Hdiez.
    assert (Hsub : numeros c ∩ cantadas ⊆ numeros c) by set_solver.
    pose proof (subseteq_size _ _ Hsub) as Hle.
    assert (Heq : numeros c ∩ cantadas = numeros c).
    { apply set_subseteq_size_eq; [done|lia]. }
    split; [lia|set_solver].
  - intros [Hdiez Hsub].
    replace (numeros c ∩ cantadas) with (numeros c) by set_solver. lia.
Qed.

Lemma alcanzable_es_ganador s c :
  alcanzable s -> c ∈ cartones s ->
  es_ganador c = true <->
  size (numeros c) = 10%nat /\ numeros c ⊆ list_to_set (bolillas_cantadas s).
Proof.
  intros Hs Hc. apply es_ganador_completo.
  - pose proof (alcanzable_diez s Hs) as Hall. rewrite Forall_fmap, Forall_forall in Hall.
    apply (Hall c Hc).
  - by apply (inv_aciertos s (invariante_alcanzable s Hs)).
Qed.

(** Property X2.  In every state of a live game, a card is a winner exactly when it holds ten different numbers and all of them are among the balls called. *)
Theorem carton_ganador_si_completo s c :
  alcanzable s -> c ∈ cartones s ->
  es_ganador c = true <->
  size (numeros c) = 10%nat /\ numeros c ⊆ list_to_set (bolillas_cantadas s).
Proof. apply alcanzable_es_ganador. Qed.

Lemma carton_ganador_si_completo_witness :
  es_ganador carton_A_completo = true <->
  size (numeros carton_A_completo) = 10%nat /\
  numeros carton_A_completo ⊆ list_to_set (bolillas_cantadas estado_terminado).
Proof.
  apply (carton_ganador_si_completo estado_terminado carton_A_completo).
  - apply alcanzable_estado_terminado.
  - apply (list_elem_of_lookup_2 _ 0%nat). vm_compute. reflexivity.
Defined.

Lemma jugada_terminada_si_carton_completo_aux s :
  alcanzable s ->
  jugada_terminada s = true <->
  exists c, c ∈ cartones s /\ size (numeros c) = 10%nat /\
            numeros c ⊆ list_to_set (bolillas_cantadas s).
Proof.
  intros Hs. pose proof (invariante_alcanzable s Hs) as Hinv. split.
  - intros Ht. apply (inv_terminada s Hinv) in Ht.
    destruct (ganadores s) as [|j gan] eqn:Hg; [done|].
    pose proof (alcanzable_ganadores_completos s Hs j) as Hj.
    rewrite Hg in Hj. specialize (Hj ltac:(left)). unfold gana_en in Hj.
    destruct (cartones s !! j) as [c|] eqn:Hc; [|done].
    exists c. split; [by eapply list_elem_of_lookup_2|].
    apply (alcanzable_es_ganador s c Hs); [by eapply list_elem_of_lookup_2|done].
  - intros (c & Hc & Hcompleto).
    destruct (jugada_terminada s) eqn:Ht; [done|].
    pose proof (inv_sin_ganador s Hinv (sin_ganadores s Hinv Ht) c Hc) as Hno.
    apply (alcanzable_es_ganador s c Hs Hc) in Hcompleto. congruence.
Qed.

(** Property X3.  In every state of a live game, the game is finished exactly when some card holds ten different numbers that were all called. *)
Theorem jugada_terminada_si_carton_completo s :
  alcanzable s ->
  jugada_terminada s = true <->
  exists c, c ∈ cartones s /\ size (numeros c) = 10%nat /\
            numeros c ⊆ list_to_set (bolillas_cantadas s).
Proof. apply jugada_terminada_si_carton_completo_aux. Qed.

Lemma jugada_terminada_si_carton_completo_witness :
  jugada_terminada estado_terminado = true <->
  exists c, c ∈ cartones estado_terminado /\ size (numeros c) = 10%nat /\
            numeros c ⊆ list_to_set (bolillas_cantadas estado_terminado).
Proof.
  apply (jugada_terminada_si_carton_completo estado_terminado).
  apply alcanzable_estado_terminado.
Defined.

Lemma vacia_o_ultima {A} (l : list A) : l = [] \/ exists h x, l = h ++ [x].
Proof. destruct l as [|x h _] using rev_ind; [by left|right; eauto]. Qed.

(** No card was complete before the last call. *)
Lemma alcanzable_antes_de_la_ultima s :
  alcanzable s ->
  forall l u, bolillas_cantadas s = l ++ [u] ->
  forall c, c ∈ cartones s ->
    ~ (size (numeros c) = 10%nat /\ numeros c ⊆ list_to_set l).
Proof.
  induction 1 as [df s Hs|s numero Hs IH|s Hs IH|s _ IH].
  - apply nuevo_estado_cartones in Hs as (_ & _ & -> & _).
    intros l u Hl. by destruct l.
  - destruct (jugada_terminada s) eqn:Ht.
    { unfold cantar_bolilla. by rewrite Ht. }
    destruct (decide (numero ∈ bolillas_disponibles s)) as [Hd|Hd].
    2:{ unfold cantar_bolilla. rewrite Ht. by rewrite decide_True. }
    destruct (cantar_bolilla_aceptada s numero Ht Hd) as (gan & nv & _ & ->).
    proyectar. intros l u [<- <-]%app_inj_tail c (d & -> & Hd')%list_elem_of_fmap.
    rewrite marcar_numero_numeros. intros Hcompleto.
    pose proof (invariante_alcanzable s Hs) as Hinv.
    pose proof (inv_sin_ganador s Hinv (sin_ganadores s Hinv Ht) d Hd') as Hno.
    apply (alcanzable_es_ganador s d Hs Hd') in Hcompleto. congruence.
  - destruct (vacia_o_ultima (bolillas_cantadas s)) as [Hh|(h & x & Hh)].
    { rewrite deshacer_bolilla_vacia by done. by apply IH. }
    rewrite (deshacer_bolilla_ultima s h x Hh). cbn zeta. proyectar.
    intros l u -> c (d & -> & Hd')%list_elem_of_fmap.
    rewrite desmarcar_numero_numeros. intros [Hdiez Hsub].
    apply (IH (l ++ [u]) x Hh d Hd'). split; [done|].
    rewrite list_to_set_app_L. set_solver.
  - unfold reiniciar. proyectar. intros l u Hl. by destruct l.
Qed.

Lemma deshacer_en_curso s :
  alcanzable s ->
  jugada_terminada (deshacer_bolilla s).1 = false /\
  ganadores (deshacer_bolilla s).1 = [].
Proof.
  intros Hs.
  assert (Hs' : alcanzable (deshacer_bolilla s).1) by (by apply alcanzable_deshacer).
  pose proof (invariante_alcanzable _ Hs') as Hinv'.
  assert (Ht : jugada_terminada (deshacer_bolilla s).1 = false).
  { destruct (jugada_terminada (deshacer_bolilla s).1) eqn:Ht; [|done]. exfalso.
    apply (jugada_terminada_si_carton_completo_aux _ Hs') in Ht as (c & Hc & Hdiez & Hsub).
    destruct (vacia_o_ultima (bolillas_cantadas s)) as [Hh|(h & x & Hh)].
    - rewrite deshacer_bolilla_vacia in Hc, Hsub by done. cbn [fst] in Hc, Hsub. rewrite Hh in Hsub.
      assert (numeros c = ∅) as He by set_solver.
      rewrite He, size_empty in Hdiez. done.
    - rewrite (deshacer_bolilla_ultima s h x Hh) in Hc, Hsub. cbn zeta in Hc, Hsub.
      revert Hc Hsub. proyectar.
      intros (d & -> & Hd')%list_elem_of_fmap Hsub.
      rewrite desmarcar_numero_numeros in Hdiez, Hsub.
      by apply (alcanzable_antes_de_la_ultima s Hs h x Hh d Hd'). }
  split; [done|]. by apply sin_ganadores.
Qed.

Lemma clave_ficha c : clave c = (ficha c).1.
Proof. done. Qed.

Lemma claves_fichas (l : list Carton) : clave <$> l = fst <$> (ficha <$> l).
Proof. rewrite <- list_fmap_compose. done. Qed.

Lemma clave_marcar c n : clave (marcar_numero c n).1 = clave c.
Proof. by rewrite !clave_ficha, ficha_marcar. Qed.

(** With one card per sheet and slot, the loop of [cantar_bolilla] records
    every card the call completes, in the order of the cards. *)
Lemma cantar_bucle_exacto numero n :
  forall a cs gan nv,
    NoDup (clave <$> cs) ->
    (forall j, j ∈ gan -> (j < a)%nat) ->
    (cantar_bucle numero (seq a n) cs gan nv).1.2
      = gan ++ filter (fun j => marca_y_gana cs numero j) (seq a n).
Proof.
  induction n as [|n IH]; intros a cs gan nv Hnd Hgan.
  { cbn. by rewrite app_nil_r. }
  cbn [seq cantar_bucle].
  destruct (cs !! a) as [c|] eqn:Hc.
  2:{ rewrite filter_cons_False by (unfold marca_y_gana; rewrite Hc; by intros []).
      apply IH; [done|]. intros j Hj. specialize (Hgan j Hj). lia. }
  assert (Hm : marca_y_gana cs numero a
               = bool_decide (numero ∈ numeros c) && es_ganador (marcar_numero c numero).1).
  { unfold marca_y_gana. by rewrite Hc. }
  unfold marcar_numero in Hm |- *.
  destruct (decide (numero ∈ numeros c)) as [Hn|Hn].
  2:{ rewrite bool_decide_eq_false_2 in Hm by done. cbn [andb] in Hm.
      rewrite filter_cons_False by (rewrite Hm; by intros []).
      apply IH; [done|]. intros j Hj. specialize (Hgan j Hj). lia. }
  rewrite bool_decide_eq_true_2 in Hm by done. cbn [andb fst] in Hm.
  set (c' := con_aciertos c ({[numero]} ∪ aciertos c)).
  assert (Hclave : clave c' = clave c) by done.
  assert (Hno : en_ganadores (<[a:=c']> cs) c' gan = false).
  { unfold en_ganadores. apply bool_decide_eq_false. unfold cartones_ganadores.
    intros (j & Hj & Hjc)%list_elem_of_omap.
    specialize (Hgan j Hj).
    rewrite list_lookup_insert_ne in Hjc by lia.
    assert (Hij : j = a); [|lia].
    eapply (NoDup_lookup _ j a (clave c)); [exact Hnd|..].
    - rewrite list_lookup_fmap, Hjc. cbn. by rewrite Hclave.
    - by rewrite list_lookup_fmap, Hc. }
  rewrite Hno, andb_true_r.
  assert (Hnd' : NoDup (clave <$> <[a:=c']> cs)).
  { rewrite list_fmap_insert, Hclave.
    rewrite list_insert_id; [done|]. by rewrite list_lookup_fmap, Hc. }
  assert (Hfilt : filter (fun j => marca_y_gana (<[a:=c']> cs) numero j) (seq (S a) n)
                  = filter (fun j => marca_y_gana cs numero j) (seq (S a) n)).
  { apply filter_ext_elem. intros j Hj%elem_of_seq. unfold marca_y_gana.
    by rewrite list_lookup_insert_ne by lia. }
  fold c' in Hm.
  destruct (es_ganador c') eqn:Hw.
  - rewrite filter_cons_True by (by rewrite Hm).
    rewrite IH; [|done|].
    + rewrite Hfilt. by rewrite <- app_assoc.
    + intros j [Hj| ->%list_elem_of_singleton]%elem_of_app; [|lia].
      specialize (Hgan j Hj). lia.
  - rewrite filter_cons_False by (rewrite Hm; by intros []).
    rewrite IH; [|done|].
    + by rewrite Hfilt.
    + intros j Hj. specialize (Hgan j Hj). lia.
Qed.

Lemma ganadores_todos s :
  alcanzable s -> NoDup (clave <$> cartones s) ->
  ganadores s = posiciones_ganadoras (cartones s).
Proof.
  induction 1 as [df s Hs|s numero Hs IH|s Hs IH|s _ IH]; intros Hnd.
  - pose proof (invariante_nuevo df s Hs) as Hinv.
    apply nuevo_estado_cartones in Hs as (_ & _ & _ & _ & Hg & _).
    rewrite Hg. symmetry. apply posiciones_ganadoras_nil.
    by apply (inv_sin_ganador s Hinv).
  - rewrite claves_fichas, fichas_cantar, <- claves_fichas in Hnd.
    specialize (IH Hnd).
    destruct (jugada_terminada s) eqn:Ht.
    { unfold cantar_bolilla. by rewrite Ht. }
    destruct (decide (numero ∈ bolillas_disponibles s)) as [Hd|Hd].
    2:{ unfold cantar_bolilla. rewrite Ht. by rewrite decide_True. }
    pose proof (invariante_alcanzable s Hs) as Hinv.
    pose proof (sin_ganadores s Hinv Ht) as Hg0.
    destruct (cantar_bolilla_aceptada s numero Ht Hd) as (gan & nv & Hb & ->).
    proyectar.
    pose proof (cantar_bucle_exacto numero (length (cartones s)) 0 (cartones s)
                  (ganadores s) [] Hnd) as Hex.
    rewrite Hb, Hg0 in Hex. cbn [fst snd app] in Hex.
    rewrite Hex by (intros j Hj; by apply elem_of_nil in Hj).
    unfold posiciones_ganadoras. rewrite length_fmap.
    apply filter_ext_elem. intros j _. unfold marca_y_gana, gana_en.
    rewrite list_lookup_fmap. destruct (cartones s !! j) as [c|] eqn:Hc; [|done].
    cbn [fmap option_fmap option_map].
    case_bool_decide as Hn; [done|]. cbn [andb].
    unfold marcar_numero. rewrite decide_False by done. cbn [fst].
    rewrite (inv_sin_ganador s Hinv Hg0 c); [done|]. by eapply list_elem_of_lookup_2.
  - rewrite claves_fichas, fichas_deshacer, <- claves_fichas in Hnd.
    specialize (IH Hnd).
    destruct (vacia_o_ultima (bolillas_cantadas s)) as [Hh|(h & x & Hh)].
    { by rewrite deshacer_bolilla_vacia. }
    by rewrite (deshacer_bolilla_ultima s h x Hh).
  - unfold reiniciar. proyectar. symmetry. apply posiciones_ganadoras_nil.
    intros c (d & -> & _)%list_elem_of_fmap. by apply es_ganador_vacio.
Qed.

(** Property X4.  When no two cards share sheet id and slot, the list of winners of every state of a live game is the list of all the complete cards, in the order of the cards. *)
Theorem ganadores_son_los_completos s :
  alcanzable s -> NoDup (clave <$> cartones s) ->
  ganadores s = posiciones_ganadoras (cartones s) /\
  forall j, j ∈ ganadores s <->
    exists c, cartones s !! j = Some c /\ size (numeros c) = 10%nat /\
              numeros c ⊆ list_to_set (bolillas_cantadas s).
Proof.
  intros Hs Hnd. pose proof (ganadores_todos s Hs Hnd) as Hg. split; [done|].
  intros j. rewrite Hg, elem_of_posiciones_ganadoras. split.
  - intros (c & Hc & Hw). exists c. split; [done|].
    apply (alcanzable_es_ganador s c Hs); [by eapply list_elem_of_lookup_2|done].
  - intros (c & Hc & Hcompleto). exists c. split; [done|].
    apply (alcanzable_es_ganador s c Hs); [by eapply list_elem_of_lookup_2|done].
Qed.

Lemma ganadores_son_los_completos_witness :
  ganadores estado_terminado = posiciones_ganadoras (cartones estado_terminado) /\
  forall j, j ∈ ganadores estado_terminado <->
    exists c, cartones estado_terminado !! j = Some c /\ size (numeros c) = 10%nat /\
              numeros c ⊆ list_to_set (bolillas_cantadas estado_terminado).
Proof.
  apply (ganadores_son_los_completos estado_terminado).
  - apply alcanzable_estado_terminado.
  - apply (bool_decide_unpack _). vm_compute. exact I.
Defined.

(** Property X5.  In a finished live game the last ball called is on every winning card and completed it: each winner has ten hits, all its numbers marked, and was not complete before that ball. *)
Theorem ganadores_por_la_ultima s :
  alcanzable s -> jugada_terminada s = true ->
  exists l u,
    bolillas_cantadas s = l ++ [u] /\
    forall j, j ∈ ganadores s ->
      exists c, cartones s !! j = Some c /\ u ∈ numeros c /\
                aciertos c = numeros c /\ cantidad_aciertos c = 10%nat /\
                ~ numeros c ⊆ list_to_set l.
Proof.
  intros Hs Ht. pose proof (invariante_alcanzable s Hs) as Hinv.
  destruct (vacia_o_ultima (bolillas_cantadas s)) as [Hh|(l & u & Hh)].
  { exfalso. apply (jugada_terminada_si_carton_completo_aux s Hs) in Ht
      as (c & _ & Hdiez & Hsub).
    rewrite Hh in Hsub. assert (numeros c = ∅) as He by set_solver.
    by rewrite He, size_empty in Hdiez. }
  exists l, u. split; [done|]. intros j Hj.
  pose proof (alcanzable_ganadores_completos s Hs j Hj) as Hw. unfold gana_en in Hw.
  destruct (cartones s !! j) as [c|] eqn:Hc; [|done].
  assert (Hel : c ∈ cartones s) by (by eapply list_elem_of_lookup_2).
  apply (alcanzable_es_ganador s c Hs Hel) in Hw as [Hdiez Hsub].
  pose proof (alcanzable_antes_de_la_ultima s Hs l u Hh c Hel) as Hantes.
  assert (Hac : aciertos c = numeros c).
  { rewrite (inv_aciertos s Hinv c Hel). set_solver. }
  exists c. split_and!; [done| |done| |].
  - destruct (decide (u ∈ numeros c)) as [|Hu]; [done|]. exfalso. apply Hantes.
    split; [done|]. rewrite Hh, list_to_set_app_L in Hsub. set_solver.
  - unfold cantidad_aciertos. by rewrite Hac.
  - intros Hsub'. by apply Hantes.
Qed.

Lemma ganadores_por_la_ultima_witness :
  exists l u,
    bolillas_cantadas estado_terminado = l ++ [u] /\
    forall j, j ∈ ganadores estado_terminado ->
      exists c, cartones estado_terminado !! j = Some c /\ u ∈ numeros c /\
                aciertos c = numeros c /\ cantidad_aciertos c = 10%nat /\
                ~ numeros c ⊆ list_to_set l.
Proof.
  apply (ganadores_por_la_ultima estado_terminado).
  - apply alcanzable_estado_terminado.
  - vm_compute. reflexivity.
Defined.

(** Property X6.  [deshacer_bolilla] always leaves a game in progress: after it, in any state of a live game, the game is not finished, there is no winner, no card is complete, and the history has lost its last ball (or was empty and still is). *)
Theorem deshacer_bolilla_en_curso s :
  alcanzable s ->
  let s' := (deshacer_bolilla s).1 in
  jugada_terminada s' = false /\ ganadores s' = [] /\
  bolillas_cantadas s' = removelast (bolillas_cantadas s) /\
  forall c, c ∈ cartones s' -> es_ganador c = false.
Proof.
  intros Hs s'. destruct (deshacer_en_curso s Hs) as [Ht Hg]. fold s' in Ht, Hg.
  split_and!; [done|done| |].
  - subst s'. destruct (vacia_o_ultima (bolillas_cantadas s)) as [Hh|(h & x & Hh)].
    + rewrite deshacer_bolilla_vacia by done. by rewrite Hh.
    + rewrite (deshacer_bolilla_ultima s h x Hh). cbn zeta. proyectar.
      by rewrite Hh, removelast_last.
  - apply inv_sin_ganador; [|done]. apply invariante_alcanzable.
    by apply alcanzable_deshacer.
Qed.

Lemma deshacer_bolilla_en_curso_witness :
  let s' := (deshacer_bolilla estado_terminado).1 in
  jugada_terminada s' = false /\ ganadores s' = [] /\
  bolillas_cantadas s' = removelast (bolillas_cantadas estado_terminado) /\
  forall c, c ∈ cartones s' -> es_ganador c = false.
Proof.
  apply (deshacer_bolilla_en_curso estado_terminado).
  apply alcanzable_estado_terminado.
Defined.

Lemma marcar_desmarcar c u :
  (u ∈ aciertos c <-> u ∈ numeros c) ->
  (marcar_numero (desmarcar_numero c u).1 u).1 = c.
Proof.
  intros Hu. unfold desmarcar_numero. destruct (decide (u ∈ aciertos c)) as [Ha|Ha].
  - cbn [fst]. unfold marcar_numero. cbn [numeros con_aciertos].
    rewrite decide_True by (by apply Hu). cbn [fst aciertos].
    rewrite con_aciertos_twice.
    change (aciertos (con_aciertos c (aciertos c ∖ {[u]}))) with (aciertos c ∖ {[u]}).
    rewrite <- union_difference_singleton_L by done. apply con_aciertos_id.
  - cbn [fst]. unfold marcar_numero. rewrite decide_False; [done|].
    intros Hn. by apply Ha, Hu.
Qed.

Lemma estado_igual (s t : EstadoJugada) :
  cartones s = cartones t -> bolillas_cantadas s = bolillas_cantadas t ->
  bolillas_disponibles s = bolillas_disponibles t -> ganadores s = ganadores t ->
  jugada_terminada s = jugada_terminada t -> s = t.
Proof. destruct s, t. cbn. by intros -> -> -> -> ->. Qed.

Lemma cantar_deshacer_en_curso s l u :
  alcanzable s -> jugada_terminada s = false ->
  bolillas_cantadas s = l ++ [u] ->
  (cantar_bolilla (deshacer_bolilla s).1 u).1 = s.
Proof.
  intros Hs Ht Hh. pose proof (invariante_alcanzable s Hs) as Hinv.
  set (s' := (deshacer_bolilla s).1).
  assert (Hs' : alcanzable s') by (by apply alcanzable_deshacer).
  destruct (deshacer_en_curso s Hs) as [Ht' Hg']. fold s' in Ht', Hg'.
  assert (Hs'eq := deshacer_bolilla_ultima s l u Hh). fold s' in Hs'eq. cbn zeta in Hs'eq.
  assert (Hu : u ∈ bolillas_disponibles s').
  { rewrite Hs'eq. proyectar. set_solver. }
  set (t := (cantar_bolilla s' u).1).
  assert (Halc : alcanzable t) by (by apply alcanzable_cantar).
  destruct (cantar_bolilla_aceptada s' u Ht' Hu) as (gan & nv & _ & Ht_eq).
  fold t in Ht_eq.
  assert (Hcs : cartones t = cartones s).
  { rewrite Ht_eq. proyectar. rewrite Hs'eq. proyectar.
    rewrite <- list_fmap_compose. rewrite <- (list_fmap_id (cartones s)) at 2.
    apply list_fmap_ext. intros i c Hc. cbn.
    apply marcar_desmarcar.
    rewrite (inv_aciertos s Hinv c) by (by eapply list_elem_of_lookup_2).
    rewrite Hh, list_to_set_app_L. set_solver. }
  assert (Hcant : bolillas_cantadas t = bolillas_cantadas s).
  { rewrite Ht_eq. proyectar. rewrite Hs'eq. proyectar. done. }
  assert (Hdisp : bolillas_disponibles t = bolillas_disponibles s).
  { rewrite Ht_eq. proyectar. rewrite Hs'eq. proyectar.
    assert (u ∉ bolillas_disponibles s).
    { rewrite (inv_disponibles s Hinv). intros [_ Hno]. apply Hno.
      rewrite Hh. set_solver. }
    set_solver. }
  assert (Hter : jugada_terminada t = false).
  { destruct (jugada_terminada t) eqn:E; [|done].
    apply (jugada_terminada_si_carton_completo_aux t Halc) in E.
    rewrite Hcs, Hcant in E.
    apply (jugada_terminada_si_carton_completo_aux s Hs) in E. congruence. }
  apply estado_igual; try done.
  - rewrite (sin_ganadores t) by (done || by apply invariante_alcanzable).
    by rewrite (sin_ganadores s).
  - congruence.
Qed.

Lemma rehacer s :
  alcanzable s ->
  forall l u, bolillas_cantadas s = l ++ [u] ->
              (cantar_bolilla (deshacer_bolilla s).1 u).1 = s.
Proof.
  induction 1 as [df s Hs|s numero Hs IH|s Hs IH|s _ IH].
  - apply nuevo_estado_cartones in Hs as (_ & _ & -> & _).
    intros l u Hl. by destruct l.
  - destruct (jugada_terminada s) eqn:Ht.
    { unfold cantar_bolilla at 1 3 4. by rewrite Ht. }
    destruct (decide (numero ∈ bolillas_disponibles s)) as [Hd|Hd].
    2:{ unfold cantar_bolilla at 1 3 4. rewrite Ht. by rewrite decide_True. }
    intros l u Hh.
    assert (Hnum : u = numero).
    { destruct (cantar_bolilla_aceptada s numero Ht Hd) as (gan & nv & _ & Heq).
      rewrite Heq in Hh. cbn [bolillas_cantadas] in Hh.
      by apply app_inj_tail in Hh as [_ ->]. }
    subst u.
    rewrite (deshacer_cantar s numero); [done|by apply invariante_alcanzable|done..].
  - intros l u Hh.
    apply cantar_deshacer_en_curso with l; [by apply alcanzable_deshacer| |done].
    by apply deshacer_en_curso.
  - unfold reiniciar at 1. proyectar. intros l u Hl. by destruct l.
Qed.

(** Property X7.  Undoing a call that was accepted gives back the state before the call, and the answer names the ball, the length of the history and the ranking of that state, with no winner. *)
Theorem cantar_y_deshacer s numero :
  alcanzable s ->
  jugada_terminada s = false ->
  numero ∈ bolillas_disponibles s ->
  (deshacer_bolilla (cantar_bolilla s numero).1).1 = s /\
  (deshacer_bolilla (cantar_bolilla s numero).1).2
    = Deshecha numero (length (bolillas_cantadas s)) (obtener_ranking s 20) false [].
Proof.
  intros Hs Ht Hd. pose proof (invariante_alcanzable s Hs) as Hinv.
  pose proof (deshacer_cantar s numero Hinv Ht Hd) as Hvuelta.
  split; [done|].
  destruct (cantar_bolilla_aceptada s numero Ht Hd) as (gan & nv & _ & Heq).
  set (s1 := (cantar_bolilla s numero).1) in *.
  assert (Hh : bolillas_cantadas s1 = bolillas_cantadas s ++ [numero]) by (by rewrite Heq).
  unfold deshacer_bolilla in Hvuelta |- *.
  rewrite Hh, last_snoc in Hvuelta |- *. rewrite removelast_last in Hvuelta |- *.
  cbn [fst snd] in Hvuelta |- *. rewrite Hvuelta.
  assert (Hg : posiciones_ganadoras
                 ((fun c => (desmarcar_numero c numero).1) <$> cartones s1) = []).
  { apply (f_equal ganadores) in Hvuelta. cbn [ganadores] in Hvuelta.
    rewrite Hvuelta. by apply sin_ganadores. }
  rewrite Hg. done.
Qed.

Lemma cantar_y_deshacer_witness :
  (deshacer_bolilla (cantar_bolilla estado_ejemplo 7).1).1 = estado_ejemplo /\
  (deshacer_bolilla (cantar_bolilla estado_ejemplo 7).1).2
    = Deshecha 7 (length (bolillas_cantadas estado_ejemplo))
        (obtener_ranking estado_ejemplo 20) false [].
Proof.
  apply (cantar_y_deshacer estado_ejemplo 7).
  - apply alcanzable_estado_ejemplo.
  - vm_compute. reflexivity.
  - apply (bool_decide_unpack _). vm_compute. exact I.
Defined.

(** Property X8.  Calling again the ball that was just undone gives back the state before the undo, also when that state was a finished game: the same winners are found again. *)
Theorem deshacer_y_cantar s l u :
  alcanzable s ->
  bolillas_cantadas s = l ++ [u] ->
  (cantar_bolilla (deshacer_bolilla s).1 u).1 = s.
Proof. intros Hs. by apply rehacer. Qed.

Lemma deshacer_y_cantar_witness :
  (cantar_bolilla (deshacer_bolilla estado_terminado).1 10).1 = estado_terminado.
Proof.
  apply (deshacer_y_cantar estado_terminado (range 1 10) 10).
  - apply alcanzable_estado_terminado.
  - vm_compute. reflexivity.
Defined.

Lemma reiniciar_fichas s t :
  ficha <$> cartones s = ficha <$> cartones t -> reiniciar s = reiniciar t.
Proof.
  intros Hf. unfold reiniciar. f_equal.
  set (de_ficha := fun f : string * string * gset Z =>
         {| bingo_id := f.1.1; carton_tipo := f.1.2; numeros := f.2; aciertos := ∅ |}).
  assert (Hde : forall l : list Carton,
            (fun c => con_aciertos c ∅) <$> l = de_ficha <$> (ficha <$> l)).
  { intros l0. rewrite <- list_fmap_compose. done. }
  by rewrite !Hde, Hf.
Qed.

Lemma reiniciar_nuevo df s : nuevo_estado df = Ok s -> reiniciar s = s.
Proof.
  intros Hs. apply nuevo_estado_cartones in Hs as (Hall & _ & Hc & Hd & Hg & Ht).
  apply estado_igual; unfold reiniciar; proyectar; try done.
  rewrite <- (list_fmap_id (cartones s)) at 2. apply list_fmap_ext.
  intros i c Hc'. cbn.
  rewrite Forall_forall in Hall.
  destruct (Hall c) as [_ Hvacio]; [by eapply list_elem_of_lookup_2|].
  rewrite <- Hvacio. apply con_aciertos_id.
Qed.

(** Property X9.  [reiniciar] depends on the cards only, and these keep sheet id, slot and numbers through calls, undos and resets: a reset after any such operations equals the reset of the starting state, and for a game as it was loaded it gives back exactly that loaded game. *)
Theorem reiniciar_vuelve_al_inicio s0 s :
  alcanzable_desde s0 s ->
  reiniciar s = reiniciar s0 /\
  forall df, nuevo_estado df = Ok s0 -> reiniciar s = s0.
Proof.
  intros Hs.
  assert (Hr : reiniciar s = reiniciar s0).
  { apply reiniciar_fichas. by apply fichas_alcanzable_desde. }
  split; [done|]. intros df Hdf. rewrite Hr. by eapply reiniciar_nuevo.
Qed.

Lemma reiniciar_vuelve_al_inicio_witness :
  reiniciar estado_terminado = reiniciar estado_ejemplo /\
  forall df, nuevo_estado df = Ok estado_ejemplo -> reiniciar estado_terminado = estado_ejemplo.
Proof.
  apply (reiniciar_vuelve_al_inicio estado_ejemplo estado_terminado).
  unfold estado_terminado, cantar_varias.
  change (range 1 11) with [1; 2; 3; 4; 5; 6; 7; 8; 9; 10]. cbn [foldl].
  repeat apply desde_cantar. apply desde_inicio.
Defined.

End EnVivoMas.

Section Respuestas.
Import BingoLive.

Ltac proyectar :=
  cbn [cartones bolillas_cantadas bolillas_disponibles ganadores jugada_terminada].

Lemma cantar_bucle_nuevos numero n :
  forall a cs gan nv,
    (cantar_bucle numero (seq a n) cs gan nv).2
    = nv ++ ((fun c => (id_completo c, cantidad_aciertos (marcar_numero c numero).1))
               <$> filter (fun c => numero ∈ numeros c) (take n (drop a cs))).
Proof.
  induction n as [|n IH]; intros a cs gan nv.
  { cbn. by rewrite app_nil_r. }
  cbn [seq cantar_bucle].
  destruct (cs !! a) as [c|] eqn:Hc.
  2:{ rewrite IH. apply lookup_ge_None in Hc.
      by rewrite !drop_ge, !take_nil by lia. }
  rewrite (drop_S _ _ _ Hc). cbn [take]. rewrite filter_cons.
  unfold marcar_numero at 1 2.
  destruct (decide (numero ∈ numeros c)) as [Hn|Hn].
  - rewrite IH. rewrite drop_insert_lt by lia.
    rewrite <- app_assoc. cbn [fmap list_fmap app]. f_equal. f_equal. f_equal.
    unfold marcar_numero. by rewrite decide_True.
  - by rewrite IH.
Qed.

(** Property X26.  The answer to an accepted call: it names the ball and one more call than before, lists exactly the cards that hold the ball, in the order of the cards and each with one hit more than it had, and reports the ranking, the end of the game and the winners of the new state. *)
Theorem cantar_bolilla_respuesta s numero :
  alcanzable s ->
  jugada_terminada s = false ->
  numero ∈ bolillas_disponibles s ->
  let s' := (cantar_bolilla s numero).1 in
  (cantar_bolilla s numero).2
  = Cantada numero (S (length (bolillas_cantadas s)))
      ((fun c => (id_completo c, S (cantidad_aciertos c)))
         <$> filter (fun c => numero ∈ numeros c) (cartones s))
      (obtener_ranking s' 20)
      (jugada_terminada s')
      (cartones_ganadores (cartones s') (ganadores s')).
Proof.
  intros Hs Ht Hd. pose proof (invariante_alcanzable s Hs) as Hinv. cbn zeta.
  pose proof (cantar_bucle_nuevos numero (length (cartones s)) 0 (cartones s)
                (ganadores s) []) as Hnv.
  unfold cantar_bolilla in *. rewrite Ht.
  rewrite decide_False by (intros H; by apply H).
  destruct (cantar_bucle _ _ _ _ _) as [[cs gan] nv]. cbn [fst snd] in Hnv |- *.
  proyectar. f_equal.
  - rewrite length_app. cbn. lia.
  - rewrite Hnv. cbn [app]. rewrite drop_0, firstn_all.
    apply list_fmap_ext. intros i c [Hn Hc]%list_elem_of_lookup_2%list_elem_of_filter.
    f_equal. unfold marcar_numero. rewrite decide_True by done. cbn [fst].
    unfold cantidad_aciertos. cbn [aciertos con_aciertos].
    rewrite size_union by
      (rewrite (inv_aciertos s Hinv c Hc);
       pose proof (proj1 (inv_disponibles s Hinv numero) Hd) as [_ Hno];
       set_solver).
    by rewrite size_singleton.
  - by destruct gan.
Qed.

Lemma cantar_bolilla_respuesta_witness :
  let s' := (cantar_bolilla estado_ejemplo 7).1 in
  (cantar_bolilla estado_ejemplo 7).2
  = Cantada 7 (S (length (bolillas_cantadas estado_ejemplo)))
      ((fun c => (id_completo c, S (cantidad_aciertos c)))
         <$> filter (fun c => 7 ∈ numeros c) (cartones estado_ejemplo))
      (obtener_ranking s' 20)
      (jugada_terminada s')
      (cartones_ganadores (cartones s') (ganadores s')).
Proof.
  apply (cantar_bolilla_respuesta estado_ejemplo 7).
  - apply alcanzable_estado_ejemplo.
  - vm_compute. reflexivity.
  - apply (bool_decide_unpack _). vm_compute. exact I.
Defined.

(** Property X27.  No call, undo or reset ever adds, drops or reorders cards, or changes the sheet id, the slot or the numbers of a card: only the hits change. *)
Theorem cartones_inmutables s0 s :
  alcanzable_desde s0 s ->
  length (cartones s) = length (cartones s0) /\
  forall j c, cartones s !! j = Some c ->
    exists c0, cartones s0 !! j = Some c0 /\
               bingo_id c = bingo_id c0 /\ carton_tipo c = carton_tipo c0 /\
               numeros c = numeros c0.
Proof.
  intros Hs%fichas_alcanzable_desde. split.
  - apply (f_equal length) in Hs. by rewrite !length_fmap in Hs.
  - intros j c Hc.
    assert (Hj : (ficha <$> cartones s0) !! j = Some (ficha c)).
    { by rewrite <- Hs, list_lookup_fmap, Hc. }
    rewrite list_lookup_fmap in Hj.
    destruct (cartones s0 !! j) as [c0|]; [|done].
    exists c0. cbn in Hj. unfold ficha in Hj. injection Hj as -> -> ->. done.
Qed.

Lemma cartones_inmutables_witness :
  length (cartones (cantar_bolilla estado_ejemplo 7).1) = length (cartones estado_ejemplo) /\
  forall j c, cartones (cantar_bolilla estado_ejemplo 7).1 !! j = Some c ->
    exists c0, cartones estado_ejemplo !! j = Some c0 /\
               bingo_id c = bingo_id c0 /\ carton_tipo c = carton_tipo c0 /\
               numeros c = numeros c0.
Proof.
  apply (cartones_inmutables estado_ejemplo (cantar_bolilla estado_ejemplo 7).1).
  apply desde_cantar, desde_inicio.
Defined.

End Respuestas.

Section Ranking.
Import BingoLive.

Lemma obtener_ranking_entradas s top_n :
  obtener_ranking s top_n
  = entrada_de <$> slice_hasta (ordenar_por_aciertos (cartones s)) top_n.
Proof. done. Qed.

Lemma slice_hasta_take {A} (l : list A) (n : Z) :
  slice_hasta l n
  = take (if decide (n < 0) then Z.to_nat (Z.of_nat (length l) + n) else Z.to_nat n) l.
Proof. unfold slice_hasta. by case_decide. Qed.

Lemma insertar_por_aciertos_Permutation c l : insertar_por_aciertos c l ≡ₚ c :: l.
Proof.
  induction l as [|d l IH]; [done|]. cbn [insertar_por_aciertos].
  case_decide; [done|]. rewrite IH. apply Permutation_swap.
Qed.

Lemma ordenar_foldl_Permutation l :
  forall acc, foldl (fun acc c => insertar_por_aciertos c acc) acc l ≡ₚ acc ++ l.
Proof.
  induction l as [|c l IH]; intros acc; cbn [foldl].
  - by rewrite app_nil_r.
  - rewrite IH, insertar_por_aciertos_Permutation. cbn [app].
    apply Permutation_middle.
Qed.

Lemma ordenar_por_aciertos_Permutation l : ordenar_por_aciertos l ≡ₚ l.
Proof. apply (ordenar_foldl_Permutation l []). Qed.

Lemma insertar_por_aciertos_ordenado c l :
  StronglySorted mas_aciertos l -> StronglySorted mas_aciertos (insertar_por_aciertos c l).
Proof.
  induction 1 as [|d l Hl IH Hd]; cbn [insertar_por_aciertos].
  - repeat constructor.
  - case_decide as Hlt.
    + constructor; [by constructor|].
      constructor; [unfold mas_aciertos; lia|].
      eapply Forall_impl; [exact Hd|]. unfold mas_aciertos. intros e He. lia.
    + constructor; [done|].
      rewrite Forall_forall. intros e He.
      apply (elem_of_Permutation_proper _ _ _ (insertar_por_aciertos_Permutation c l)) in He.
      apply elem_of_cons in He as [->|He].
      * unfold mas_aciertos. lia.
      * rewrite Forall_forall in Hd. by apply Hd.
Qed.

Lemma ordenar_foldl_ordenado l :
  forall acc, StronglySorted mas_aciertos acc ->
    StronglySorted mas_aciertos (foldl (fun acc c => insertar_por_aciertos c acc) acc l).
Proof.
  induction l as [|c l IH]; intros acc Hacc; cbn [foldl]; [done|].
  by apply IH, insertar_por_aciertos_ordenado.
Qed.

Lemma ordenar_por_aciertos_ordenado l : StronglySorted mas_aciertos (ordenar_por_aciertos l).
Proof. apply ordenar_foldl_ordenado. constructor. Qed.

(** Property X10.  [obtener_ranking] returns the entries of the cards at the head of the descending order of hits: the first [min top_n (number of cards)] of them for a [top_n] that is not negative and, as the slice [[:top_n]] has it, all but the last [-top_n] for a negative one.  The entries are in descending order of hits, and every card left out has at most as many hits as every card listed. *)
Theorem obtener_ranking_orden s top_n :
  exists primeros resto,
    cartones s ≡ₚ primeros ++ resto /\
    obtener_ranking s top_n = entrada_de <$> primeros /\
    Z.of_nat (length primeros)
      = (if decide (top_n < 0) then Z.max 0 (Z.of_nat (length (cartones s)) + top_n)
         else Z.min top_n (Z.of_nat (length (cartones s)))) /\
    StronglySorted (fun e1 e2 => (r_aciertos e2 <= r_aciertos e1)%nat)
      (obtener_ranking s top_n) /\
    forall c d, c ∈ primeros -> d ∈ resto ->
                (cantidad_aciertos d <= cantidad_aciertos c)%nat.
Proof.
  set (l := ordenar_por_aciertos (cartones s)).
  pose proof (ordenar_por_aciertos_ordenado (cartones s)) as Hord. fold l in Hord.
  assert (Hlen : length l = length (cartones s)).
  { unfold l. by rewrite (Permutation_length (ordenar_por_aciertos_Permutation (cartones s))). }
  rewrite obtener_ranking_entradas. fold l. rewrite slice_hasta_take.
  set (m := if decide (top_n < 0) then Z.to_nat (Z.of_nat (length l) + top_n)
            else Z.to_nat top_n).
  rewrite <- (take_drop m l) in Hord.
  exists (take m l), (drop m l). split_and!.
  - rewrite take_drop. symmetry. apply ordenar_por_aciertos_Permutation.
  - done.
  - rewrite length_take. unfold m. rewrite Hlen. case_decide; lia.
  - apply (StronglySorted_fmap _ mas_aciertos); [by intros x y|].
    by eapply StronglySorted_app_1_l.
  - intros c d Hc Hd. by apply (StronglySorted_app_1_elem_of _ _ _ c d Hord).
Qed.

Lemma filter_insertar n c l :
  StronglySorted mas_aciertos l ->
  filter (fun d => cantidad_aciertos d = n) (insertar_por_aciertos c l)
  = filter (fun d => cantidad_aciertos d = n) l
      ++ (if decide (cantidad_aciertos c = n) then [c] else []).
Proof.
  induction 1 as [|d l Hl IH Hd]; cbn [insertar_por_aciertos].
  - rewrite filter_cons, filter_nil. by case_decide.
  - destruct (decide (cantidad_aciertos d < cantidad_aciertos c)%nat) as [Hlt|Hlt].
    + rewrite (filter_cons _ c). destruct (decide (cantidad_aciertos c = n)) as [Hc|Hc].
      * assert (Hnil : filter (fun d0 => cantidad_aciertos d0 = n) (d :: l) = []).
        { apply filter_nil_iff. intros e [->|He]%elem_of_cons; [lia|].
          rewrite Forall_forall in Hd. specialize (Hd e He). unfold mas_aciertos in Hd. lia. }
        by rewrite Hnil.
      * by rewrite app_nil_r.
    + rewrite !(filter_cons _ d), IH.
      by destruct (decide (cantidad_aciertos d = n)).
Qed.

Lemma filter_ordenar_foldl n l :
  forall acc, StronglySorted mas_aciertos acc ->
    filter (fun d => cantidad_aciertos d = n)
      (foldl (fun acc c => insertar_por_aciertos c acc) acc l)
    = filter (fun d => cantidad_aciertos d = n) acc
        ++ filter (fun d => cantidad_aciertos d = n) l.
Proof.
  induction l as [|c l IH]; intros acc Hacc; cbn [foldl].
  - by rewrite filter_nil, app_nil_r.
  - rewrite IH by (by apply insertar_por_aciertos_ordenado).
    rewrite filter_insertar by done. rewrite <- app_assoc. f_equal.
    rewrite filter_cons. by case_decide.
Qed.

(** Property X11.  The sort of [obtener_ranking] is stable: in the full ranking the cards with a given number of hits appear in the order they have in [cartones]. *)
Theorem obtener_ranking_empates s n :
  filter (fun e => r_aciertos e = n)
    (obtener_ranking s (Z.of_nat (length (cartones s))))
  = entrada_de <$> filter (fun c => cantidad_aciertos c = n) (cartones s).
Proof.
  rewrite obtener_ranking_entradas, slice_hasta_take.
  rewrite decide_False by lia. rewrite Nat2Z.id.
  rewrite take_ge
    by (by rewrite (Permutation_length (ordenar_por_aciertos_Permutation (cartones s)))).
  rewrite filter_fmap_comp. f_equal.
  etrans; [|apply (filter_ordenar_foldl n (cartones s) []); constructor].
  done.
Qed.

(** Property X12.  In a finished live game the first entry of a ranking of at least one place is a winner with ten hits. *)
Theorem obtener_ranking_ganador_primero s top_n :
  alcanzable s -> jugada_terminada s = true -> 0 < top_n ->
  exists e resto,
    obtener_ranking s top_n = e :: resto /\
    r_es_ganador e = true /\ r_aciertos e = 10%nat.
Proof.
  intros Hs Ht Hn.
  apply (jugada_terminada_si_carton_completo_aux s Hs) in Ht as (c & Hc & Hcompleto).
  pose proof (proj2 (alcanzable_es_ganador s c Hs Hc) Hcompleto) as Hw.
  pose proof (ordenar_por_aciertos_ordenado (cartones s)) as Hord.
  pose proof (ordenar_por_aciertos_Permutation (cartones s)) as Hperm.
  rewrite obtener_ranking_entradas, slice_hasta_take.
  rewrite decide_False by lia.
  destruct (ordenar_por_aciertos (cartones s)) as [|d l'].
  { rewrite <- Hperm in Hc. by apply elem_of_nil in Hc. }
  destruct (Z.to_nat top_n) as [|m] eqn:Hm; [lia|]. cbn [take fmap list_fmap].
  eexists _, _. split; [reflexivity|]. cbn [r_es_ganador r_aciertos entrada_de].
  assert (Hd : (cantidad_aciertos c <= cantidad_aciertos d)%nat).
  { rewrite <- Hperm in Hc. apply elem_of_cons in Hc as [->|Hc]; [done|].
    apply StronglySorted_inv in Hord as [_ Hall].
    rewrite Forall_forall in Hall. by apply Hall. }
  assert (Hdl : d ∈ cartones s) by (rewrite <- Hperm; left).
  assert (Hdiez : (cantidad_aciertos d <= 10)%nat).
  { pose proof (alcanzable_diez s Hs) as Hall.
    rewrite Forall_fmap, Forall_forall in Hall. specialize (Hall d Hdl). cbn in Hall.
    unfold cantidad_aciertos.
    rewrite (inv_aciertos s (invariante_alcanzable s Hs) d Hdl).
    etrans; [|exact Hall]. apply subseteq_size. set_solver. }
  unfold es_ganador in Hw |- *. apply bool_decide_eq_true in Hw.
  split; [apply bool_decide_eq_true|]; lia.
Qed.

Lemma obtener_ranking_ganador_primero_witness :
  exists e resto,
    obtener_ranking estado_terminado 20 = e :: resto /\
    r_es_ganador e = true /\ r_aciertos e = 10%nat.
Proof.
  apply (obtener_ranking_ganador_primero estado_terminado 20).
  - apply alcanzable_estado_terminado.
  - vm_compute. reflexivity.
  - lia.
Defined.

End Ranking.

Section Informes.
Import BingoLive.

Lemma StronglySorted_filter {A} (R : relation A) (P : A -> Prop)
    `{!forall x, Decision (P x)} (l : list A) :
  StronglySorted R l -> StronglySorted R (filter P l).
Proof.
  induction 1 as [|x l Hl IH Hx]; [constructor|].
  rewrite filter_cons. case_decide; [|done].
  constructor; [done|].
  rewrite Forall_forall in Hx |- *. intros y [_ Hy]%list_elem_of_filter. by apply Hx.
Qed.

Lemma filter_todos {A} (P : A -> Prop) `{!forall x, Decision (P x)} (l : list A) :
  Forall P l -> filter P l = l.
Proof.
  induction 1 as [|x l Hx Hl IH]; [done|].
  by rewrite filter_cons_True, IH.
Qed.

Lemma seq_creciente a n : StronglySorted lt (seq a n).
Proof.
  revert a. induction n as [|n IH]; intros a; cbn [seq]; constructor; [apply IH|].
  apply Forall_forall. intros x Hx%elem_of_seq. lia.
Qed.

Lemma range_creciente a b : StronglySorted Z.lt (range a b).
Proof.
  unfold range. apply (StronglySorted_fmap _ lt); [|apply seq_creciente].
  intros x y Hxy. lia.
Qed.

Lemma creciente_unica (l1 l2 : list Z) :
  StronglySorted Z.lt l1 -> StronglySorted Z.lt l2 ->
  (forall x, x ∈ l1 <-> x ∈ l2) -> l1 = l2.
Proof.
  intros H1 H2 Hel.
  assert (Hnd : forall l, StronglySorted Z.lt l -> NoDup l).
  { induction 1 as [|x l Hl IH Hx]; constructor; [|done].
    intros Hin. rewrite Forall_forall in Hx. specialize (Hx x Hin). lia. }
  apply (StronglySorted_unique_strong Z.lt); [intros; lia|done..|].
  apply NoDup_Permutation; auto.
Qed.

Lemma sorted_elements_filter (X : gset Z) (P : Z -> Prop) `{!forall x, Decision (P x)}
    (a b : Z) :
  (forall x, x ∈ X <-> a <= x < b /\ P x) ->
  sorted (elements X) = filter P (range a b).
Proof.
  intros HX. apply creciente_unica.
  - apply sorted_creciente, NoDup_elements.
  - apply StronglySorted_filter, range_creciente.
  - intros x. rewrite (elem_of_Permutation_proper _ _ _ (sorted_Permutation _)).
    rewrite elem_of_elements, list_elem_of_filter, elem_of_range, HX. tauto.
Qed.

Lemma length_sorted_elements (X : gset Z) : length (sorted (elements X)) = size X.
Proof. by rewrite (Permutation_length (sorted_Permutation _)). Qed.

Lemma disponibles_ordenadas s :
  invariante s ->
  sorted (elements (bolillas_disponibles s))
  = filter (fun x => x ∉ bolillas_cantadas s) (range 1 61).
Proof.
  intros Hinv. apply sorted_elements_filter. intros x.
  rewrite (inv_disponibles s Hinv). split; intros [? ?]; (split; [lia|done]).
Qed.

Lemma cantadas_y_disponibles s :
  invariante s ->
  (length (bolillas_cantadas s) + size (bolillas_disponibles s) = 60)%nat.
Proof.
  intros Hinv.
  assert (Hu : list_to_set (bolillas_cantadas s) ∪ bolillas_disponibles s
               = list_to_set (C := gset Z) (range 1 61)).
  { apply set_eq. intros x.
    rewrite elem_of_union, !elem_of_list_to_set, elem_of_range,
      (inv_disponibles s Hinv).
    pose proof (inv_rango s Hinv x).
    destruct (decide (x ∈ bolillas_cantadas s)); intuition lia. }
  assert (Hd : list_to_set (C := gset Z) (bolillas_cantadas s) ## bolillas_disponibles s).
  { intros x Hx%elem_of_list_to_set Hy%(inv_disponibles s Hinv). tauto. }
  apply (f_equal size) in Hu. rewrite size_union in Hu by done.
  rewrite !size_list_to_set in Hu.
  - rewrite length_range in Hu. lia.
  - apply NoDup_fmap_2; [intros i j; lia|apply NoDup_seq].
  - apply (inv_nodup s Hinv).
Qed.

(** Property X13.  The report of [obtener_estado] in any state of a live game: [hay_ganador] equals [jugada_terminada], [bolillas_disponibles] is the ascending list of the numbers of 1..60 not called yet, the balls called and those available add up to sixty, the ranking has at most twenty entries, and every winner listed is complete with ten numbers. *)
Theorem obtener_estado_coherente s :
  alcanzable s ->
  let e := obtener_estado s in
  e_hay_ganador e = e_jugada_terminada e /\
  e_bolillas_disponibles e
    = filter (fun x => x ∉ bolillas_cantadas s) (range 1 61) /\
  (e_total_cantadas e + length (e_bolillas_disponibles e) = 60)%nat /\
  (length (e_ranking_top20 e) <= 20)%nat /\
  Forall (fun d => d_es_ganador d = true /\ d_aciertos d = d_numeros d /\
                   length (d_numeros d) = 10%nat) (e_ganadores e).
Proof.
  intros Hs e. pose proof (invariante_alcanzable s Hs) as Hinv.
  unfold e, obtener_estado.
  cbn [e_hay_ganador e_jugada_terminada e_bolillas_disponibles e_total_cantadas
         e_ranking_top20 e_ganadores].
  split_and!.
  - pose proof (inv_terminada s Hinv) as Hter.
    destruct (ganadores s) as [|j g] eqn:Hg.
    + cbn. destruct (jugada_terminada s); [|done].
      by destruct (proj1 Hter eq_refl).
    + rewrite bool_decide_eq_true_2 by (cbn; lia).
      symmetry. by apply Hter.
  - by apply disponibles_ordenadas.
  - rewrite length_sorted_elements. by apply cantadas_y_disponibles.
  - unfold obtener_ranking, slice_hasta. rewrite decide_False by lia.
    rewrite length_fmap, length_take. lia.
  - apply Forall_fmap, Forall_forall. intros c Hc. unfold cartones_ganadores in Hc.
    apply list_elem_of_omap in Hc as (j & Hj & Hjc).
    pose proof (alcanzable_ganadores_completos s Hs j Hj) as Hw.
    unfold gana_en in Hw. rewrite Hjc in Hw.
    assert (Hel : c ∈ cartones s) by (by eapply list_elem_of_lookup_2).
    pose proof (proj1 (alcanzable_es_ganador s c Hs Hel) Hw) as [Hdiez Hsub].
    split_and!; cbn [to_dict d_es_ganador d_aciertos d_numeros]; [done| |].
    + rewrite (inv_aciertos s Hinv c Hel). f_equal. f_equal. set_solver.
    + by rewrite length_sorted_elements.
Qed.

Lemma obtener_estado_coherente_witness :
  let e := obtener_estado estado_terminado in
  e_hay_ganador e = e_jugada_terminada e /\
  e_bolillas_disponibles e
    = filter (fun x => x ∉ bolillas_cantadas estado_terminado) (range 1 61) /\
  (e_total_cantadas e + length (e_bolillas_disponibles e) = 60)%nat /\
  (length (e_ranking_top20 e) <= 20)%nat /\
  Forall (fun d => d_es_ganador d = true /\ d_aciertos d = d_numeros d /\
                   length (d_numeros d) = 10%nat) (e_ganadores e).
Proof.
  apply (obtener_estado_coherente estado_terminado).
  apply alcanzable_estado_terminado.
Defined.

(** Property X14.  [obtener_carton_detalle] lists cards of the sheet asked for only, each with its hits being the numbers of the card that were called, in ascending order; a card is flagged as winner exactly when it has ten hits, and a sheet id that no card has gives the empty list, not an error. *)
Theorem obtener_carton_detalle_aciertos s bingo :
  alcanzable s ->
  Forall (fun d =>
            d_bingo_id d = bingo /\
            d_aciertos d = filter (fun x => x ∈ bolillas_cantadas s) (d_numeros d) /\
            d_cantidad_aciertos d = length (d_aciertos d) /\
            (d_es_ganador d = true <-> length (d_aciertos d) = 10%nat))
         (obtener_carton_detalle s bingo) /\
  ((forall c, c ∈ cartones s -> bingo_id c ≠ bingo) ->
   obtener_carton_detalle s bingo = []).
Proof.
  intros Hs. pose proof (invariante_alcanzable s Hs) as Hinv. split.
  - unfold obtener_carton_detalle. apply Forall_fmap, Forall_forall.
    intros c [Hb Hc]%list_elem_of_filter.
    cbn [to_dict d_bingo_id d_aciertos d_numeros d_cantidad_aciertos d_es_ganador].
    assert (Hlen : length (sorted (elements (aciertos c))) = cantidad_aciertos c).
    { by rewrite length_sorted_elements. }
    split_and!;
      cbn [to_dict d_bingo_id d_aciertos d_numeros d_cantidad_aciertos d_es_ganador];
      [done| |done|].
    + apply creciente_unica.
      * apply sorted_creciente, NoDup_elements.
      * apply StronglySorted_filter, sorted_creciente, NoDup_elements.
      * intros x. rewrite list_elem_of_filter.
        rewrite !(elem_of_Permutation_proper _ _ _ (sorted_Permutation _)).
        rewrite !elem_of_elements, (inv_aciertos s Hinv c Hc).
        rewrite elem_of_intersection, elem_of_list_to_set. tauto.
    + rewrite Hlen. unfold es_ganador. rewrite bool_decide_eq_true.
      assert (Hdiez : (cantidad_aciertos c <= 10)%nat).
      { pose proof (alcanzable_diez s Hs) as Hall.
        rewrite Forall_fmap, Forall_forall in Hall. specialize (Hall c Hc). cbn in Hall.
        unfold cantidad_aciertos. rewrite (inv_aciertos s Hinv c Hc).
        etrans; [|exact Hall]. apply subseteq_size. set_solver. }
      lia.
  - intros Hno. unfold obtener_carton_detalle.
    replace (filter (fun c => bingo_id c = bingo) (cartones s)) with (@nil Carton); [done|].
    symmetry. apply filter_nil_iff. intros c Hc. by apply Hno.
Qed.

Lemma obtener_carton_detalle_aciertos_witness :
  Forall (fun d =>
            d_bingo_id d = "0001"%string /\
            d_aciertos d
              = filter (fun x => x ∈ bolillas_cantadas estado_terminado) (d_numeros d) /\
            d_cantidad_aciertos d = length (d_aciertos d) /\
            (d_es_ganador d = true <-> length (d_aciertos d) = 10%nat))
         (obtener_carton_detalle estado_terminado "0001") /\
  ((forall c, c ∈ cartones estado_terminado -> bingo_id c ≠ "0001"%string) ->
   obtener_carton_detalle estado_terminado "0001" = []).
Proof.
  apply (obtener_carton_detalle_aciertos estado_terminado "0001").
  apply alcanzable_estado_terminado.
Defined.

End Informes.

Section Registro.
Import BingoLive Carga.

(** Property X16.  [iniciar_jugada] stores the freshly loaded game under the given id, or under the time stamp when none is given, and returns its report: nothing called, all of 1..60 available, no winner, six cards per row.  Other ids are untouched, and when the table does not load the exception is passed on. *)
Theorem iniciar_jugada_registra jugadas df jugada_id ahora :
  let id := match jugada_id with None => ahora | Some j => j end in
  match nuevo_estado df with
  | Raise e => iniciar_jugada jugadas df jugada_id ahora = Raise e
  | Ok s =>
      exists jugadas',
        iniciar_jugada jugadas df jugada_id ahora
          = Ok (jugadas', (id, obtener_estado s)) /\
        obtener_jugada jugadas' id = Some s /\
        (forall otra, otra ≠ id ->
                      obtener_jugada jugadas' otra = obtener_jugada jugadas otra) /\
        e_total_cartones (obtener_estado s) = (6 * length df)%nat /\
        e_total_cantadas (obtener_estado s) = 0%nat /\
        e_bolillas_disponibles (obtener_estado s) = range 1 61 /\
        e_hay_ganador (obtener_estado s) = false /\
        e_ganadores (obtener_estado s) = []
  end.
Proof.
  intros id. unfold iniciar_jugada. fold id.
  destruct (nuevo_estado df) as [s|e] eqn:Hs; [|done].
  cbn [mbind resultado_bind bind].
  eexists. split; [reflexivity|].
  pose proof (invariante_nuevo df s Hs) as Hinv.
  pose proof (disponibles_ordenadas s Hinv) as Hdisp.
  apply nuevo_estado_cartones in Hs as (_ & Hlen & Hc & _ & Hg & _).
  unfold obtener_jugada, obtener_estado.
  cbn [e_total_cartones e_total_cantadas e_bolillas_disponibles e_hay_ganador e_ganadores].
  split_and!.
  - apply lookup_insert_eq.
  - intros otra Hotra. by apply lookup_insert_ne.
  - done.
  - by rewrite Hc.
  - rewrite Hdisp, Hc. apply filter_todos.
    apply Forall_forall. intros x _. apply not_elem_of_nil.
  - by rewrite Hg.
  - by rewrite Hg.
Qed.

(** Property X17.  [eliminar_jugada] removes the id from the store and nothing else; for an id that is not stored it leaves the store as it is instead of raising [KeyError], and after [iniciar_jugada] under a new id it gives back the store from before. *)
Theorem eliminar_jugada_borra jugadas jugada_id :
  obtener_jugada (eliminar_jugada jugadas jugada_id) jugada_id = None /\
  (forall otra, otra ≠ jugada_id ->
     obtener_jugada (eliminar_jugada jugadas jugada_id) otra
       = obtener_jugada jugadas otra) /\
  (obtener_jugada jugadas jugada_id = None ->
     eliminar_jugada jugadas jugada_id = jugadas /\
     forall df ahora jugadas' r,
       iniciar_jugada jugadas df (Some jugada_id) ahora = Ok (jugadas', r) ->
       eliminar_jugada jugadas' jugada_id = jugadas).
Proof.
  unfold obtener_jugada, eliminar_jugada. split_and!.
  - case_decide as Hd; [apply lookup_delete_eq|].
    by apply eq_None_not_Some.
  - intros otra Hotra. case_decide; [|done]. by apply lookup_delete_ne.
  - intros Hno. split.
    + rewrite decide_False; [done|]. rewrite Hno. by intros [? ?].
    + intros df ahora jugadas' r. unfold iniciar_jugada.
      intros (s & _ & [= <- _]%Ok_inj)%bind_Ok.
      rewrite decide_True by (rewrite lookup_insert_eq; eauto).
      rewrite delete_insert_eq. by apply delete_id.
Qed.

End Registro.

Section Detalle.
Import BingoLive Carga.

Lemma hojas_cons fila df :
  hojas (fila :: df)
  = ((fun z => zfill (str z) 4) <$> omap (fun j => fila !! j) [0; 31]%nat) ++ hojas df.
Proof. done. Qed.

Lemma cuenta_hojas bingo df :
  forall tarjetas,
    mapM (lectura_spec 10) df = Some tarjetas ->
    length (filter (fun c => bingo_id c = bingo) (carton_en_vivo <$> concat tarjetas))
    = (3 * length (filter (fun h => h = bingo) (hojas df)))%nat.
Proof.
  induction df as [|fila df IH]; intros tarjetas; cbn [mapM].
  - by intros [= <-].
  - destruct (lectura_spec 10 fila) as [t|] eqn:Ht; [|by cbn].
    cbn [mbind option_bind].
    destruct (mapM (lectura_spec 10) df) as [ts|]; [|by cbn].
    cbn [mbind option_bind mret option_ret]. intros [= <-].
    unfold lectura_spec in Ht. change (3 * 10 + 1)%nat with 31%nat in Ht.
    destruct (fila !! 0%nat) as [i|] eqn:H0; [|by cbn in Ht].
    destruct (fila !! 31%nat) as [d|] eqn:H31; [|by cbn in Ht].
    cbn [mbind option_bind] in Ht. injection Ht as <-.
    specialize (IH ts eq_refl).
    rewrite hojas_cons. cbn [omap list_omap].
    rewrite H0, H31. cbn [fmap list_fmap app].
    cbn [concat]. rewrite fmap_app, filter_app, length_app, IH.
    cbn [app fmap list_fmap carton_en_vivo fst snd].
    rewrite !filter_cons, !filter_nil. unfold carton_en_vivo. cbn [bingo_id fst snd].
    destruct (decide (zfill (str i) 4 = bingo)), (decide (zfill (str d) 4 = bingo));
      cbn [length app]; lia.
Qed.

Lemma ids_alcanzable_desde s0 s :
  alcanzable_desde s0 s -> bingo_id <$> cartones s = bingo_id <$> cartones s0.
Proof.
  intros Hs%fichas_alcanzable_desde.
  apply (f_equal (fmap (fun f : string * string * gset Z => f.1.1))) in Hs.
  by rewrite <- !list_fmap_compose in Hs.
Qed.

(** Property X15.  In a game loaded from a table, whatever calls, undos and resets followed, the detail of a sheet id has three cards for every sheet of the table with that id (columns 0 and 31, formatted with four digits). *)
Theorem obtener_carton_detalle_tres df s0 s bingo :
  nuevo_estado df = Ok s0 ->
  alcanzable_desde s0 s ->
  length (obtener_carton_detalle s bingo)
  = (3 * length (filter (fun h => h = bingo) (hojas df)))%nat.
Proof.
  intros Hs0 Hs. unfold obtener_carton_detalle. rewrite length_fmap.
  assert (Hids : forall l : list Carton,
            length (filter (fun c => bingo_id c = bingo) l)
            = length (filter (fun h => h = bingo) (bingo_id <$> l))).
  { intros l. by rewrite filter_fmap_comp, length_fmap. }
  rewrite Hids, (ids_alcanzable_desde s0 s Hs), <- Hids.
  unfold nuevo_estado in Hs0. apply bind_Ok in Hs0 as (cs & Hcs & <-%Ok_inj).
  cbn [cartones]. unfold cargar_cartones in Hcs.
  pose proof (cargar_bucle_general df [] []) as Hgen.
  destruct (mapM (lectura_spec 10) df) as [tarjetas|] eqn:Hmap.
  - destruct Hgen as [_ Hv]. rewrite Hv in Hcs. apply Ok_inj in Hcs as <-.
    cbn [app]. by apply cuenta_hojas.
  - destruct Hgen as [_ Hv]. congruence.
Qed.

Lemma obtener_carton_detalle_tres_witness :
  length (obtener_carton_detalle estado_terminado "0002")
  = (3 * length (filter (fun h => h = "0002"%string) (hojas [fila_ejemplo])))%nat.
Proof.
  apply (obtener_carton_detalle_tres [fila_ejemplo] estado_ejemplo estado_terminado "0002").
  - vm_compute. reflexivity.
  - unfold estado_terminado, cantar_varias.
    change (range 1 11) with [1; 2; 3; 4; 5; 6; 7; 8; 9; 10]. cbn [foldl].
    repeat apply desde_cantar. apply desde_inicio.
Defined.

End Detalle.

Section SimulacionGeneral.
Import Simulador.

Lemma completa_con_alcanza k b pre c :
  completa_con k b (tras pre c) <-> alcanza k pre b c.
Proof.
  unfold completa_con, alcanza, tras. cbn [j_numeros j_aciertos].
  split; intros [Hb Hk]; (split; [done|]); rewrite <- Hk; f_equal; f_equal;
    rewrite list_to_set_app_L; set_solver.
Qed.

Lemma jugar_general k cartones :
  forall pend pre,
    let r := jugar k pend (tras pre <$> cartones) [] (length pre) in
    (r.2 = [] /\ r.1 = length (pre ++ pend) /\
     forall p1 b p2, pend = p1 ++ b :: p2 ->
       forall c, c ∈ cartones -> ~ alcanza k (pre ++ p1) b c) \/
    (exists p1 b p2,
       pend = p1 ++ b :: p2 /\ r.1 = S (length (pre ++ p1)) /\
       r.2 = ganador_de <$> filter (alcanza k (pre ++ p1) b) cartones /\
       r.2 ≠ [] /\
       forall q1 b' q2, p1 = q1 ++ b' :: q2 ->
         forall c, c ∈ cartones -> ~ alcanza k (pre ++ q1) b' c).
Proof.
  induction pend as [|b pend IH]; intros pre; cbn zeta.
  - left. cbn [jugar fst snd]. split_and!; [done|by rewrite app_nil_r|].
    intros p1 b p2 Hp. by destruct p1.
  - cbn [jugar]. rewrite marcar_cartones_spec. cbn [app].
    assert (Hg : ganador_j <$> filter (completa_con k b) (tras pre <$> cartones)
                 = ganador_de <$> filter (alcanza k pre b) cartones).
    { rewrite filter_fmap_comp, <- list_fmap_compose.
      rewrite (filter_ext_elem (completa_con k b ∘ tras pre) (alcanza k pre b)).
      - done.
      - intros c _. apply completa_con_alcanza. }
    rewrite Hg.
    destruct (ganador_de <$> filter (alcanza k pre b) cartones) as [|g0 gs] eqn:Eg.
    + apply fmap_nil_inv in Eg. rewrite filter_nil_iff in Eg.
      specialize (IH (pre ++ [b])). cbn zeta in IH.
      rewrite <- (list_fmap_ext (marcada b ∘ tras pre) (tras (pre ++ [b])) cartones)
        in IH by (intros; simpl; apply marcada_tras).
      rewrite list_fmap_compose in IH.
      rewrite length_app in IH. cbn [length] in IH.
      replace (length pre + 1)%nat with (S (length pre)) in IH by lia.
      destruct IH as [(H1 & H2 & H3)|(p1 & b' & p2 & H1 & H2 & H3 & H4 & H5)].
      * left. split_and!; [done| |].
        -- rewrite H2. by rewrite <- app_assoc.
        -- intros q1 b' q2 Hq c Hc. destruct q1 as [|x q1].
           ++ injection Hq as <- _. rewrite app_nil_r. by apply Eg.
           ++ injection Hq as <- ->.
              replace (pre ++ b :: q1) with ((pre ++ [b]) ++ q1) by (by rewrite <- app_assoc).
              by eapply H3.
      * right. exists (b :: p1), b', p2.
        replace (pre ++ b :: p1) with ((pre ++ [b]) ++ p1) by (by rewrite <- app_assoc).
        split_and!; [by rewrite H1|done..|].
        intros q1 b'' q2 Hq c Hc. destruct q1 as [|x q1].
        -- injection Hq as <- _. rewrite app_nil_r. by apply Eg.
        -- injection Hq as <- ->.
           replace (pre ++ b :: q1) with ((pre ++ [b]) ++ q1) by (by rewrite <- app_assoc).
           by eapply H5.
    + right. exists [], b, pend. cbn [fst snd]. rewrite app_nil_r.
      split_and!; [done|done|done|done|].
      intros q1 b' q2 Hq. by destruct q1.
Qed.

(** Property X18.  [simular_jugada] for arbitrary cards, order of balls and threshold: either no ball of the order brings the hits of any card to exactly [numeros_por_carton], and then every ball is called and nobody wins; or the game stops at the first ball that does, and the winners are exactly the cards holding that ball whose hits it brings to [numeros_por_carton], in the order of the cards. *)
Theorem simular_jugada_general orden cartones k :
  let r := simular_jugada orden cartones k in
  cantidad_ganadores r = length (ganadores r) /\
  ((ganadores r = [] /\ bolillas_hasta_ganador r = length orden /\
    orden_bolillas r = orden /\
    forall pre b post, orden = pre ++ b :: post ->
      forall c, c ∈ cartones -> ~ alcanza k pre b c) \/
   (exists pre b post,
      orden = pre ++ b :: post /\
      bolillas_hasta_ganador r = S (length pre) /\
      orden_bolillas r = pre ++ [b] /\
      ganadores r = ganador_de <$> filter (alcanza k pre b) cartones /\
      ganadores r ≠ [] /\
      forall q1 b' q2, pre = q1 ++ b' :: q2 ->
        forall c, c ∈ cartones -> ~ alcanza k q1 b' c)).
Proof.
  intros r. destruct (simular_jugada_jugar orden cartones k) as (Hj & Hc & Ho).
  fold r in Hj, Hc, Ho. split; [done|].
  pose proof (jugar_general k cartones orden []) as Hgen. cbn zeta in Hgen.
  cbn [length app] in Hgen. rewrite <- Hj in Hgen. cbn [fst snd] in Hgen.
  destruct Hgen as [(H1 & H2 & H3)|(p1 & b & p2 & H1 & H2 & H3 & H4 & H5)].
  - left. split_and!; [done|done| |done].
    rewrite Ho, H2. apply firstn_all.
  - right. exists p1, b, p2. split_and!; try done.
    rewrite Ho, H2, H1.
    replace (p1 ++ b :: p2) with ((p1 ++ [b]) ++ p2) by (by rewrite <- app_assoc).
    apply take_app_length'. rewrite length_app. cbn. lia.
Qed.

(** Property X19.  When [numeros_por_carton] is not positive, or every card holds fewer than [numeros_por_carton] of the balls, [simular_jugada] calls every ball and returns no winner (also for an empty list of cards). *)
Theorem simular_jugada_sin_ganador orden cartones k :
  k <= 0 \/
  (forall c, c ∈ cartones ->
             Z.of_nat (size (numeros c ∩ list_to_set orden)) < k) ->
  simular_jugada orden cartones k
  = {| jugada_num := 0; bolillas_hasta_ganador := length orden;
       cantidad_ganadores := 0; ganadores := []; orden_bolillas := orden |}.
Proof.
  intros Hk.
  assert (Hno : forall pre b post, orden = pre ++ b :: post ->
                  forall c, c ∈ cartones -> ~ alcanza k pre b c).
  { intros pre b post Ho c Hc [Hb Hsz]. destruct Hk as [Hk|Hk].
    - assert (b ∈ numeros c ∩ list_to_set (pre ++ [b])).
      { rewrite list_to_set_app_L. set_solver. }
      assert (size (numeros c ∩ list_to_set (pre ++ [b])) ≠ 0%nat); [|lia].
      intros Hz%size_empty_inv. set_solver.
    - specialize (Hk c Hc).
      assert (Hsub : numeros c ∩ list_to_set (pre ++ [b])
                     ⊆ numeros c ∩ list_to_set orden).
      { rewrite Ho, !list_to_set_app_L, list_to_set_cons. set_solver. }
      apply subseteq_size in Hsub. lia. }
  pose proof (jugar_general k cartones orden []) as Hgen. cbn zeta in Hgen.
  cbn [length app] in Hgen.
  unfold simular_jugada.
  rewrite (list_fmap_ext _ (tras []) cartones).
  2:{ intros i c _. unfold tras. simpl. f_equal. set_solver. }
  destruct (jugar k orden (tras [] <$> cartones) [] 0) as [t g].
  cbn [fst snd] in Hgen.
  destruct Hgen as [(-> & -> & _)|(p1 & b & p2 & H1 & _ & H3 & H4 & _)].
  - by rewrite firstn_all.
  - exfalso. apply H4. rewrite H3.
    rewrite (proj2 (filter_nil_iff _ cartones)); [done|].
    intros c Hc. by eapply Hno.
Qed.

Lemma simular_jugada_sin_ganador_witness :
  simular_jugada [2; 1; 3; 4; 5] [Simulador.carton_de_tres] 10
  = {| jugada_num := 0; bolillas_hasta_ganador := 5;
       cantidad_ganadores := 0; Simulador.ganadores := []; orden_bolillas := [2; 1; 3; 4; 5] |}.
Proof.
  apply (simular_jugada_sin_ganador [2; 1; 3; 4; 5] [Simulador.carton_de_tres] 10).
  right. intros c ->%list_elem_of_singleton. vm_compute. reflexivity.
Defined.

End SimulacionGeneral.

Section ValidacionGeneral.

(** Property X20.  [validar_configuracion] returns [(True, [])] exactly for the configurations with a non-zero [bingos_por_fila], positive [numero_de_bingos], [0 < numeros_por_carton <= numero_maximo], [numero_de_bingos] a multiple of [bingos_por_fila], and at most C(numero_maximo, numeros_por_carton) combinations needed. *)
Theorem validar_configuracion_acepta config :
  validar_configuracion config = Ok (true, []) <->
  bingos_por_fila config ≠ 0 /\
  0 < numero_de_bingos config /\
  0 < numeros_por_carton config <= numero_maximo config /\
  numero_de_bingos config `mod` bingos_por_fila config = 0 /\
  numero_de_bingos config * cartones_por_bingo config
    <= binomial (Z.to_nat (numero_maximo config)) (Z.to_nat (numeros_por_carton config)).
Proof.
  split.
  - intros Hok.
    assert (Hb : bingos_por_fila config ≠ 0).
    { intros Hb. unfold validar_configuracion, mod_ in Hok.
      rewrite decide_True in Hok by done.
      cbn [mbind resultado_bind bind] in Hok. discriminate Hok. }
    assert (Hmk : ~ (numero_maximo config < 0 \/ numeros_por_carton config < 0)).
    { intros Hmk. unfold validar_configuracion, mod_, comb in Hok.
      rewrite (decide_False (P := bingos_por_fila config = 0)) in Hok by done.
      cbn [mbind resultado_bind bind] in Hok.
      rewrite decide_True in Hok by done.
      cbn [mbind resultado_bind bind] in Hok. discriminate Hok. }
    destruct (validar_configuracion_sin_excepcion config Hb) as (errores & Hv & H);
      [lia..|].
    rewrite Hv in Hok. apply Ok_inj in Hok. injection Hok as _ ->.
    destruct H as (_ & _ & _ & _ & _ & _ & Hnil).
    pose proof (proj1 Hnil eq_refl). split; [done|]. lia.
  - intros (Hb & Hn & Hk & Hmod & Hnec).
    destruct (validar_configuracion_sin_excepcion config Hb) as (errores & Hv & H);
      [lia..|].
    destruct H as (_ & _ & _ & _ & _ & _ & Hnil).
    assert (errores = []) as -> by (apply Hnil; lia).
    by rewrite Hv.
Qed.

(** Property X21.  [validar_configuracion] raises exactly in two cases: [ZeroDivisionError] when [bingos_por_fila] is zero, and otherwise [ValueError] when [numero_maximo] or [numeros_por_carton] is negative. *)
Theorem validar_configuracion_excepcion config e :
  validar_configuracion config = Raise e <->
  (bingos_por_fila config = 0 /\ e = ZeroDivisionError) \/
  (bingos_por_fila config ≠ 0 /\
   (numero_maximo config < 0 \/ numeros_por_carton config < 0) /\
   e = ValueError).
Proof.
  unfold validar_configuracion, mod_, comb.
  destruct (decide (bingos_por_fila config = 0)) as [Hb|Hb];
    cbn [mbind resultado_bind bind].
  { split; [intros [= <-]; by left|]. intros [[_ ->]|[? _]]; done. }
  destruct (decide (numero_maximo config < 0 \/ numeros_por_carton config < 0)) as [Hmk|Hmk];
    cbn [mbind resultado_bind bind].
  - split; [intros [= <-]; by right|]. intros [[? _]|(_ & _ & ->)]; done.
  - split; [done|]. intros [[? _]|(_ & ? & _)]; done.
Qed.

End ValidacionGeneral.

Section GeneracionGeneral.

Lemma generar_bucle_resultado config muestras necesarias :
  forall fuel i X,
    generar_bucle config muestras necesarias fuel i (vistos muestras i) = Some (Ok X) ->
    exists j, (i <= j <= i + fuel)%nat /\ X = vistos muestras j /\
              necesarias <= Z.of_nat (size X) /\
              ((i < j)%nat ->
               Z.of_nat (size X) <= necesarias /\
               0 <= numeros_por_carton config <= Z.max 0 (numero_maximo config)).
Proof.
  induction fuel as [|fuel IH]; intros i X; cbn [generar_bucle].
  - case_decide as Hlt; [done|]. intros [= <-]. exists i. split_and!; [lia|lia|done|lia|lia].
  - case_decide as Hlt.
    2:{ intros [= <-]. exists i. split_and!; [lia|lia|done|lia|lia]. }
    unfold random_sample. case_decide as Hk; [done|].
    rewrite <- vistos_S. intros Hrec.
    destruct (IH (S i) X Hrec) as (j & Hj & -> & Hnec & Hsup).
    exists j. split_and!; [lia|lia|done|done|]. intros _.
    rewrite length_range in Hk.
    destruct (decide (S i < j)%nat) as [Hij|Hij].
    + destruct (Hsup Hij) as [? ?]. split; [done|lia].
    + assert (j = S i) as -> by lia.
      pose proof (size_vistos_S muestras i). split; lia.
Qed.

(** Property X22.  Whatever lists the sampler returns, a pool that [generar_combinaciones] returns has no two equal tuples and exactly [max 0 (numero_de_bingos * cartones_por_bingo)] of them, and each tuple is the sorted arrangement of one of the samples drawn. *)
Theorem generar_combinaciones_sin_repetidos config muestras fuel cartones :
  generar_combinaciones config muestras fuel = Some (Ok cartones) ->
  NoDup cartones /\
  Z.of_nat (length cartones)
    = Z.max 0 (numero_de_bingos config * cartones_por_bingo config) /\
  forall carton, carton ∈ cartones ->
    StronglySorted Z.le carton /\
    exists i, (i < fuel)%nat /\ carton = sorted (muestras i).
Proof.
  unfold generar_combinaciones.
  destruct (generar_bucle _ _ _ _ _ _) as [[X|e]|] eqn:Hb; [|done..].
  cbn. intros [= <-].
  change (∅ : gset (list Z)) with (vistos muestras 0) in Hb.
  apply generar_bucle_resultado in Hb as (j & Hj & -> & Hnec & Hsup).
  split_and!.
  - apply NoDup_elements.
  - change (length (elements (vistos muestras j))) with (size (vistos muestras j)).
    destruct j as [|j].
    + unfold vistos in Hnec |- *. cbn [seq fmap list_fmap] in Hnec |- *.
      rewrite list_to_set_nil, size_empty in Hnec |- *. lia.
    + destruct Hsup as [? _]; lia.
  - intros carton Hc%elem_of_elements. apply elem_of_vistos in Hc as (i & Hi & ->).
    split.
    + apply StronglySorted_merge_sort; apply _.
    + exists i. split; [lia|done].
Qed.

Lemma generar_combinaciones_sin_repetidos_witness :
  NoDup cartones_ejemplo /\
  Z.of_nat (length cartones_ejemplo) = Z.max 0 (2 * 3) /\
  forall carton, carton ∈ cartones_ejemplo ->
    StronglySorted Z.le carton /\
    exists i, (i < 6)%nat /\ carton = sorted (muestras_ejemplo i).
Proof.
  apply (generar_combinaciones_sin_repetidos (config_ejemplo 2 2 4 3 2) muestras_ejemplo 6).
  vm_compute. reflexivity.
Defined.

(** Property X23.  When no combination is needed ([numero_de_bingos * cartones_por_bingo <= 0]) [generar_combinaciones] returns the empty pool without sampling; when one is needed and [numeros_por_carton] is negative or larger than the population 1..[numero_maximo], the first sample raises [ValueError]. *)
Theorem generar_combinaciones_casos_limite config muestras fuel :
  (numero_de_bingos config * cartones_por_bingo config <= 0 ->
   generar_combinaciones config muestras fuel = Some (Ok [])) /\
  (0 < numero_de_bingos config * cartones_por_bingo config ->
   numeros_por_carton config < 0 \/
   Z.max 0 (numero_maximo config) < numeros_por_carton config ->
   generar_combinaciones config muestras (S fuel) = Some (Raise ValueError)).
Proof.
  unfold generar_combinaciones. split.
  - intros Hnec. destruct fuel; cbn [generar_bucle];
      rewrite decide_False by (rewrite size_empty; lia); cbn; by rewrite elements_empty.
  - intros Hnec Hk. cbn [generar_bucle].
    rewrite decide_True by (rewrite size_empty; lia).
    unfold random_sample. rewrite length_range.
    rewrite decide_True by lia. done.
Qed.

End GeneracionGeneral.

Section Estadisticas.
Import Simulador Carga.

Lemma foldl_min_spec (l : list nat) :
  forall x, let m := foldl Nat.min x l in
    (m <= x)%nat /\ (forall y, y ∈ l -> (m <= y)%nat) /\ (m = x \/ m ∈ l).
Proof.
  induction l as [|y l IH]; intros x; cbn [foldl]; cbn zeta.
  - split_and!; [lia| |by left]. intros y Hy. by apply elem_of_nil in Hy.
  - destruct (Nat.min_spec x y) as [[Hxy E]|[Hxy E]]; rewrite E.
    + destruct (IH x) as (H1 & H2 & H3). split_and!; [done| |].
      * intros z [->|Hz]%elem_of_cons; [lia|by apply H2].
      * destruct H3 as [H3|H3]; [by left|right; by right].
    + destruct (IH y) as (H1 & H2 & H3). split_and!; [lia| |].
      * intros z [->|Hz]%elem_of_cons; [lia|by apply H2].
      * right. destruct H3 as [->|H3]; [left|by right].
Qed.

Lemma foldl_max_spec (l : list nat) :
  forall x, let m := foldl Nat.max x l in
    (x <= m)%nat /\ (forall y, y ∈ l -> (y <= m)%nat) /\ (m = x \/ m ∈ l).
Proof.
  induction l as [|y l IH]; intros x; cbn [foldl]; cbn zeta.
  - split_and!; [lia| |by left]. intros y Hy. by apply elem_of_nil in Hy.
  - destruct (Nat.max_spec x y) as [[Hxy E]|[Hxy E]]; rewrite E.
    + destruct (IH y) as (H1 & H2 & H3). split_and!; [lia| |].
      * intros z [->|Hz]%elem_of_cons; [lia|by apply H2].
      * right. destruct H3 as [->|H3]; [left|by right].
    + destruct (IH x) as (H1 & H2 & H3). split_and!; [done| |].
      * intros z [->|Hz]%elem_of_cons; [lia|by apply H2].
      * destruct H3 as [H3|H3]; [by left|right; by right].
Qed.

Lemma min_lista_spec l :
  match min_lista l with
  | Raise e => l = [] /\ e = ValueError
  | Ok m => m ∈ l /\ forall y, y ∈ l -> (m <= y)%nat
  end.
Proof.
  destruct l as [|x l]; cbn [min_lista]; [done|].
  destruct (foldl_min_spec l x) as (H1 & H2 & H3). split.
  - destruct H3 as [->|H3]; [left|by right].
  - intros y [->|Hy]%elem_of_cons; [done|by apply H2].
Qed.

Lemma max_lista_spec l :
  match max_lista l with
  | Raise e => l = [] /\ e = ValueError
  | Ok m => m ∈ l /\ forall y, y ∈ l -> (y <= m)%nat
  end.
Proof.
  destruct l as [|x l]; cbn [max_lista]; [done|].
  destruct (foldl_max_spec l x) as (H1 & H2 & H3). split.
  - destruct H3 as [->|H3]; [left|by right].
  - intros y [->|Hy]%elem_of_cons; [done|by apply H2].
Qed.

Lemma sum_sumar {A} `{EqDecision A} (x : A) c :
  sum_list (snd <$> sumar x c) = S (sum_list (snd <$> c)).
Proof.
  induction c as [|[y n] c IH]; cbn [sumar]; [done|].
  case_decide; rewrite !fmap_cons; simpl; [lia|].
  simpl in IH. rewrite IH. lia.
Qed.

Lemma sum_Counter {A} `{EqDecision A} (l : list A) :
  sum_list (snd <$> Counter l) = length l.
Proof.
  unfold Counter.
  assert (H0 : forall c, sum_list (snd <$> foldl (fun c x => sumar x c) c l)
                         = (sum_list (snd <$> c) + length l)%nat).
  { induction l as [|x l IH]; intros c; cbn [foldl length]; [lia|].
    rewrite IH, sum_sumar. lia. }
  by rewrite H0.
Qed.

Lemma most_common_1_spec {A} (c : list (A * nat)) :
  forall mejor,
    match foldl (fun mejor e =>
                   match mejor with
                   | None => Some e
                   | Some m => if decide (m.2 < e.2)%nat then Some e else Some m
                   end) mejor c with
    | None => mejor = None /\ c = []
    | Some m =>
        (Some m = mejor \/ m ∈ c) /\
        (forall e, e ∈ c -> (e.2 <= m.2)%nat) /\
        (forall b, mejor = Some b -> (b.2 <= m.2)%nat)
    end.
Proof.
  induction c as [|e c IH]; intros mejor; cbn [foldl].
  - destruct mejor as [m|]; [|done]. split_and!; [by left| |].
    + intros e He. by apply elem_of_nil in He.
    + by intros b [= ->].
  - match goal with |- context [foldl ?f ?b c] => specialize (IH b) end.
    destruct (foldl _ _ c) as [m|].
    + destruct IH as (H1 & H2 & H3). destruct mejor as [b|].
      * case_decide as Hlt.
        -- split_and!.
           ++ destruct H1 as [[= ->]|H1]; right; [left|by right].
           ++ intros e' [->|He']%elem_of_cons; [by apply H3|by apply H2].
           ++ intros b' [= ->]. specialize (H3 e eq_refl). lia.
        -- split_and!.
           ++ destruct H1 as [H1|H1]; [by left|right; by right].
           ++ intros e' [->|He']%elem_of_cons; [|by apply H2].
              specialize (H3 b eq_refl). lia.
           ++ intros b' [= ->]. by apply H3.
      * split_and!.
        -- destruct H1 as [[= ->]|H1]; right; [left|by right].
        -- intros e' [->|He']%elem_of_cons; [by apply H3|by apply H2].
        -- done.
    + destruct IH as [IH _]. by destruct mejor; [case_decide|].
Qed.

Lemma calcular_estadisticas_casos_aux resultados :
  match calcular_estadisticas resultados with
  | Raise e => resultados = [] /\ e = ValueError
  | Ok est =>
      resultados ≠ [] /\
      (exists r, r ∈ resultados /\ bolillas_hasta_ganador r = bolillas_min est) /\
      (exists r, r ∈ resultados /\ bolillas_hasta_ganador r = bolillas_max est) /\
      (exists r, r ∈ resultados /\ cantidad_ganadores r = ganadores_max est) /\
      (forall r, r ∈ resultados ->
         (bolillas_min est <= bolillas_hasta_ganador r <= bolillas_max est)%nat /\
         (cantidad_ganadores r <= ganadores_max est)%nat) /\
      sum_list (snd <$> distribucion_ganadores est) = length resultados /\
      sum_list (snd <$> frecuencia_cartones est)
        = sum_list ((fun r => length (ganadores r)) <$> resultados) /\
      (forall e, e ∈ frecuencia_cartones est -> (e.2 <= (top_carton est).2)%nat) /\
      (forall e, e ∈ frecuencia_bingos est -> (e.2 <= (top_bingo est).2)%nat)
  end.
Proof.
  unfold calcular_estadisticas.
  pose proof (min_lista_spec (bolillas_hasta_ganador <$> resultados)) as Hmin.
  pose proof (max_lista_spec (bolillas_hasta_ganador <$> resultados)) as Hmax.
  pose proof (max_lista_spec (cantidad_ganadores <$> resultados)) as Hgan.
  destruct (min_lista _) as [mi|e].
  2:{ destruct Hmin as [Hnil ->]. by apply fmap_nil_inv in Hnil. }
  destruct (max_lista (bolillas_hasta_ganador <$> resultados)) as [ma|e].
  2:{ destruct Hmax as [Hnil ->]. by apply fmap_nil_inv in Hnil. }
  destruct (max_lista (cantidad_ganadores <$> resultados)) as [mg|e].
  2:{ destruct Hgan as [Hnil ->]. by apply fmap_nil_inv in Hnil. }
  cbn [mbind resultado_bind bind bolillas_min bolillas_max ganadores_max
         distribucion_ganadores frecuencia_cartones frecuencia_bingos top_carton top_bingo].
  destruct Hmin as [Hmi1 Hmi2], Hmax as [Hma1 Hma2], Hgan as [Hg1 Hg2].
  split_and!.
  - intros ->. by apply elem_of_nil in Hmi1.
  - apply list_elem_of_fmap in Hmi1 as (r & -> & Hr). by exists r.
  - apply list_elem_of_fmap in Hma1 as (r & -> & Hr). by exists r.
  - apply list_elem_of_fmap in Hg1 as (r & -> & Hr). by exists r.
  - intros r Hr. split_and!.
    + apply Hmi2, list_elem_of_fmap. by exists r.
    + apply Hma2, list_elem_of_fmap. by exists r.
    + apply Hg2, list_elem_of_fmap. by exists r.
  - by rewrite sum_Counter, length_fmap.
  - rewrite sum_Counter. clear. induction resultados as [|r rs IH]; [done|].
    cbn [mbind list_bind fmap list_fmap sum_list]. rewrite length_app, length_fmap.
    rewrite IH. reflexivity.
  - intros e He. unfold most_common_1.
    pose proof (most_common_1_spec
                  (Counter (resultados ≫= (fun r => g_carton_tipo <$> ganadores r))) None)
      as Htop.
    destruct (foldl _ None _) as [m|].
    + cbn [default]. destruct Htop as (_ & H2 & _). by apply H2.
    + destruct Htop as [_ Hnil]. rewrite Hnil in He. by apply elem_of_nil in He.
  - intros e He. unfold most_common_1.
    pose proof (most_common_1_spec
                  (Counter (resultados ≫= (fun r => g_bingo_id <$> ganadores r))) None)
      as Htop.
    destruct (foldl _ None _) as [m|].
    + cbn [default]. destruct Htop as (_ & H2 & _). by apply H2.
    + destruct Htop as [_ Hnil]. rewrite Hnil in He. by apply elem_of_nil in He.
Qed.

(** Property X28.  [calcular_estadisticas] raises [ValueError] exactly on an empty list of games.  Otherwise [bolillas_min], [bolillas_max] and [ganadores_max] are attained by some game and bound every game, the counts of [distribucion_ganadores] add up to the number of games and those of [frecuencia_cartones] to the number of winners, and no sheet or slot has more wins than [top_bingo] and [top_carton] report. *)
Theorem calcular_estadisticas_casos resultados :
  match calcular_estadisticas resultados with
  | Raise e => resultados = [] /\ e = ValueError
  | Ok est =>
      resultados ≠ [] /\
      (exists r, r ∈ resultados /\ bolillas_hasta_ganador r = bolillas_min est) /\
      (exists r, r ∈ resultados /\ bolillas_hasta_ganador r = bolillas_max est) /\
      (exists r, r ∈ resultados /\ cantidad_ganadores r = ganadores_max est) /\
      (forall r, r ∈ resultados ->
         (bolillas_min est <= bolillas_hasta_ganador r <= bolillas_max est)%nat /\
         (cantidad_ganadores r <= ganadores_max est)%nat) /\
      sum_list (snd <$> distribucion_ganadores est) = length resultados /\
      sum_list (snd <$> frecuencia_cartones est)
        = sum_list ((fun r => length (ganadores r)) <$> resultados) /\
      (forall e, e ∈ frecuencia_cartones est -> (e.2 <= (top_carton est).2)%nat) /\
      (forall e, e ∈ frecuencia_bingos est -> (e.2 <= (top_bingo est).2)%nat)
  end.
Proof. apply calcular_estadisticas_casos_aux. Qed.

Lemma jugada_con_ganador M k cartones orden :
  0 < k ->
  es_orden_de M orden ->
  cartones ≠ [] ->
  (forall c, c ∈ cartones ->
             Z.of_nat (size (numeros c)) = k /\
             forall x, x ∈ numeros c -> 1 <= x <= M) ->
  let r := simular_jugada orden cartones k in
  ganadores r ≠ [] /\
  (1 <= cantidad_ganadores r)%nat /\
  k <= Z.of_nat (bolillas_hasta_ganador r) <= M.
Proof.
  intros Hk Hord Hne Hcs r.
  assert (Hcs1 : forall c, c ∈ cartones -> Z.of_nat (size (numeros c)) = k)
    by (intros c Hc; by apply Hcs).
  destruct (simular_jugada_spec M k cartones orden Hk Hord Hcs1)
    as (H1 & H2 & H3 & H4).
  fold r in H1, H2, H3, H4.
  destruct (simular_jugada_jugar orden cartones k) as (_ & Hcant & _).
  fold r in Hcant.
  assert (Hgan : ganadores r ≠ []).
  { intros Hnil. specialize (H4 Hnil). rewrite H2, H4, firstn_all in Hnil.
    apply fmap_nil_inv in Hnil. rewrite filter_nil_iff in Hnil.
    destruct cartones as [|c cs]; [done|].
    apply (Hnil c); [left|]. intros x Hx. rewrite elem_of_list_to_set.
    apply (es_orden_de_elem M orden x Hord). apply (Hcs c); [left|done]. }
  split_and!; [done| | |].
  - rewrite Hcant. destruct (ganadores r); [done|simpl; lia].
  - destruct (filter (fun c => numeros c ⊆
                list_to_set (take (bolillas_hasta_ganador r) orden)) cartones)
      as [|c cs] eqn:Ef.
    { rewrite H2 in Hgan. done. }
    assert (Hc : c ∈ filter (fun c => numeros c ⊆
                list_to_set (take (bolillas_hasta_ganador r) orden)) cartones)
      by (rewrite Ef; left).
    apply list_elem_of_filter in Hc as [Hsub Hc].
    apply size_cubierto in Hsub. specialize (Hcs1 c Hc). lia.
  - rewrite (es_orden_de_length M orden Hord) in H1.
    destruct cartones as [|c cs]; [done|].
    destruct (Hcs c) as [Hsz Hr]; [left|].
    destruct (decide (0 <= M)); [lia|].
    destruct (size (numeros c)) eqn:E; [lia|].
    assert (Hex : exists x, x ∈ numeros c).
    { apply set_choose_L. intros He. rewrite He, size_empty in E. done. }
    destruct Hex as [x Hx]. specialize (Hr x Hx). lia.
Qed.

Lemma simular_jugadas_spec cartones ordenes n :
  forall i acc,
    simular_jugadas cartones ordenes ((fun k : nat => 0 + Z.of_nat k) <$> seq i n) i acc
    = acc ++ ((fun k : nat =>
                 con_jugada_num (simular_jugada (ordenes k) cartones 10) (Z.of_nat k + 1))
                <$> seq i n).
Proof.
  induction n as [|n IH]; intros i acc; cbn [seq fmap list_fmap simular_jugadas].
  - by rewrite app_nil_r.
  - rewrite IH, <- app_assoc. by rewrite Z.add_0_l.
Qed.

(** Property X29.  A simulation of [numero_jugadas >= 1] games over a loaded, non-empty list of cards of ten different numbers of 1..60, each game with some order of the balls 1..60: it succeeds with [numero_jugadas] results, the game [i] numbered [i + 1], every game with a winner after 10 to 60 balls, and statistics with [10 <= bolillas_min <= bolillas_max <= 60] and [ganadores_max >= 1]. *)
Theorem ejecutar_simulacion_estadisticas df ordenes numero_jugadas cartones :
  cargar_cartones_corel df = Ok cartones ->
  cartones ≠ [] ->
  (forall c, c ∈ cartones ->
     size (numeros c) = 10%nat /\ forall x, x ∈ numeros c -> 1 <= x <= 60) ->
  (forall i, es_orden_de 60 (ordenes i)) ->
  0 < numero_jugadas ->
  exists est resultados,
    ejecutar_simulacion df ordenes numero_jugadas
      = Ok (SimulacionCompletada numero_jugadas est resultados) /\
    Z.of_nat (length resultados) = numero_jugadas /\
    (forall i r, resultados !! i = Some r ->
       r = con_jugada_num (simular_jugada (ordenes i) cartones 10) (Z.of_nat i + 1) /\
       ganadores r ≠ [] /\
       (10 <= bolillas_hasta_ganador r <= 60)%nat) /\
    (10 <= bolillas_min est)%nat /\ (bolillas_min est <= bolillas_max est)%nat /\
    (bolillas_max est <= 60)%nat /\ (1 <= ganadores_max est)%nat.
Proof.
  intros Hcarga Hne Hcs Hord Hn. unfold ejecutar_simulacion. rewrite Hcarga.
  unfold range. rewrite Z.sub_0_r, simular_jugadas_spec. cbn [app].
  set (rs := (fun k : nat => con_jugada_num (simular_jugada (ordenes k) cartones 10)
                               (Z.of_nat k + 1)) <$> seq 0 (Z.to_nat numero_jugadas)).
  assert (Hrs : forall i r, rs !! i = Some r ->
            r = con_jugada_num (simular_jugada (ordenes i) cartones 10) (Z.of_nat i + 1) /\
            ganadores r ≠ [] /\ (1 <= cantidad_ganadores r)%nat /\
            (10 <= bolillas_hasta_ganador r <= 60)%nat).
  { intros i r Hr. unfold rs in Hr. rewrite list_lookup_fmap in Hr.
    destruct (seq 0 (Z.to_nat numero_jugadas) !! i) as [k|] eqn:Hk; [|done].
    apply lookup_seq in Hk as [-> _]. cbn in Hr. injection Hr as <-.
    destruct (jugada_con_ganador 60 10 cartones (ordenes i)) as (H1 & H2 & H3);
      [lia|done|done| |].
    { intros c Hc. destruct (Hcs c Hc) as [Hsz Hran]. split; [lia|done]. }
    cbn [con_jugada_num ganadores cantidad_ganadores bolillas_hasta_ganador].
    split_and!; [done|done|done|lia|lia]. }
  pose proof (calcular_estadisticas_casos_aux rs) as Hest.
  destruct (calcular_estadisticas rs) as [est|e].
  2:{ destruct Hest as [Hnil _]. exfalso.
      apply (f_equal length) in Hnil. unfold rs in Hnil.
      rewrite length_fmap, length_seq in Hnil. cbn in Hnil. lia. }
  cbn [mbind resultado_bind bind]. exists est, rs.
  destruct Hest as (_ & (r1 & Hr1 & Hmin) & (r2 & Hr2 & Hmax) & (r3 & Hr3 & Hg) & Hall & _).
  apply list_elem_of_lookup in Hr1 as [i1 Hr1], Hr2 as [i2 Hr2], Hr3 as [i3 Hr3].
  destruct (Hrs _ _ Hr1) as (_ & _ & _ & ?), (Hrs _ _ Hr2) as (_ & _ & _ & ?),
    (Hrs _ _ Hr3) as (_ & _ & ? & _).
  destruct (Hall r2 (list_elem_of_lookup_2 _ _ _ Hr2)) as [? _].
  split_and!; [done| | |lia..].
  - unfold rs. rewrite length_fmap, length_seq. lia.
  - intros i r Hr. destruct (Hrs i r Hr) as (? & ? & _ & ?). done.
Qed.

Lemma ejecutar_simulacion_estadisticas_witness :
  exists est resultados,
    ejecutar_simulacion [BingoLive.fila_ejemplo] ordenes_ejemplo 2
      = Ok (SimulacionCompletada 2 est resultados) /\
    Z.of_nat (length resultados) = 2 /\
    (10 <= bolillas_min est)%nat /\ (bolillas_min est <= bolillas_max est)%nat /\
    (bolillas_max est <= 60)%nat /\ (1 <= ganadores_max est)%nat.
Proof.
  destruct (ejecutar_simulacion_estadisticas [BingoLive.fila_ejemplo] ordenes_ejemplo 2
              cartones_simulados) as (est & rs & H1 & H2 & _ & H3).
  - vm_compute. reflexivity.
  - vm_compute. discriminate.
  - assert (Hall : Forall (fun c => size (Simulador.numeros c) = 10%nat /\
                             set_Forall (fun x => 1 <= x <= 60) (Simulador.numeros c))
                     cartones_simulados).
    { apply (bool_decide_unpack _). vm_compute. exact I. }
    intros c Hc. rewrite Forall_forall in Hall. apply (Hall c Hc).
  - intros i. unfold es_orden_de, ordenes_ejemplo. reflexivity.
  - lia.
  - exists est, rs. split; [exact H1|]. split; [exact H2|exact H3].
Defined.

(** Property X30.  [ejecutar_simulacion] turns the [IndexError] of the loader on a row of fewer than 32 cells into a failed result; with a table that loads and [numero_jugadas <= 0] no game is played and the [ValueError] of [calcular_estadisticas] on the empty list escapes. *)
Theorem ejecutar_simulacion_fallos df ordenes numero_jugadas :
  (Exists (fun fila => (length fila < 32)%nat) df ->
   ejecutar_simulacion df ordenes numero_jugadas = Ok (ErrorAlCargar IndexError)) /\
  (Forall (fun fila => (32 <= length fila)%nat) df -> numero_jugadas <= 0 ->
   ejecutar_simulacion df ordenes numero_jugadas = Raise ValueError).
Proof.
  pose proof (cargar_cartones_casos df) as Hc. unfold ejecutar_simulacion. split.
  - intros Hex. rewrite bool_decide_eq_true_2 in Hc by done.
    destruct Hc as [-> _]. done.
  - intros Hall Hn. rewrite bool_decide_eq_false_2 in Hc.
    2:{ intros Hex. apply Exists_exists in Hex as (fila & Hf & Hlt).
        rewrite Forall_forall in Hall. specialize (Hall fila Hf). lia. }
    destruct Hc as (cs & cv & -> & _).
    replace (range 0 numero_jugadas) with (@nil Z); [done|].
    unfold range. by replace (Z.to_nat (numero_jugadas - 0)) with 0%nat by lia.
Qed.

End Estadisticas.

Section IdaYVuelta.
Import Carga.

Lemma crear_dataframe_corel_filas pool config :
  2 <= bingos_por_fila config ->
  cartones_por_bingo config = 3 ->
  Z.of_nat (length pool) = numero_de_bingos config * cartones_por_bingo config ->
  Forall (fun c => Z.of_nat (length c) = numeros_por_carton config) pool ->
  let filas := Z.to_nat (numero_de_bingos config `div` bingos_por_fila config) in
  exists df,
    crear_dataframe_corel pool config = Ok df /\
    length (filas_df df) = filas /\
    (forall r, (r < filas)%nat ->
       exists a b c d e f,
         pool !! (r * 3)%nat = Some a /\
         pool !! (r * 3 + 1)%nat = Some b /\
         pool !! (r * 3 + 2)%nat = Some c /\
         pool !! ((filas + r) * 3)%nat = Some d /\
         pool !! ((filas + r) * 3 + 1)%nat = Some e /\
         pool !! ((filas + r) * 3 + 2)%nat = Some f /\
         filas_df df !! r =
           Some ([Texto (fmt04d (Z.of_nat r + 1))] ++
                 (Numero <$> a ++ b ++ c) ++
                 [Texto (fmt04d (numero_de_bingos config `div` 2 + 1 + Z.of_nat r))] ++
                 (Numero <$> d ++ e ++ f))).
Proof.
  intros Hbpf Hcpb Hlen Hk filas.
  set (n := numero_de_bingos config) in *.
  assert (Hn : 0 <= n) by lia.
  assert (Hdiv : 0 <= n `div` bingos_por_fila config) by (apply Z.div_pos; lia).
  assert (Hdos : 2 * (n `div` bingos_por_fila config) <= n).
  { pose proof (Z.div_le_compat_l n 2 (bingos_por_fila config) Hn ltac:(lia)).
    pose proof (Z.mul_div_le n 2 ltac:(lia)). lia. }
  assert (Hcabe : (2 * (filas * 3) <= length pool)%nat) by lia.
  destruct (corel_bucle_filas pool config filas Hcpb filas 0%nat [])
    as (nuevas & Hmap & Hbucle).
  { intros r Hr. unfold fila_emparejada.
    destruct (cartones_desde_tres_Some pool (r * 3)) as [izq ->]; [lia|].
    destruct (cartones_desde_tres_Some pool ((filas + r) * 3)) as [der ->]; [lia|].
    by eexists. }
  fold n in Hmap, Hbucle.
  apply mapM_Some in Hmap.
  assert (Hfilas : forall r, (r < filas)%nat ->
    exists a b c d e f,
      pool !! (r * 3)%nat = Some a /\
      pool !! (r * 3 + 1)%nat = Some b /\
      pool !! (r * 3 + 2)%nat = Some c /\
      pool !! ((filas + r) * 3)%nat = Some d /\
      pool !! ((filas + r) * 3 + 1)%nat = Some e /\
      pool !! ((filas + r) * 3 + 2)%nat = Some f /\
      nuevas !! r =
        Some ([Texto (fmt04d (Z.of_nat r + 1))] ++
              (Numero <$> a ++ b ++ c) ++
              [Texto (fmt04d (n `div` 2 + 1 + Z.of_nat r))] ++
              (Numero <$> d ++ e ++ f))).
  { intros r Hr.
    destruct (Forall2_lookup_l _ _ _ r r Hmap) as (fila & Hfila & Hspec).
    { apply lookup_seq_lt. lia. }
    unfold fila_emparejada in Hspec.
    destruct (cartones_desde pool (r * 3) 3) as [izq|] eqn:Hizq; [|done].
    destruct (cartones_desde pool ((filas + r) * 3) 3) as [der|] eqn:Hder; [|done].
    apply cartones_desde_tres in Hizq as (a & b & c & -> & Ha & Hb & Hc).
    apply cartones_desde_tres in Hder as (d & e & f & -> & Hd & He & Hf).
    exists a, b, c, d, e, f.
    replace (r * 3 + 1)%nat with (S (r * 3)) by lia.
    replace (r * 3 + 2)%nat with (S (S (r * 3))) by lia.
    replace ((filas + r) * 3 + 1)%nat with (S ((filas + r) * 3)) by lia.
    replace ((filas + r) * 3 + 2)%nat with (S (S ((filas + r) * 3))) by lia.
    split_and!; try done.
    rewrite Hfila. cbn in Hspec. apply (inj Some) in Hspec. rewrite <- Hspec.
    cbn [concat app]. by rewrite !app_nil_r. }
  assert (Hlenf : length nuevas = filas).
  { apply Forall2_length in Hmap. by rewrite length_seq in Hmap. }
  exists {| columns :=
              ["CARTON 1"%string]
                ++ mjoin ((fun letra => encabezados letra config) <$> ["A"; "B"; "C"]%string)
                ++ ["CARTON 2"%string]
                ++ mjoin ((fun letra => encabezados letra config) <$> ["D"; "E"; "F"]%string);
            filas_df := nuevas |}.
  split_and!; [|done|done].
  unfold crear_dataframe_corel, floordiv.
  rewrite decide_False by lia. cbn [mbind resultado_bind bind].
  fold n.
  replace (n `div` bingos_por_fila config) with (Z.of_nat filas) by lia.
  unfold range at 1. rewrite Z.sub_0_r, Nat2Z.id.
  change (Z.of_nat 0 + 1) with 1 in Hbucle.
  change (Z.of_nat 0) with 0 in Hbucle. rewrite Z.add_0_r in Hbucle.
  rewrite Hbucle. cbn [mbind resultado_bind bind app].
  apply crear_DataFrame_ancho.
  apply Forall_lookup. intros r fila Hfila.
  assert (Hr : (r < filas)%nat) by (rewrite <- Hlenf; by eapply lookup_lt_Some).
  destruct (Hfilas r Hr) as (a & b & c & d & e & f & Ha & Hb & Hc & Hd & He & Hf & Hrow).
  rewrite Hfila in Hrow. apply (inj Some) in Hrow. subst fila.
  rewrite Forall_forall in Hk.
  pose proof (Hk a (list_elem_of_lookup_2 _ _ _ Ha)).
  pose proof (Hk b (list_elem_of_lookup_2 _ _ _ Hb)).
  pose proof (Hk c (list_elem_of_lookup_2 _ _ _ Hc)).
  pose proof (Hk d (list_elem_of_lookup_2 _ _ _ Hd)).
  pose proof (Hk e (list_elem_of_lookup_2 _ _ _ He)).
  pose proof (Hk f (list_elem_of_lookup_2 _ _ _ Hf)).
  cbn [fmap list_fmap mjoin list_join].
  repeat rewrite ?length_app, ?length_cons, ?length_nil, ?length_fmap, ?length_encabezados.
  cbn [length]. lia.
Qed.

Lemma leida_numeros l t : Forall2 celda_leida (Numero <$> l) t -> t = l.
Proof.
  revert t. induction l as [|x l IH]; intros t; cbn [fmap list_fmap].
  - by intros ->%Forall2_nil_inv_l.
  - intros (z & t' & Hz & Ht & ->)%Forall2_cons_inv_l. cbn in Hz. subst z.
    f_equal. by apply IH.
Qed.

Lemma iloc_slice_medio {A} (l1 m l2 : list A) :
  iloc_slice (l1 ++ m ++ l2) (length l1) (length l1 + length m) = m.
Proof.
  unfold iloc_slice. rewrite drop_app_length.
  replace (length l1 + length m - length l1)%nat with (length m) by lia.
  apply take_app_length.
Qed.

Lemma lectura_fila z1 z2 (a b c d e f : list Z) :
  length a = 10%nat -> length b = 10%nat -> length c = 10%nat ->
  length d = 10%nat -> length e = 10%nat -> length f = 10%nat ->
  lectura_spec 10 ([z1] ++ (a ++ b ++ c) ++ [z2] ++ (d ++ e ++ f))
  = Some [ (z1, "A"%string, list_to_set a); (z1, "B"%string, list_to_set b);
           (z1, "C"%string, list_to_set c); (z2, "D"%string, list_to_set d);
           (z2, "E"%string, list_to_set e); (z2, "F"%string, list_to_set f) ].
Proof.
  intros Ha Hb Hc Hd He Hf.
  set (fila := [z1] ++ (a ++ b ++ c) ++ [z2] ++ (d ++ e ++ f)).
  assert (Hlen : length fila = 62%nat).
  { unfold fila. rewrite !length_app. cbn [length]. lia. }
  destruct (lectura_spec_Some fila) as (i1 & i2 & H0 & H31 & ->); [lia|].
  assert (i1 = z1) as -> by (unfold fila in H0; cbn in H0; congruence).
  assert (i2 = z2) as ->.
  { unfold fila in H31.
    rewrite (lookup_app_r [z1]) in H31 by (cbn; lia).
    rewrite lookup_app_r in H31 by (rewrite !length_app; cbn; lia).
    rewrite !length_app, Ha, Hb, Hc in H31. cbn in H31. congruence. }
  assert (Hs : forall l1 m l2 i j, fila = l1 ++ m ++ l2 -> length l1 = i ->
                 (i + length m)%nat = j -> iloc_slice fila i j = m).
  { intros l1 m l2 i j -> <- <-. apply iloc_slice_medio. }
  rewrite (Hs [z1] a (b ++ c ++ [z2] ++ d ++ e ++ f) 1%nat 11%nat);
    [|unfold fila; by rewrite <- !app_assoc|done|lia].
  rewrite (Hs ([z1] ++ a) b (c ++ [z2] ++ d ++ e ++ f) 11%nat 21%nat);
    [|unfold fila; by rewrite <- !app_assoc|rewrite length_app; cbn; lia|lia].
  rewrite (Hs ([z1] ++ a ++ b) c ([z2] ++ d ++ e ++ f) 21%nat 31%nat);
    [|unfold fila; by rewrite <- !app_assoc|rewrite !length_app; cbn; lia|lia].
  rewrite (Hs ([z1] ++ a ++ b ++ c ++ [z2]) d (e ++ f) 32%nat 42%nat);
    [|unfold fila; by rewrite <- !app_assoc|rewrite !length_app; cbn; lia|lia].
  rewrite (Hs ([z1] ++ a ++ b ++ c ++ [z2] ++ d) e f 42%nat 52%nat);
    [|unfold fila; by rewrite <- !app_assoc|rewrite !length_app; cbn; lia|lia].
  rewrite (Hs ([z1] ++ a ++ b ++ c ++ [z2] ++ d ++ e) f [] 52%nat 62%nat);
    [|unfold fila; by rewrite <- !app_assoc, ?app_nil_r|rewrite !length_app; cbn; lia|lia].
  done.
Qed.

Lemma concat_uniforme {A} (k : nat) (ls : list (list A)) :
  Forall (fun t => length t = k) ls ->
  forall r t, ls !! r = Some t -> take k (drop (k * r) (concat ls)) = t.
Proof.
  induction 1 as [|t0 ls Ht0 Hls IH]; intros r t Hr; [done|].
  destruct r as [|r]; cbn [concat].
  - cbn in Hr. injection Hr as ->. rewrite Nat.mul_0_r, drop_0.
    by apply take_app_length'.
  - cbn in Hr. replace (k * S r)%nat with (length t0 + k * r)%nat by lia.
    rewrite drop_app_add'; [|done]. by apply IH.
Qed.

Lemma leida_fila r1 r2 (a b c d e f : list Z) t :
  Forall2 celda_leida
    ([Texto (fmt04d r1)] ++ (Numero <$> a ++ b ++ c) ++
     [Texto (fmt04d r2)] ++ (Numero <$> d ++ e ++ f)) t ->
  exists z1 z2,
    fmt04d z1 = fmt04d r1 /\ fmt04d z2 = fmt04d r2 /\
    t = [z1] ++ (a ++ b ++ c) ++ [z2] ++ (d ++ e ++ f).
Proof.
  intros (t1 & t' & H1 & H' & ->)%Forall2_app_inv_l.
  apply Forall2_app_inv_l in H' as (t2 & t'' & H2 & H'' & ->).
  apply Forall2_app_inv_l in H'' as (t3 & t4 & H3 & H4 & ->).
  apply leida_numeros in H2 as ->. apply leida_numeros in H4 as ->.
  apply Forall2_cons_inv_l in H1 as (z1 & ? & [_ Hz1] & ->%Forall2_nil_inv_l & ->).
  apply Forall2_cons_inv_l in H3 as (z2 & ? & [_ Hz2] & ->%Forall2_nil_inv_l & ->).
  by exists z1, z2.
Qed.

Lemma generar_y_cargar_filas pool config :
  2 <= bingos_por_fila config ->
  cartones_por_bingo config = 3 ->
  numeros_por_carton config = 10 ->
  Z.of_nat (length pool) = numero_de_bingos config * cartones_por_bingo config ->
  Forall (fun c => Z.of_nat (length c) = numeros_por_carton config) pool ->
  let filas := Z.to_nat (numero_de_bingos config `div` bingos_por_fila config) in
  exists df,
    crear_dataframe_corel pool config = Ok df /\
    forall tabla, tabla_leida df tabla ->
      exists cs cv,
        Simulador.cargar_cartones_corel tabla = Ok cs /\
        BingoLive.cargar_cartones tabla = Ok cv /\
        length cs = (6 * filas)%nat /\ length cv = (6 * filas)%nat /\
        forall r, (r < filas)%nat ->
          exists a b c d e f,
            pool !! (r * 3)%nat = Some a /\
            pool !! (r * 3 + 1)%nat = Some b /\
            pool !! (r * 3 + 2)%nat = Some c /\
            pool !! ((filas + r) * 3)%nat = Some d /\
            pool !! ((filas + r) * 3 + 1)%nat = Some e /\
            pool !! ((filas + r) * 3 + 2)%nat = Some f /\
            (let id1 := fmt04d (Z.of_nat r + 1) in
             let id2 := fmt04d (numero_de_bingos config `div` 2 + 1 + Z.of_nat r) in
             take 6 (drop (6 * r) cv)
             = [carton_cargado id1 "A" a; carton_cargado id1 "B" b;
                carton_cargado id1 "C" c; carton_cargado id2 "D" d;
                carton_cargado id2 "E" e; carton_cargado id2 "F" f]) /\
            (fun x => (Simulador.carton_tipo x, Simulador.numeros x))
              <$> take 6 (drop (6 * r) cs)
            = [("A"%string, list_to_set a); ("B"%string, list_to_set b);
               ("C"%string, list_to_set c); ("D"%string, list_to_set d);
               ("E"%string, list_to_set e); ("F"%string, list_to_set f)].
Proof.
  intros Hbpf Hcpb Hk Hlen Hpool filas.
  destruct (crear_dataframe_corel_filas pool config Hbpf Hcpb Hlen Hpool)
    as (df & Hdf & Hnf & Hfilas).
  fold filas in Hnf, Hfilas.
  exists df. split; [done|]. intros tabla Hleida. unfold tabla_leida in Hleida.
  assert (Hlt : length tabla = filas).
  { apply Forall2_length in Hleida. lia. }
  assert (Hdiez : forall i x, pool !! i = Some x -> length x = 10%nat).
  { intros i x Hx. rewrite Forall_forall in Hpool.
    pose proof (Hpool x (list_elem_of_lookup_2 _ _ _ Hx)). lia. }
  assert (Hrows : forall r, (r < filas)%nat ->
    exists a b c d e f z1 z2,
      pool !! (r * 3)%nat = Some a /\ pool !! (r * 3 + 1)%nat = Some b /\
      pool !! (r * 3 + 2)%nat = Some c /\ pool !! ((filas + r) * 3)%nat = Some d /\
      pool !! ((filas + r) * 3 + 1)%nat = Some e /\
      pool !! ((filas + r) * 3 + 2)%nat = Some f /\
      fmt04d z1 = fmt04d (Z.of_nat r + 1) /\
      fmt04d z2 = fmt04d (numero_de_bingos config `div` 2 + 1 + Z.of_nat r) /\
      tabla !! r = Some ([z1] ++ (a ++ b ++ c) ++ [z2] ++ (d ++ e ++ f)) /\
      lectura_spec 10 ([z1] ++ (a ++ b ++ c) ++ [z2] ++ (d ++ e ++ f))
      = Some [ (z1, "A"%string, list_to_set a); (z1, "B"%string, list_to_set b);
               (z1, "C"%string, list_to_set c); (z2, "D"%string, list_to_set d);
               (z2, "E"%string, list_to_set e); (z2, "F"%string, list_to_set f) ]).
  { intros r Hr.
    destruct (Hfilas r Hr) as (a & b & c & d & e & f & Ha & Hb & Hc & Hd & He & Hf & Hrow).
    destruct (Forall2_lookup_l _ _ _ r _ Hleida Hrow) as (t & Ht & Hcells).
    apply leida_fila in Hcells as (z1 & z2 & Hz1 & Hz2 & ->).
    exists a, b, c, d, e, f, z1, z2. split_and!; try done.
    apply lectura_fila; eauto. }
  assert (Hsome : is_Some (mapM (lectura_spec 10) tabla)).
  { apply mapM_is_Some, Forall_lookup. intros r t Ht.
    assert (Hr : (r < filas)%nat) by (rewrite <- Hlt; by eapply lookup_lt_Some).
    destruct (Hrows r Hr) as (a & b & c & d & e & f & z1 & z2 & H).
    destruct H as (_ & _ & _ & _ & _ & _ & _ & _ & Ht' & Hspec).
    assert (t = [z1] ++ (a ++ b ++ c) ++ [z2] ++ (d ++ e ++ f)) as -> by congruence.
    unfold compose. rewrite Hspec. by eexists. }
  destruct Hsome as [tarjetas Hmap].
  pose proof (cargar_bucle_general tabla [] []) as Hgen. rewrite Hmap in Hgen.
  destruct Hgen as [Hcs Hcv]. cbn [app] in Hcs, Hcv.
  pose proof (mapM_Some_1 _ _ _ Hmap) as Hall.
  assert (Hseis : Forall (fun t => length t = 6%nat) tarjetas).
  { apply Forall_lookup. intros r t Ht.
    destruct (Forall2_lookup_r _ _ _ r _ Hall Ht) as (fila & Hfila & Hspec).
    by destruct (lectura_spec_tamano fila t Hspec). }
  assert (Hlc : length (concat tarjetas) = (6 * filas)%nat).
  { destruct (lectura_spec_todas tabla tarjetas Hmap) as [-> _]. by rewrite Hlt. }
  exists (carton_simulador <$> concat tarjetas), (carton_en_vivo <$> concat tarjetas).
  split_and!; [done|done|by rewrite length_fmap|by rewrite length_fmap|].
  intros r Hr.
  destruct (Hrows r Hr) as (a & b & c & d & e & f & z1 & z2 & H).
  destruct H as (Ha & Hb & Hc & Hd & He & Hf & Hz1 & Hz2 & Ht & Hspec).
  exists a, b, c, d, e, f. split_and!; try done.
  - cbn zeta.
    destruct (Forall2_lookup_l _ _ _ r _ Hall Ht) as (t & Htar & Hspec').
    rewrite Hspec in Hspec'. injection Hspec' as <-.
    rewrite <- fmap_drop, <- fmap_take, (concat_uniforme 6 tarjetas Hseis r _ Htar).
    cbn [fmap list_fmap]. unfold carton_en_vivo, carton_cargado. cbn [fst snd].
    change (zfill (str z1) 4) with (fmt04d z1).
    change (zfill (str z2) 4) with (fmt04d z2).
    by rewrite Hz1, Hz2.
  - destruct (Forall2_lookup_l _ _ _ r _ Hall Ht) as (t & Htar & Hspec').
    rewrite Hspec in Hspec'. injection Hspec' as <-.
    rewrite <- fmap_drop, <- fmap_take, (concat_uniforme 6 tarjetas Hseis r _ Htar).
    done.
Qed.

(** Property X24.  The paired table and the loaders fit together.  For a pool of [numero_de_bingos * 3] cards of ten numbers and at least two sheets per row, [crear_dataframe_corel] returns a table, and for every table of integers read back from it ([tabla_leida]) both loaders return six cards per row: row [r] gives the pool cards [3r .. 3r + 2] as slots A, B, C and the cards [3 (filas + r) .. + 2] as D, E, F, and the live loader gives them the sheet ids [r + 1] and [numero_de_bingos / 2 + 1 + r] in four digits, as the generator wrote them. *)
Theorem generar_y_cargar pool config :
  2 <= bingos_por_fila config ->
  cartones_por_bingo config = 3 ->
  numeros_por_carton config = 10 ->
  Z.of_nat (length pool) = numero_de_bingos config * cartones_por_bingo config ->
  Forall (fun c => Z.of_nat (length c) = numeros_por_carton config) pool ->
  let filas := Z.to_nat (numero_de_bingos config `div` bingos_por_fila config) in
  exists df,
    crear_dataframe_corel pool config = Ok df /\
    forall tabla, tabla_leida df tabla ->
      exists cs cv,
        Simulador.cargar_cartones_corel tabla = Ok cs /\
        BingoLive.cargar_cartones tabla = Ok cv /\
        length cs = (6 * filas)%nat /\ length cv = (6 * filas)%nat /\
        forall r, (r < filas)%nat ->
          exists a b c d e f,
            pool !! (r * 3)%nat = Some a /\
            pool !! (r * 3 + 1)%nat = Some b /\
            pool !! (r * 3 + 2)%nat = Some c /\
            pool !! ((filas + r) * 3)%nat = Some d /\
            pool !! ((filas + r) * 3 + 1)%nat = Some e /\
            pool !! ((filas + r) * 3 + 2)%nat = Some f /\
            (let id1 := fmt04d (Z.of_nat r + 1) in
             let id2 := fmt04d (numero_de_bingos config `div` 2 + 1 + Z.of_nat r) in
             take 6 (drop (6 * r) cv)
             = [carton_cargado id1 "A" a; carton_cargado id1 "B" b;
                carton_cargado id1 "C" c; carton_cargado id2 "D" d;
                carton_cargado id2 "E" e; carton_cargado id2 "F" f]) /\
            (fun x => (Simulador.carton_tipo x, Simulador.numeros x))
              <$> take 6 (drop (6 * r) cs)
            = [("A"%string, list_to_set a); ("B"%string, list_to_set b);
               ("C"%string, list_to_set c); ("D"%string, list_to_set d);
               ("E"%string, list_to_set e); ("F"%string, list_to_set f)].
Proof. apply generar_y_cargar_filas. Qed.

Lemma generar_y_cargar_witness :
  exists df,
    crear_dataframe_corel pool_ejemplo (config_ejemplo 6 10 60 3 2) = Ok df /\
    forall tabla, tabla_leida df tabla ->
      exists cv, BingoLive.cargar_cartones tabla = Ok cv /\ length cv = 18%nat.
Proof.
  destruct (generar_y_cargar pool_ejemplo (config_ejemplo 6 10 60 3 2))
    as (df & Hdf & Htabla).
  - cbn [bingos_por_fila config_ejemplo]. lia.
  - reflexivity.
  - reflexivity.
  - vm_compute. reflexivity.
  - unfold pool_ejemplo. cbn [seq fmap list_fmap].
    repeat constructor.
  - exists df. split; [exact Hdf|]. intros tabla Hleida.
    destruct (Htabla tabla Hleida) as (cs & cv & _ & Hcv & _ & Hlen & _).
    exists cv. split; [exact Hcv|exact Hlen].
Defined.

End IdaYVuelta.

Section Cadenas.

Lemma int_desde_append s t : forall acc,
  int_desde acc (String.append s t) = int_desde (int_desde acc s) t.
Proof. induction s as [|a s IH]; intros acc; cbn; [done|apply IH]. Qed.

Lemma int_desde_digit acc d :
  0 <= d < 10 -> int_desde acc (digit d) = 10 * acc + d.
Proof.
  intros Hd. unfold digit. cbn [int_desde].
  rewrite nat_ascii_embedding by lia. lia.
Qed.

Lemma int_desde_digits_fuel fuel :
  forall z, 0 <= z -> (Z.to_nat z < fuel)%nat ->
            forall acc, acc = 0 -> int_desde acc (digits_fuel fuel z) = z.
Proof.
  induction fuel as [|fuel IH]; intros z Hz Hf acc ->; [lia|].
  cbn [digits_fuel]. case_decide as Hlt.
  - rewrite int_desde_digit by lia. lia.
  - rewrite int_desde_append.
    rewrite (IH (z `div` 10)); [| |  |done].
    + rewrite int_desde_digit by (apply Z.mod_pos_bound; lia).
      pose proof (Z.div_mod z 10 ltac:(lia)). lia.
    + apply Z.div_pos; lia.
    + assert (z `div` 10 < z) by (apply Z.div_lt; lia). lia.
Qed.

Lemma int_str z : 0 <= z -> int_ (str z) = z.
Proof.
  intros Hz. unfold int_, str. rewrite decide_False by lia.
  unfold digits. apply int_desde_digits_fuel; [done|lia|done].
Qed.

Lemma int_desde_zeros n s : int_desde 0 (String.append (zeros n) s) = int_desde 0 s.
Proof. induction n as [|n IH]; cbn; [done|apply IH]. Qed.

Lemma digits_fuel_cabeza fuel z :
  0 <= z ->
  match digits_fuel (S fuel) z with
  | EmptyString => False
  | String a _ => (48 <= nat_of_ascii a <= 57)%nat
  end.
Proof.
  revert z. induction fuel as [|fuel IH]; intros z Hz.
  - cbn [digits_fuel]. case_decide as Hlt.
    + unfold digit. rewrite nat_ascii_embedding by lia. lia.
    + unfold digit.
      change ((48 <= nat_of_ascii (ascii_of_nat (48 + Z.to_nat (z `mod` 10))) <= 57)%nat).
      rewrite nat_ascii_embedding by (pose proof (Z.mod_pos_bound z 10); lia).
      pose proof (Z.mod_pos_bound z 10). lia.
  - change (digits_fuel (S (S fuel)) z) with
      (if decide (z < 10) then digit z
       else String.append (digits_fuel (S fuel) (z `div` 10)) (digit (z `mod` 10))).
    case_decide as Hlt.
    + unfold digit. rewrite nat_ascii_embedding by lia. lia.
    + specialize (IH (z `div` 10) ltac:(apply Z.div_pos; lia)).
      destruct (digits_fuel (S fuel) (z `div` 10)); [done|]. done.
Qed.

Lemma int_fmt04d z : 0 <= z -> int_ (fmt04d z) = z.
Proof.
  intros Hz. unfold fmt04d.
  assert (Hzfill : zfill (str z) 4
                   = String.append (zeros (4 - String.length (str z))) (str z)).
  { unfold str. rewrite decide_False by lia. unfold digits.
    pose proof (digits_fuel_cabeza (Z.to_nat z) z Hz) as Hc.
    destruct (digits_fuel (S (Z.to_nat z)) z) as [|a s] eqn:E; [done|].
    unfold zfill.
    destruct (decide (a = "-"%char)) as [->|Hm]; [vm_compute in Hc; lia|].
    destruct (decide (a = "+"%char)) as [->|Hp]; [vm_compute in Hc; lia|].
    destruct a as [[] [] [] [] [] [] [] []]; try done. }
  rewrite Hzfill. unfold int_. rewrite int_desde_zeros. by apply int_str.
Qed.

Lemma fmt04d_inj z1 z2 : 0 <= z1 -> 0 <= z2 -> fmt04d z1 = fmt04d z2 -> z1 = z2.
Proof.
  intros H1 H2 Heq. rewrite <- (int_fmt04d z1), <- (int_fmt04d z2) by done.
  by rewrite Heq.
Qed.

End Cadenas.

Section GenerarCargarJugar.
Import BingoLive Carga.

Lemma claves_por_fila (cv : list Carton) (filas : nat) (id1 id2 : nat -> string) :
  length cv = (6 * filas)%nat ->
  (forall r, (r < filas)%nat ->
     clave <$> take 6 (drop (6 * r) cv)
     = [(id1 r, "A"); (id1 r, "B"); (id1 r, "C");
        (id2 r, "D"); (id2 r, "E"); (id2 r, "F")]%string) ->
  (forall r r', (r < filas)%nat -> (r' < filas)%nat -> id1 r = id1 r' -> r = r') ->
  (forall r r', (r < filas)%nat -> (r' < filas)%nat -> id2 r = id2 r' -> r = r') ->
  NoDup (clave <$> cv).
Proof.
  intros Hlen Hfila Hinj1 Hinj2.
  assert (Hpos : forall i x, (clave <$> cv) !! i = Some x ->
            (i `div` 6 < filas)%nat /\ (i `mod` 6 < 6)%nat /\
            [(id1 (i `div` 6)%nat, "A"); (id1 (i `div` 6)%nat, "B");
             (id1 (i `div` 6)%nat, "C"); (id2 (i `div` 6)%nat, "D");
             (id2 (i `div` 6)%nat, "E"); (id2 (i `div` 6)%nat, "F")]%string
              !! (i `mod` 6)%nat = Some x).
  { intros i x Hi.
    assert (Hlt : (i < 6 * filas)%nat).
    { apply lookup_lt_Some in Hi. by rewrite length_fmap, Hlen in Hi. }
    pose proof (Nat.div_mod_eq i 6) as Hdm.
    pose proof (Nat.mod_upper_bound i 6 ltac:(lia)) as Hm.
    assert (Hr : (i `div` 6 < filas)%nat) by (apply Nat.Div0.div_lt_upper_bound; lia).
    split_and!; [done..|].
    rewrite <- (Hfila _ Hr), fmap_take, fmap_drop.
    rewrite lookup_take_lt by done. rewrite lookup_drop. by rewrite <- Hdm. }
  apply NoDup_alt. intros i j x Hi Hj.
  destruct (Hpos i x Hi) as (Hri & Hti & Hxi), (Hpos j x Hj) as (Hrj & Htj & Hxj).
  pose proof (Nat.div_mod_eq i 6) as Hdi. pose proof (Nat.div_mod_eq j 6) as Hdj.
  set (ri := (i `div` 6)%nat) in *. set (rj := (j `div` 6)%nat) in *.
  set (ti := (i `mod` 6)%nat) in *. set (tj := (j `mod` 6)%nat) in *.
  clearbody ri rj ti tj.
  assert (ti = tj /\ ri = rj) as [-> ->]; [|lia].
  do 6 (destruct ti as [|ti]; [
    do 6 (destruct tj as [|tj]; [
      cbn in Hxi, Hxj; rewrite <- Hxi in Hxj; injection Hxj as Hid;
      first [ discriminate | split; [done|]; first [by apply Hinj1 | by apply Hinj2] ] |]);
    lia |]).
  lia.
Qed.

Lemma generar_cargar_claves pool config df tabla cv :
  2 <= bingos_por_fila config ->
  cartones_por_bingo config = 3 ->
  numeros_por_carton config = 10 ->
  Z.of_nat (length pool) = numero_de_bingos config * cartones_por_bingo config ->
  Forall (fun c => Z.of_nat (length c) = numeros_por_carton config) pool ->
  crear_dataframe_corel pool config = Ok df ->
  tabla_leida df tabla ->
  cargar_cartones tabla = Ok cv ->
  NoDup (clave <$> cv).
Proof.
  intros Hbpf Hcpb Hk Hlen Hpool Hdf Hleida Hcv.
  destruct (generar_y_cargar_filas pool config Hbpf Hcpb Hk Hlen Hpool)
    as (df' & Hdf' & Htabla).
  assert (df' = df) as -> by congruence.
  destruct (Htabla tabla Hleida) as (cs & cv' & _ & Hcv' & _ & Hlcv & Hfilas).
  assert (cv' = cv) as -> by congruence.
  set (filas := Z.to_nat (numero_de_bingos config `div` bingos_por_fila config)) in *.
  assert (Hn : (0 < filas)%nat -> 0 <= numero_de_bingos config `div` 2).
  { intros Hf. apply Z.div_pos; [|lia].
    destruct (decide (0 <= numero_de_bingos config)); [done|].
    assert (numero_de_bingos config `div` bingos_por_fila config < 0)
      by (apply Z.div_lt_upper_bound; lia).
    lia. }
  apply (claves_por_fila cv filas
           (fun r => fmt04d (Z.of_nat r + 1))
           (fun r => fmt04d (numero_de_bingos config `div` 2 + 1 + Z.of_nat r)));
    [done| | |].
  - intros r Hr.
    destruct (Hfilas r Hr) as (a & b & c & d & e & f & _ & _ & _ & _ & _ & _ & Hseis & _).
    cbn zeta in Hseis. by rewrite Hseis.
  - intros r r' _ _ Heq. apply fmt04d_inj in Heq; lia.
  - intros r r' Hr _ Heq. specialize (Hn ltac:(lia)). apply fmt04d_inj in Heq; lia.
Qed.

(** Property X25.  In a live game loaded from a table that [crear_dataframe_corel] wrote, no two cards share sheet id and slot, in any state reached by calls, undos and resets; so its winners are always all the complete cards, in the order of the cards. *)
Theorem generar_cargar_y_jugar pool config df tabla s0 s :
  2 <= bingos_por_fila config ->
  cartones_por_bingo config = 3 ->
  numeros_por_carton config = 10 ->
  Z.of_nat (length pool) = numero_de_bingos config * cartones_por_bingo config ->
  Forall (fun c => Z.of_nat (length c) = numeros_por_carton config) pool ->
  crear_dataframe_corel pool config = Ok df ->
  tabla_leida df tabla ->
  nuevo_estado tabla = Ok s0 ->
  alcanzable_desde s0 s ->
  NoDup ((fun c => (bingo_id c, carton_tipo c)) <$> cartones s) /\
  ganadores s = posiciones_ganadoras (cartones s).
Proof.
  intros Hbpf Hcpb Hk Hlen Hpool Hdf Hleida Hs0 Hs.
  assert (Hnd : NoDup (clave <$> cartones s)).
  { rewrite claves_fichas, (fichas_alcanzable_desde s0 s Hs), <- claves_fichas.
    unfold nuevo_estado in Hs0. apply bind_Ok in Hs0 as (cv & Hcv & <-%Ok_inj).
    cbn [cartones]. by eapply generar_cargar_claves. }
  split; [exact Hnd|].
  apply ganadores_todos; [|done]. by eapply alcanzable_desde_alcanzable.
Qed.

Lemma generar_cargar_y_jugar_witness :
  let s := (cantar_bolilla estado_generado 7).1 in
  NoDup ((fun c => (bingo_id c, carton_tipo c)) <$> cartones s) /\
  ganadores s = posiciones_ganadoras (cartones s).
Proof.
  apply (generar_cargar_y_jugar pool_ejemplo (config_ejemplo 6 10 60 3 2)
           df_ejemplo tabla_ejemplo estado_generado).
  - cbn [bingos_por_fila config_ejemplo]. lia.
  - reflexivity.
  - reflexivity.
  - vm_compute. reflexivity.
  - unfold pool_ejemplo. cbn [seq fmap list_fmap].
    repeat constructor.
  - vm_compute. reflexivity.
  - apply (bool_decide_unpack _). vm_compute. exact I.
  - vm_compute. reflexivity.
  - apply desde_cantar, desde_inicio.
Defined.

End GenerarCargarJugar.

(** ** Winning does not depend on the order of the calls *)

Section OrdenDeLasBolillas.
Import Simulador.





End OrdenDeLasBolillas.
